(** * Sliding puzzle (15-puzzle) for Game Boy Color: model of [src/main.c]

    The C program keeps the puzzle in global variables and paints the
    background map through GBDK's [set_bkg_tile_xy], with the register
    [VBK_REG] selecting the tile map (bank 0) or the CGB attribute map
    (bank 1).  The embedding below threads one [state] record through every
    function, keeps fixed-width integers as [Z] with the wrap-around written
    out, and records each background write in a log so that statements about
    what was (not) repainted can be made. *)

From stdpp Require Import base list.
From Stdlib Require Import ZArith Lia.

Local Open Scope Z_scope.

(** ** Fixed-width integers *)

Definition u8 (z : Z) : Z := z mod 256.
Definition u16 (z : Z) : Z := z mod 65536.
(** Conversion to [int8_t] (two's complement). *)
Definition i8 (z : Z) : Z := (z + 128) mod 256 - 128.

(** ** Constants of main.c *)

Definition GRID_SIZE : Z := 4.
Definition TOTAL_TILES : Z := 16.
Definition EMPTY_TILE : Z := 0.
Definition CELL_W : Z := 3.
Definition CELL_H : Z := 3.
Definition GRID_X : Z := 4.
Definition GRID_Y : Z := 3.

Definition T_BLANK : Z := 0.
Definition T_BORDER_TL : Z := 1.
Definition T_BORDER_T : Z := 2.
Definition T_BORDER_TR : Z := 3.
Definition T_BORDER_L : Z := 4.
Definition T_BORDER_R : Z := 5.
Definition T_BORDER_BL : Z := 6.
Definition T_BORDER_B : Z := 7.
Definition T_BORDER_BR : Z := 8.
Definition T_NUM_START : Z := 10.
Definition T_NUM10_L : Z := 19.
Definition T_EMPTY_CELL : Z := 31.
Definition T_TILE_TL : Z := 32.
Definition T_TILE_T : Z := 33.
Definition T_TILE_TR : Z := 34.
Definition T_TILE_L : Z := 35.
Definition T_TILE_R : Z := 36.
Definition T_TILE_BL : Z := 37.
Definition T_TILE_B : Z := 38.
Definition T_TILE_BR : Z := 39.

Definition INPUT_DELAY : Z := 6.

(** ** Program state *)

(** One call of [set_bkg_tile_xy]: the VRAM bank selected by [VBK_REG] at the
    time of the call (0 = tile map, 1 = attribute map), the screen position
    and the byte written. *)
Record write := Write { w_bank : Z; w_x : Z; w_y : Z; w_tile : Z }.

(** The globals of main.c, the bank register, the log of background writes
    (newest first), the number of [wait_vbl_done] calls and the number of
    [joypad] calls so far. *)
Record state := State {
  board : list (list Z);
  empty_row : Z;
  empty_col : Z;
  cursor_row : Z;
  cursor_col : Z;
  move_count : Z;
  game_won : Z;
  input_cooldown : Z;
  seed_counter : Z;
  VBK_REG : Z;
  bkg_writes : list write;
  frame : nat;
  polls : nat
}.

Definition with_board (b : list (list Z)) (s : state) : state :=
  State b (empty_row s) (empty_col s) (cursor_row s) (cursor_col s)
        (move_count s) (game_won s) (input_cooldown s) (seed_counter s)
        (VBK_REG s) (bkg_writes s) (frame s) (polls s).
Definition with_empty_row (v : Z) (s : state) : state :=
  State (board s) v (empty_col s) (cursor_row s) (cursor_col s)
        (move_count s) (game_won s) (input_cooldown s) (seed_counter s)
        (VBK_REG s) (bkg_writes s) (frame s) (polls s).
Definition with_empty_col (v : Z) (s : state) : state :=
  State (board s) (empty_row s) v (cursor_row s) (cursor_col s)
        (move_count s) (game_won s) (input_cooldown s) (seed_counter s)
        (VBK_REG s) (bkg_writes s) (frame s) (polls s).
Definition with_cursor_row (v : Z) (s : state) : state :=
  State (board s) (empty_row s) (empty_col s) v (cursor_col s)
        (move_count s) (game_won s) (input_cooldown s) (seed_counter s)
        (VBK_REG s) (bkg_writes s) (frame s) (polls s).
Definition with_cursor_col (v : Z) (s : state) : state :=
  State (board s) (empty_row s) (empty_col s) (cursor_row s) v
        (move_count s) (game_won s) (input_cooldown s) (seed_counter s)
        (VBK_REG s) (bkg_writes s) (frame s) (polls s).
Definition with_move_count (v : Z) (s : state) : state :=
  State (board s) (empty_row s) (empty_col s) (cursor_row s) (cursor_col s)
        v (game_won s) (input_cooldown s) (seed_counter s)
        (VBK_REG s) (bkg_writes s) (frame s) (polls s).
Definition with_game_won (v : Z) (s : state) : state :=
  State (board s) (empty_row s) (empty_col s) (cursor_row s) (cursor_col s)
        (move_count s) v (input_cooldown s) (seed_counter s)
        (VBK_REG s) (bkg_writes s) (frame s) (polls s).
Definition with_input_cooldown (v : Z) (s : state) : state :=
  State (board s) (empty_row s) (empty_col s) (cursor_row s) (cursor_col s)
        (move_count s) (game_won s) v (seed_counter s)
        (VBK_REG s) (bkg_writes s) (frame s) (polls s).
Definition with_VBK_REG (v : Z) (s : state) : state :=
  State (board s) (empty_row s) (empty_col s) (cursor_row s) (cursor_col s)
        (move_count s) (game_won s) (input_cooldown s) (seed_counter s)
        v (bkg_writes s) (frame s) (polls s).
Definition with_bkg_writes (v : list write) (s : state) : state :=
  State (board s) (empty_row s) (empty_col s) (cursor_row s) (cursor_col s)
        (move_count s) (game_won s) (input_cooldown s) (seed_counter s)
        (VBK_REG s) v (frame s) (polls s).
Definition with_frame (v : nat) (s : state) : state :=
  State (board s) (empty_row s) (empty_col s) (cursor_row s) (cursor_col s)
        (move_count s) (game_won s) (input_cooldown s) (seed_counter s)
        (VBK_REG s) (bkg_writes s) v (polls s).
Definition with_polls (v : nat) (s : state) : state :=
  State (board s) (empty_row s) (empty_col s) (cursor_row s) (cursor_col s)
        (move_count s) (game_won s) (input_cooldown s) (seed_counter s)
        (VBK_REG s) (bkg_writes s) (frame s) v.

(** ** The board array

    [uint8_t board[4][4]] is a list of four rows of four cells.  Indices are
    [uint8_t] in the source and always inside the grid where the program
    uses them; outside it C leaves the access undefined, and the model reads
    the default 0 and ignores the store. *)

Definition cell (b : list (list Z)) (r c : Z) : Z :=
  (b !!! Z.to_nat r) !!! Z.to_nat c.

Definition store (b : list (list Z)) (r c v : Z) : list (list Z) :=
  alter (<[Z.to_nat c := v]>) (Z.to_nat r) b.

(** ** Loops *)

(** [for (i = lo; i < hi; i++) body], without early exit. *)
Definition for_loop {S : Type} (lo hi : Z) (body : Z → S → S) (s : S) : S :=
  foldl (λ acc i, body i acc) s (seqZ lo (hi - lo)).

(** A loop body either falls through to the next iteration or executes a
    [return]. *)
Inductive flow (R S : Type) : Type :=
  | Return (r : R)
  | Next (s : S).
Arguments Return {R S} r.
Arguments Next {R S} s.

Fixpoint for_list {R S : Type} (idxs : list Z) (body : Z → S → flow R S) (s : S)
  : flow R S :=
  match idxs with
  | [] => Next s
  | i :: rest =>
      match body i s with
      | Return r => Return r
      | Next s' => for_list rest body s'
      end
  end.

(** [for (i = lo; i < hi; i++) body], where the body may [return]. *)
Definition for_return {R S : Type} (lo hi : Z) (body : Z → S → flow R S) (s : S)
  : flow R S :=
  for_list (seqZ lo (hi - lo)) body s.

(** ** Display driver (GBDK) *)

(** [set_bkg_tile_xy(x, y, t)]: one byte written to the background map of the
    bank currently selected by [VBK_REG]; the three arguments are [uint8_t]. *)
Definition set_bkg_tile_xy (x y t : Z) (s : state) : state :=
  with_bkg_writes (Write (VBK_REG s) (u8 x) (u8 y) (u8 t) :: bkg_writes s) s.

(** [wait_vbl_done()]: suspends until the next vertical blank. *)
Definition wait_vbl_done (s : state) : state := with_frame (S (frame s)) s.

(** What the background map of [bank] shows at [(x, y)] after the logged
    writes: the byte of the newest write there, if any. *)
Fixpoint shown (bank x y : Z) (log : list write) : option Z :=
  match log with
  | [] => None
  | w :: older =>
      if (w_bank w =? bank) && (w_x w =? x) && (w_y w =? y)
      then Some (w_tile w)
      else shown bank x y older
  end.

Definition tile_at (s : state) (x y : Z) : option Z := shown 0 x y (bkg_writes s).
Definition attr_at (s : state) (x y : Z) : option Z := shown 1 x y (bkg_writes s).

(** ** Helper: text *)

(** [put_char]; [c] is a [char] (unsigned 8-bit under SDCC), ['0'] = 48 and
    ['9'] = 57. *)
Definition put_char (x y c : Z) (s : state) : state :=
  let tile :=
    if (48 <=? c) && (c <=? 57) then
      let digit := u8 (c - 48) in
      if digit =? 0 then T_NUM10_L + 1 else T_NUM_START + digit - 1
    else T_BLANK in
  set_bkg_tile_xy x y tile s.

Definition put_number (x y num : Z) (s : state) : state :=
  let hundreds := u8 (num / 100) in
  let tens := u8 ((num / 10) mod 10) in
  let ones := u8 (num mod 10) in
  if hundreds >? 0 then
    let s := put_char x y (u8 (48 + hundreds)) s in
    let s := put_char (x + 1) y (u8 (48 + tens)) s in
    put_char (x + 2) y (u8 (48 + ones)) s
  else if tens >? 0 then
    let s := set_bkg_tile_xy x y T_BLANK s in
    let s := put_char (x + 1) y (u8 (48 + tens)) s in
    put_char (x + 2) y (u8 (48 + ones)) s
  else
    let s := set_bkg_tile_xy x y T_BLANK s in
    let s := set_bkg_tile_xy (x + 1) y T_BLANK s in
    put_char (x + 2) y (u8 (48 + ones)) s.

(** ** Drawing functions *)

Definition get_tile_palette (tile_num : Z) : Z :=
  if tile_num =? 0 then 5
  else if tile_num <=? 4 then 1
  else if tile_num <=? 8 then 2
  else if tile_num <=? 12 then 3
  else 4.

(** The 3x3 block of one bank filled with one byte (the two nested [for]
    loops over [r] and [c_idx] that occur three times in the source). *)
Definition fill_block (sx sy v : Z) (s : state) : state :=
  for_loop 0 CELL_H (λ r s,
    for_loop 0 CELL_W (λ c_idx s,
      set_bkg_tile_xy (sx + c_idx) (sy + r) v s) s) s.

Definition draw_cell (gx gy : Z) (s : state) : state :=
  let tile_num := cell (board s) gy gx in
  let sx := u8 (GRID_X + gx * CELL_W) in
  let sy := u8 (GRID_Y + gy * CELL_H) in
  let pal := get_tile_palette tile_num in
  let s := with_VBK_REG 1 s in
  let s := fill_block sx sy pal s in
  let s := with_VBK_REG 0 s in
  if tile_num =? 0 then
    fill_block sx sy T_EMPTY_CELL s
  else
    let s := set_bkg_tile_xy sx sy T_TILE_TL s in
    let s := set_bkg_tile_xy (sx + 1) sy T_TILE_T s in
    let s := set_bkg_tile_xy (sx + 2) sy T_TILE_TR s in
    let s := set_bkg_tile_xy sx (sy + 1) T_TILE_L s in
    let s := set_bkg_tile_xy (sx + 2) (sy + 1) T_TILE_R s in
    let s := set_bkg_tile_xy sx (sy + 2) T_TILE_BL s in
    let s := set_bkg_tile_xy (sx + 1) (sy + 2) T_TILE_B s in
    let s := set_bkg_tile_xy (sx + 2) (sy + 2) T_TILE_BR s in
    if tile_num <=? 9 then
      set_bkg_tile_xy (sx + 1) (sy + 1) (T_NUM_START + tile_num - 1) s
    else
      let pair_base := u8 (T_NUM10_L + (tile_num - 10) * 2) in
      let s := set_bkg_tile_xy sx (sy + 1) T_TILE_L s in
      let s := set_bkg_tile_xy (sx + 1) (sy + 1) pair_base s in
      set_bkg_tile_xy (sx + 2) (sy + 1) (pair_base + 1) s.

Definition draw_board (s : state) : state :=
  for_loop 0 GRID_SIZE (λ gy s,
    for_loop 0 GRID_SIZE (λ gx s, draw_cell gx gy s) s) s.

Definition draw_border (s : state) : state :=
  let x1 := u8 (GRID_X - 1) in
  let y1 := u8 (GRID_Y - 1) in
  let x2 := u8 (GRID_X + GRID_SIZE * CELL_W) in
  let y2 := u8 (GRID_Y + GRID_SIZE * CELL_H) in
  let s := with_VBK_REG 1 s in
  let s := for_loop x1 (x2 + 1) (λ i s,
             let s := set_bkg_tile_xy i y1 0 s in
             set_bkg_tile_xy i y2 0 s) s in
  let s := for_loop y1 (y2 + 1) (λ i s,
             let s := set_bkg_tile_xy x1 i 0 s in
             set_bkg_tile_xy x2 i 0 s) s in
  let s := with_VBK_REG 0 s in
  let s := set_bkg_tile_xy x1 y1 T_BORDER_TL s in
  let s := set_bkg_tile_xy x2 y1 T_BORDER_TR s in
  let s := set_bkg_tile_xy x1 y2 T_BORDER_BL s in
  let s := set_bkg_tile_xy x2 y2 T_BORDER_BR s in
  let s := for_loop (x1 + 1) x2 (λ i s,
             let s := set_bkg_tile_xy i y1 T_BORDER_T s in
             set_bkg_tile_xy i y2 T_BORDER_B s) s in
  for_loop (y1 + 1) y2 (λ i s,
    let s := set_bkg_tile_xy x1 i T_BORDER_L s in
    set_bkg_tile_xy x2 i T_BORDER_R s) s.

Definition draw_hud (s : state) : state :=
  let y := u8 (GRID_Y + GRID_SIZE * CELL_H + 2) in
  let s := with_VBK_REG 1 s in
  let s := for_loop GRID_X (GRID_X + 8) (λ i s, set_bkg_tile_xy i y 7 s) s in
  let s := with_VBK_REG 0 s in
  put_number (GRID_X + 1) y (move_count s) s.

Definition draw_cursor (gx gy show : Z) (s : state) : state :=
  let sx := u8 (GRID_X + gx * CELL_W) in
  let sy := u8 (GRID_Y + gy * CELL_H) in
  let s := with_VBK_REG 1 s in
  let s :=
    if negb (show =? 0) then
      let s := set_bkg_tile_xy sx sy 6 s in
      let s := set_bkg_tile_xy (sx + 2) sy 6 s in
      let s := set_bkg_tile_xy sx (sy + 2) 6 s in
      set_bkg_tile_xy (sx + 2) (sy + 2) 6 s
    else
      let pal := get_tile_palette (cell (board s) gy gx) in
      let s := set_bkg_tile_xy sx sy pal s in
      let s := set_bkg_tile_xy (sx + 2) sy pal s in
      let s := set_bkg_tile_xy sx (sy + 2) pal s in
      set_bkg_tile_xy (sx + 2) (sy + 2) pal s in
  with_VBK_REG 0 s.

(** ** Puzzle logic *)

Definition check_win (s : state) : Z :=
  let scan :=
    for_return 0 GRID_SIZE (λ r expected,
      for_return 0 GRID_SIZE (λ c_idx expected,
        if (r =? GRID_SIZE - 1) && (c_idx =? GRID_SIZE - 1) then
          if negb (cell (board s) r c_idx =? EMPTY_TILE) then Return 0
          else Next expected
        else
          if negb (cell (board s) r c_idx =? expected) then Return 0
          else Next (u8 (expected + 1))) expected) 1 in
  match scan with
  | Return v => v
  | Next _ => 1
  end.

Definition try_move (from_r from_c : Z) (s : state) : Z * state :=
  let dr := i8 (i8 (empty_row s) - i8 from_r) in
  let dc := i8 (i8 (empty_col s) - i8 from_c) in
  if ((dr =? 0) && ((dc =? 1) || (dc =? -1))) ||
     ((dc =? 0) && ((dr =? 1) || (dr =? -1))) then
    let s := with_board (store (board s) (empty_row s) (empty_col s)
                               (cell (board s) from_r from_c)) s in
    let s := with_board (store (board s) from_r from_c EMPTY_TILE) s in
    let old_er := empty_row s in
    let old_ec := empty_col s in
    let s := with_empty_row from_r s in
    let s := with_empty_col from_c s in
    let s := draw_cell old_ec old_er s in
    let s := draw_cell (empty_col s) (empty_row s) s in
    let s := with_move_count (u16 (move_count s + 1)) s in
    let s := draw_hud s in
    (1, s)
  else (0, s).

Definition init_board (s : state) : state :=
  let '(s, _) :=
    for_loop 0 GRID_SIZE (λ r st,
      for_loop 0 GRID_SIZE (λ c_idx '(s, val),
        if (r =? GRID_SIZE - 1) && (c_idx =? GRID_SIZE - 1) then
          (with_board (store (board s) r c_idx EMPTY_TILE) s, val)
        else
          (with_board (store (board s) r c_idx val) s, u8 (val + 1))) st)
      (s, 1) in
  let s := with_empty_row (GRID_SIZE - 1) s in
  with_empty_col (GRID_SIZE - 1) s.

(** One pass through the body of the [for (i = 0; i < 6; i++)] loop of
    [win_animation]: all cells repainted in one palette, then 20 frames. *)
Definition flash_beat (i : Z) (s : state) : state :=
  let s := with_VBK_REG 1 s in
  let s :=
    for_loop 0 GRID_SIZE (λ gy s,
      for_loop 0 GRID_SIZE (λ gx s,
        let sx := u8 (GRID_X + gx * CELL_W) in
        let sy := u8 (GRID_Y + gy * CELL_H) in
        let pal := if negb (Z.land i 1 =? 0)
                   then get_tile_palette (cell (board s) gy gx) else 6 in
        fill_block sx sy pal s) s) s in
  let s := with_VBK_REG 0 s in
  for_loop 0 20 (λ f s, wait_vbl_done s) s.

(** Flash all tiles gold when the player wins. *)
Definition win_animation (s : state) : state := for_loop 0 6 flash_beat s.

(** ** Code that talks to the random source and the joypad

    GBDK's [initrand]/[rand] and [joypad] and the button masks of [gb.h] are
    not part of the repository; the program is modelled for an arbitrary
    generator, arbitrary masks and an arbitrary sequence of joypad samples. *)

Section Hardware.

Variable rng : Type.
Variable initrand : Z → rng.
Variable rand : rng → Z * rng.

Variables J_UP J_DOWN J_LEFT J_RIGHT J_A J_SELECT J_START : Z.
(** [joypad_at n] is what the [n]-th call of [joypad()] returns. *)
Variable joypad_at : nat → Z.

Definition joypad (s : state) : Z * state :=
  (u8 (joypad_at (polls s)), with_polls (S (polls s)) s).

(** *** shuffle_board *)

(** One iteration of the [for] loop; the loop carries the globals, the local
    [last_dir] and the generator. *)
Definition shuffle_body (i : Z) (st : state * Z * rng) : state * Z * rng :=
  let '(s, last_dir, g) := st in
  let '(v, g) := rand g in
  let dir := Z.land (u8 v) 3 in
  if Z.lxor dir last_dir =? 1 then (s, last_dir, g)
  else if dir =? 0 then
    if empty_row s >? 0 then
      let s := with_board (store (board s) (empty_row s) (empty_col s)
                 (cell (board s) (empty_row s - 1) (empty_col s))) s in
      let s := with_board (store (board s) (empty_row s - 1) (empty_col s)
                 EMPTY_TILE) s in
      let s := with_empty_row (u8 (empty_row s - 1)) s in
      (s, dir, g)
    else (s, last_dir, g)
  else if dir =? 1 then
    if empty_row s <? GRID_SIZE - 1 then
      let s := with_board (store (board s) (empty_row s) (empty_col s)
                 (cell (board s) (empty_row s + 1) (empty_col s))) s in
      let s := with_board (store (board s) (empty_row s + 1) (empty_col s)
                 EMPTY_TILE) s in
      let s := with_empty_row (u8 (empty_row s + 1)) s in
      (s, dir, g)
    else (s, last_dir, g)
  else if dir =? 2 then
    if empty_col s >? 0 then
      let s := with_board (store (board s) (empty_row s) (empty_col s)
                 (cell (board s) (empty_row s) (empty_col s - 1))) s in
      let s := with_board (store (board s) (empty_row s) (empty_col s - 1)
                 EMPTY_TILE) s in
      let s := with_empty_col (u8 (empty_col s - 1)) s in
      (s, dir, g)
    else (s, last_dir, g)
  else if dir =? 3 then
    if empty_col s <? GRID_SIZE - 1 then
      let s := with_board (store (board s) (empty_row s) (empty_col s)
                 (cell (board s) (empty_row s) (empty_col s + 1))) s in
      let s := with_board (store (board s) (empty_row s) (empty_col s + 1)
                 EMPTY_TILE) s in
      let s := with_empty_col (u8 (empty_col s + 1)) s in
      (s, dir, g)
    else (s, last_dir, g)
  else (s, last_dir, g).

(** The loop state when the [for] loop is entered. *)
Definition shuffle_entry (s : state) : state * Z * rng :=
  (s, 255, initrand (seed_counter s)).

(** The loop state after the first [n] iterations. *)
Definition shuffle_steps (n : Z) (s : state) : state * Z * rng :=
  for_loop 0 n shuffle_body (shuffle_entry s).

Definition shuffle_board (s : state) : state :=
  let '(s', _, _) := shuffle_steps 200 s in s'.

(** *** main: one play session after another *)

(** A ghost trace of the controller: each call of [try_move] with its
    arguments, each assignment [game_won = 1], and each session set-up. *)
Inductive event : Type :=
  | CallTryMove (r c : Z)
  | SetWon
  | NewSession.

(** The statements from [DISPLAY_OFF] to [DISPLAY_ON] at the top of the
    outer [while (1)]. *)
Definition new_session (s : state) : state :=
  let s := with_move_count 0 s in
  let s := with_game_won 0 s in
  let s := with_cursor_row 0 s in
  let s := with_cursor_col 0 s in
  let s := with_input_cooldown 0 s in
  let s := init_board s in
  let s := shuffle_board s in
  let s := for_loop 0 18 (λ cy s,
             for_loop 0 20 (λ cx s,
               let s := set_bkg_tile_xy cx cy T_BLANK s in
               let s := with_VBK_REG 1 s in
               let s := set_bkg_tile_xy cx cy 0 s in
               with_VBK_REG 0 s) s) s in
  let s := draw_border s in
  let s := draw_board s in
  let s := draw_hud s in
  draw_cursor (cursor_col s) (cursor_row s) 1 s.

(** The body of [if (keys & J_A)] and, statement for statement, of
    [if (keys & J_SELECT)]. *)
Definition slide_selected (s : state) : state * list event :=
  let '(s, evs) :=
    if negb (cell (board s) (cursor_row s) (cursor_col s) =? EMPTY_TILE) then
      let '(moved, s') := try_move (cursor_row s) (cursor_col s) s in
      let call := CallTryMove (cursor_row s) (cursor_col s) in
      if negb (moved =? 0) then
        let s' := draw_cursor (cursor_col s') (cursor_row s') 1 s' in
        if negb (check_win s' =? 0) then (with_game_won 1 s', [call; SetWon])
        else (s', [call])
      else (s', [call])
    else (s, []) in
  (with_input_cooldown INPUT_DELAY s, evs).

(** The body of [if (keys & (J_UP | J_DOWN | J_LEFT | J_RIGHT))]. *)
Definition move_cursor (keys : Z) (s : state) : state :=
  let s := draw_cursor (cursor_col s) (cursor_row s) 0 s in
  let s := if negb (Z.land keys J_UP =? 0) && (cursor_row s >? 0)
           then with_cursor_row (u8 (cursor_row s - 1)) s else s in
  let s := if negb (Z.land keys J_DOWN =? 0) && (cursor_row s <? GRID_SIZE - 1)
           then with_cursor_row (u8 (cursor_row s + 1)) s else s in
  let s := if negb (Z.land keys J_LEFT =? 0) && (cursor_col s >? 0)
           then with_cursor_col (u8 (cursor_col s - 1)) s else s in
  let s := if negb (Z.land keys J_RIGHT =? 0) && (cursor_col s <? GRID_SIZE - 1)
           then with_cursor_col (u8 (cursor_col s + 1)) s else s in
  let s := draw_cursor (cursor_col s) (cursor_row s) 1 s in
  with_input_cooldown INPUT_DELAY s.

(** One pass through the body of [while (!game_won)]. *)
Definition game_iteration (s : state) : state * list event :=
  let s := wait_vbl_done s in
  if input_cooldown s >? 0 then
    (with_input_cooldown (u8 (input_cooldown s - 1)) s, [])
  else
    let '(keys, s) := joypad s in
    let s :=
      if negb (Z.land keys
                 (Z.lor (Z.lor (Z.lor J_UP J_DOWN) J_LEFT) J_RIGHT) =? 0)
      then move_cursor keys s else s in
    let '(s, evs_a) :=
      if negb (Z.land keys J_A =? 0) then slide_selected s else (s, []) in
    let '(s, evs_select) :=
      if negb (Z.land keys J_SELECT =? 0) then slide_selected s else (s, []) in
    (s, evs_a ++ evs_select).

(** Where [main] is between two loop iterations: in the game loop, in the
    loop that waits for START after a win, or in the loop that waits for
    START to be released. *)
Inductive pc : Type := GameLoop | WaitStart | WaitRelease.

(** One loop iteration of [main], together with the straight-line code that
    runs when the loop is left. *)
Definition main_step (c : pc * state) : pc * state * list event :=
  let '(p, s) := c in
  match p with
  | GameLoop =>
      if game_won s =? 0 then
        let '(s, evs) := game_iteration s in (GameLoop, s, evs)
      else (WaitStart, win_animation s, [])
  | WaitStart =>
      let s := wait_vbl_done s in
      let '(keys, s) := joypad s in
      if negb (Z.land keys J_START =? 0) then (WaitRelease, s, [])
      else (WaitStart, s, [])
  | WaitRelease =>
      let '(keys, s) := joypad s in
      if negb (Z.land keys J_START =? 0) then (WaitRelease, wait_vbl_done s, [])
      else (GameLoop, new_session s, [NewSession])
  end.

(** [main] from the first session on, for [fuel] loop iterations: the state
    reached and the controller's trace, oldest first.  The title screen, which
    only fills [seed_counter], and the LCD on/off switches are left out; the
    model starts at the outer [while (1)] with an arbitrary state. *)
Fixpoint main_run (fuel : nat) (c : pc * state) : pc * state * list event :=
  match fuel with
  | O => (c, [])
  | S fuel' =>
      let '(c', evs) := main_step c in
      let '(c'', evs') := main_run fuel' c' in
      (c'', evs ++ evs')
  end.

Definition main (fuel : nat) (s : state) : pc * state * list event :=
  let '(c, evs) := main_run fuel (GameLoop, new_session s) in
  (c, NewSession :: evs).

(** * Vocabulary of the specification *)

(** [board] is a 4x4 array. *)
Definition board_shape (b : list (list Z)) : Prop :=
  length b = 4%nat ∧ Forall (λ row, length row = 4%nat) b.

(** The sixteen cells in row-major order. *)
Definition cells (s : state) : list Z := concat (board s).

(** The cells hold each identifier 0..15 exactly once, the cached empty
    position lies in the grid and the board has 0 there. *)
Record inv (s : state) : Prop := Inv {
  inv_shape : board_shape (board s);
  inv_perm : cells s ≡ₚ seqZ 0 TOTAL_TILES;
  inv_row : 0 ≤ empty_row s < GRID_SIZE;
  inv_col : 0 ≤ empty_col s < GRID_SIZE;
  inv_empty : cell (board s) (empty_row s) (empty_col s) = EMPTY_TILE
}.

Definition solved_board : list (list Z) :=
  [[1; 2; 3; 4]; [5; 6; 7; 8]; [9; 10; 11; 12]; [13; 14; 15; 0]].

(** The board part of one slide: the tile at [(tr, tc)] goes to [(er, ec)]
    and [(tr, tc)] becomes empty (the two assignments that [try_move] and
    the four cases of [shuffle_board] all perform). *)
Definition slide (b : list (list Z)) (er ec tr tc : Z) : list (list Z) :=
  store (store b er ec (cell b tr tc)) tr tc EMPTY_TILE.

(** Manhattan distance between two grid positions. *)
Definition manhattan (r1 c1 r2 c2 : Z) : Z := Z.abs (r1 - r2) + Z.abs (c1 - c2).

(** Case analysis on a coordinate known to lie inside the grid. *)
Ltac grid_split H :=
  match type of H with
  | _ ≤ ?z < _ =>
      let Hz := fresh "Hz" in
      assert (Hz : z = 0 ∨ z = 1 ∨ z = 2 ∨ z = 3)
        by (unfold GRID_SIZE in H; lia);
      clear H; destruct Hz as [Hz | [Hz | [Hz | Hz]]]; subst
  end.

Ltac open_row row H :=
  do 4 (destruct row as [| ? row]; [discriminate H |]);
  destruct row; [clear H | discriminate H].

Ltac open_board b H :=
  let Hl := fresh "Hl" in
  let Hr := fresh "Hr" in
  destruct H as [Hl Hr];
  do 4 (destruct b as [| ? b]; [discriminate Hl |]);
  destruct b; [clear Hl | discriminate Hl];
  repeat match goal with
         | Hf : Forall _ (_ :: _) |- _ =>
             let H1 := fresh "Hrow" in
             apply Forall_cons in Hf; destruct Hf as [H1 Hf]
         | Hf : Forall _ [] |- _ => clear Hf
         end;
  repeat match goal with
         | Hw : length ?row = 4%nat |- _ => open_row row Hw
         end.

(** Position of a cell in the row-major list. *)
Definition flat (r c : Z) : nat := Z.to_nat (GRID_SIZE * r + c).

(** Everything in the state that is not the display. *)
Definition logic (s : state) :=
  (board s, empty_row s, empty_col s, cursor_row s, cursor_col s,
   move_count s, game_won s, input_cooldown s, seed_counter s,
   frame s, polls s).

(** The adjacency test of [try_move], as the source computes it. *)
Definition adjacency_test (er ec from_r from_c : Z) : bool :=
  let dr := i8 (i8 er - i8 from_r) in
  let dc := i8 (i8 ec - i8 from_c) in
  ((dr =? 0) && ((dc =? 1) || (dc =? -1))) ||
  ((dc =? 0) && ((dr =? 1) || (dr =? -1))).

(** The state after a successful [try_move], before anything is drawn. *)
Definition moved (from_r from_c : Z) (s : state) : state :=
  with_empty_col from_c (with_empty_row from_r
    (with_board (slide (board s) (empty_row s) (empty_col s) from_r from_c) s)).

(** The puzzle proper: the board and the cached empty position. *)
Definition puzzle (s : state) : list (list Z) * Z * Z :=
  (board s, empty_row s, empty_col s).

(** The cell from which direction [dir] pulls a tile into the empty cell. *)
Definition dir_source (dir er ec : Z) : Z * Z :=
  if dir =? 0 then (er - 1, ec)
  else if dir =? 1 then (er + 1, ec)
  else if dir =? 2 then (er, ec - 1)
  else (er, ec + 1).

(** The boundary test that guards direction [dir]. *)
Definition dir_inside (dir er ec : Z) : bool :=
  if dir =? 0 then er >? 0
  else if dir =? 1 then er <? GRID_SIZE - 1
  else if dir =? 2 then ec >? 0
  else ec <? GRID_SIZE - 1.

(** The direction drawn by the iteration that starts with generator [g]. *)
Definition drawn (g : rng) : Z := Z.land (u8 (rand g).1) 3.

(** [(r, c)] is a cell of the grid. *)
Definition in_grid (r c : Z) : bool :=
  (0 <=? r) && (r <? GRID_SIZE) && (0 <=? c) && (c <? GRID_SIZE).

(** A legal slide in [s]: the cell is in the grid and next to the empty
    cell. *)
Definition legal_slide (r c : Z) (s : state) : bool :=
  in_grid r c && (manhattan (empty_row s) (empty_col s) r c =? 1).

(** A sequence of legal slides: [try_move] at each listed cell, each of them
    a grid cell next to the empty cell of the moment, every call returning 1.
    [None] as soon as a step is not a legal slide or [try_move] refuses. *)
Fixpoint replay (path : list (Z * Z)) (s : state) : option state :=
  match path with
  | [] => Some s
  | (r, c) :: rest =>
      if legal_slide r c s && ((try_move r c s).1 =? 1)
      then replay rest (try_move r c s).2 else None
  end.

(** One comparison of the scan: read the cell, compare, and advance. *)
Ltac scan_step :=
  match goal with
  | |- context [cell ?b ?r ?c] =>
      let v := eval vm_compute in (cell b r c) in
      change (cell b r c) with v
  | |- context [u8 (?a + 1)] =>
      let v := eval vm_compute in (u8 (a + 1)) in
      change (u8 (a + 1)) with v
  | |- context [negb (?a =? ?b)] =>
      destruct (Z.eqb_spec a b); cbn [negb]; cbv beta iota
  end.

(** The board with the contents of two cells exchanged. *)
Definition swap_cells (b : list (list Z)) (r1 c1 r2 c2 : Z) : list (list Z) :=
  store (store b r1 c1 (cell b r2 c2)) r2 c2 (cell b r1 c1).

(** The way the empty cell slides. *)
Inductive way : Type := EmptyUp | EmptyDown | EmptyLeft | EmptyRight.

(** The number that stands for a way in [shuffle_board]: case 0 pulls the
    tile above into the empty cell, so the empty cell goes up, and so on. *)
Definition way_code (w : way) : Z :=
  match w with EmptyUp => 0 | EmptyDown => 1 | EmptyLeft => 2 | EmptyRight => 3 end.

Definition reverses (a b : way) : bool :=
  match a, b with
  | EmptyUp, EmptyDown | EmptyDown, EmptyUp
  | EmptyLeft, EmptyRight | EmptyRight, EmptyLeft => true
  | _, _ => false
  end.

(** The way the empty cell went from [s] to [s'], if it went one step. *)
Definition displacement (s s' : state) : option way :=
  if (empty_row s' =? empty_row s - 1) && (empty_col s' =? empty_col s) then Some EmptyUp
  else if (empty_row s' =? empty_row s + 1) && (empty_col s' =? empty_col s) then Some EmptyDown
  else if (empty_row s' =? empty_row s) && (empty_col s' =? empty_col s - 1) then Some EmptyLeft
  else if (empty_row s' =? empty_row s) && (empty_col s' =? empty_col s + 1) then Some EmptyRight
  else None.

(** The accepted moves among the first [n] iterations of the shuffle loop,
    oldest first: the iterations that moved the empty cell. *)
Fixpoint accepted (n : nat) (s : state) : list way :=
  match n with
  | O => []
  | S k =>
      accepted k s ++
      match displacement (shuffle_steps (Z.of_nat k) s).1.1
                         (shuffle_steps (Z.of_nat (S k)) s).1.1 with
      | Some w => [w]
      | None => []
      end
  end.

(** No two neighbours in the list are opposite ways. *)
Definition no_reversal (moves : list way) : Prop :=
  ∀ k a b, moves !! k = Some a → moves !! S k = Some b → reverses a b = false.

(** The tile-map bytes of the 3x3 block of grid cell [(gx, gy)], row by row. *)
Definition block_tiles (s : state) (gx gy : Z) : list (list (option Z)) :=
  (λ dy, (λ dx, tile_at s (GRID_X + gx * CELL_W + dx) (GRID_Y + gy * CELL_H + dy))
           <$> [0; 1; 2]) <$> [0; 1; 2].

(** The attribute bytes of the same block. *)
Definition block_attrs (s : state) (gx gy : Z) : list (list (option Z)) :=
  (λ dy, (λ dx, attr_at s (GRID_X + gx * CELL_W + dx) (GRID_Y + gy * CELL_H + dy))
           <$> [0; 1; 2]) <$> [0; 1; 2].

(** The three tiles of the move counter in the HUD row. *)
Definition hud_tiles (s : state) : list (option Z) :=
  (λ dx, tile_at s (GRID_X + 1 + dx) (GRID_Y + GRID_SIZE * CELL_H + 2)) <$> [0; 1; 2].

(** The glyph tile [put_char] uses for a decimal digit. *)
Definition digit_tile (d : Z) : Z :=
  if d =? 0 then T_NUM10_L + 1 else T_NUM_START + d - 1.

(** The digit a glyph tile stands for. *)
Definition tile_digit (t : Z) : option Z :=
  if t =? T_NUM10_L + 1 then Some 0
  else if (T_NUM_START <=? t) && (t <=? T_NUM_START + 8) then Some (t - T_NUM_START + 1)
  else None.

(** The number a three-tile field displays when read as a right-aligned
    decimal number whose unused leading positions are blank: blanks, then
    digits without a leading zero.  [None] when the field is not of that
    form. *)
Definition field_value (field : list (option Z)) : option Z :=
  match field with
  | [Some t2; Some t1; Some t0] =>
      match tile_digit t0 with
      | None => None
      | Some d0 =>
          if (t2 =? T_BLANK) && (t1 =? T_BLANK) then Some d0
          else
            match tile_digit t1 with
            | None => None
            | Some d1 =>
                if t2 =? T_BLANK then
                  if d1 =? 0 then None else Some (10 * d1 + d0)
                else
                  match tile_digit t2 with
                  | None => None
                  | Some d2 =>
                      if d2 =? 0 then None else Some (100 * d2 + 10 * d1 + d0)
                  end
            end
      end
  | _ => None
  end.

(** The left-half glyph of the pair that shows a two-digit identifier. *)
Definition pair_left (v : Z) : Z := T_NUM10_L + (v - 10) * 2.

(** The state in which [main] starts: C zero-initialises the globals. *)
Definition power_on : state :=
  State [[0; 0; 0; 0]; [0; 0; 0; 0]; [0; 0; 0; 0]; [0; 0; 0; 0]]
        0 0 0 0 0 0 0 0 0 [] 0 0.

Definition frame_tiles (centre_row : list (option Z)) : list (list (option Z)) :=
  [[Some T_TILE_TL; Some T_TILE_T; Some T_TILE_TR];
   centre_row;
   [Some T_TILE_BL; Some T_TILE_B; Some T_TILE_BR]].

(** The board of the solved puzzle with 10 in the top-left corner, used to
    look at a two-digit cell. *)
Definition ten_in_corner : state :=
  with_board [[10; 2; 3; 4]; [5; 6; 7; 8]; [9; 1; 11; 12]; [13; 14; 15; 0]] power_on.

(** The writes a routine adds to the log when started in [s]. *)
Definition painted (f : state → state) (s : state) : list write :=
  bkg_writes (f (with_bkg_writes [] s)).

(** The write lands in the 3x3 block of grid cell [(gx, gy)]. *)
Definition in_block (gx gy : Z) (w : write) : bool :=
  (GRID_X + gx * CELL_W <=? w_x w) && (w_x w <? GRID_X + gx * CELL_W + CELL_W) &&
  (GRID_Y + gy * CELL_H <=? w_y w) && (w_y w <? GRID_Y + gy * CELL_H + CELL_H).

(** The write lands in the HUD row. *)
Definition in_hud_row (w : write) : bool :=
  w_y w =? GRID_Y + GRID_SIZE * CELL_H + 2.

Definition writes_at (bank x y : Z) (new : list write) : bool :=
  existsb (λ w, (w_bank w =? bank) && (w_x w =? x) && (w_y w =? y)) new.

(** Each of the nine positions of the block of cell [(gx, gy)] is written on
    the tile map and on the attribute map. *)
Definition repainted (gx gy : Z) (new : list write) : bool :=
  forallb (λ dy,
    forallb (λ dx,
      writes_at 0 (GRID_X + gx * CELL_W + dx) (GRID_Y + gy * CELL_H + dy) new &&
      writes_at 1 (GRID_X + gx * CELL_W + dx) (GRID_Y + gy * CELL_H + dy) new)
      [0; 1; 2]) [0; 1; 2].

(** Each of the three counter positions of the HUD row is written on the
    tile map. *)
Definition hud_digits_written (new : list write) : bool :=
  forallb (λ dx, writes_at 0 (GRID_X + 1 + dx) (GRID_Y + GRID_SIZE * CELL_H + 2) new)
    [0; 1; 2].

(** Each of the eight positions of the HUD band is written on the attribute
    map. *)
Definition hud_band_written (new : list write) : bool :=
  forallb (λ dx, writes_at 1 (GRID_X + dx) (GRID_Y + GRID_SIZE * CELL_H + 2) new)
    [0; 1; 2; 3; 4; 5; 6; 7].

(** The HUD row is repainted: the counter on the tile map and the palette of
    its band on the attribute map. *)
Definition hud_repainted (new : list write) : bool :=
  hud_digits_written new && hud_band_written new.

(** The attribute loop of [draw_hud]. *)
Definition hud_band (s : state) : state :=
  for_loop GRID_X (GRID_X + 8)
    (λ i s, set_bkg_tile_xy i (u8 (GRID_Y + GRID_SIZE * CELL_H + 2)) 7 s)
    (with_VBK_REG 1 s).

(** A 3x3 block showing the same byte everywhere. *)
Definition uniform_block (v : Z) : list (list (option Z)) :=
  [[Some v; Some v; Some v]; [Some v; Some v; Some v]; [Some v; Some v; Some v]].

(** The palette of beat [i]: gold on even beats, the cell's own band on odd
    beats. *)
Definition beat_palette (i tile_num : Z) : Z :=
  if Z.even i then 6 else get_tile_palette tile_num.

(** [s'] has the log of [s] with attribute-map writes added and nothing
    else. *)
Definition attr_only (s s' : state) : Prop :=
  ∃ new, bkg_writes s' = new ++ bkg_writes s ∧
         forallb (λ w, w_bank w =? 1) new = true.

(** Reading the controller's trace from left to right with a flag that
    [SetWon] raises and [NewSession] clears: no [CallTryMove] occurs while
    the flag is up. *)
Fixpoint quiet_after_win (won : bool) (evs : list event) : bool :=
  match evs with
  | [] => true
  | CallTryMove _ _ :: rest => negb won && quiet_after_win won rest
  | SetWon :: rest => quiet_after_win true rest
  | NewSession :: rest => quiet_after_win false rest
  end.

(** The flag at the end of the trace. *)
Fixpoint flag_after (won : bool) (evs : list event) : bool :=
  match evs with
  | [] => won
  | CallTryMove _ _ :: rest => flag_after won rest
  | SetWon :: rest => flag_after true rest
  | NewSession :: rest => flag_after false rest
  end.

(** What the controller relies on: the board, the cursor and the won flag. *)
Definition core (s : state) : list (list Z) * Z * Z * Z :=
  (board s, cursor_row s, cursor_col s, game_won s).

(** The four [if] statements of the cursor movement, one by one. *)
Definition nudge_up (keys : Z) (s : state) : state :=
  if negb (Z.land keys J_UP =? 0) && (cursor_row s >? 0)
  then with_cursor_row (u8 (cursor_row s - 1)) s else s.
Definition nudge_down (keys : Z) (s : state) : state :=
  if negb (Z.land keys J_DOWN =? 0) && (cursor_row s <? GRID_SIZE - 1)
  then with_cursor_row (u8 (cursor_row s + 1)) s else s.
Definition nudge_left (keys : Z) (s : state) : state :=
  if negb (Z.land keys J_LEFT =? 0) && (cursor_col s >? 0)
  then with_cursor_col (u8 (cursor_col s - 1)) s else s.
Definition nudge_right (keys : Z) (s : state) : state :=
  if negb (Z.land keys J_RIGHT =? 0) && (cursor_col s <? GRID_SIZE - 1)
  then with_cursor_col (u8 (cursor_col s + 1)) s else s.
Definition show_cursor (s : state) : state :=
  draw_cursor (cursor_col s) (cursor_row s) 1 s.

(** What the cursor movement keeps: board, won flag, and a cursor inside
    the grid. *)
Definition cursor_kept (s u : state) : Prop :=
  board u = board s ∧ game_won u = game_won s ∧
  0 ≤ cursor_row u < GRID_SIZE ∧ 0 ≤ cursor_col u < GRID_SIZE.

(** The loop of [main] that clears the screen. *)
Definition clear_screen (s : state) : state :=
  for_loop 0 18 (λ cy s,
    for_loop 0 20 (λ cx s,
      let s := set_bkg_tile_xy cx cy T_BLANK s in
      let s := with_VBK_REG 1 s in
      let s := set_bkg_tile_xy cx cy 0 s in
      with_VBK_REG 0 s) s) s.

(** The session variables that [main] resets before [init_board]. *)
Definition reset_session (s : state) : state :=
  with_input_cooldown 0 (with_cursor_col 0 (with_cursor_row 0
    (with_game_won 0 (with_move_count 0 s)))).

(** What holds between two loop iterations of [main]: the board is a 4x4
    array, the cursor is in the grid, and in the game loop the trace flag is
    up only if [game_won] is set. *)
Definition main_ok (won : bool) (c : pc * state) : Prop :=
  board_shape (board c.2) ∧
  0 ≤ cursor_row c.2 < GRID_SIZE ∧ 0 ≤ cursor_col c.2 < GRID_SIZE ∧
  (c.1 = GameLoop → game_won c.2 = 0 → won = false).

(** A generator for examples: it counts up from the seed. *)
Definition counting_initrand (seed : Z) : nat := Z.to_nat seed.
Definition counting_rand (g : nat) : Z * nat := (Z.of_nat g, S g).

(** A joypad on which every button is held all the time. *)
Definition all_buttons_held (n : nat) : Z := 255.

(** The counter at which the HUD field overflows. *)
Definition hud_at_1000 : state := with_move_count 1000 power_on.

(** The solved board with the move counter at the largest [uint16_t]. *)
Definition counter_at_max : state := with_move_count 65535 (init_board power_on).

(** A generator that always draws direction 0: the shuffle then pulls the
    three tiles of the last column down, one after the other. *)
Definition upward_initrand (seed : Z) : unit := tt.
Definition upward_rand (g : unit) : Z * unit := (0, tt).

(** A player who solves that board: RIGHT+DOWN, RIGHT, RIGHT+A, DOWN+A,
    DOWN+A+SELECT, then START and its release; GBDK's masks are RIGHT 1,
    DOWN 8, A 16, SELECT 64, START 128. *)
Definition winning_pad (n : nat) : Z := nth n [9; 1; 17; 24; 88; 128; 0] 0.

(** The trace of that game. *)
Definition winning_trace : list event :=
  [NewSession; CallTryMove 1 3; CallTryMove 2 3; CallTryMove 3 3; SetWon; NewSession].

(** ** Further vocabulary *)

(** Everything in the state that is not the puzzle. *)
Definition outside_puzzle (s : state) :=
  (cursor_row s, cursor_col s, move_count s, game_won s, input_cooldown s,
   seed_counter s, VBK_REG s, bkg_writes s, frame s, polls s).

(** [keys & mask] is not zero. *)
Definition pressed (keys mask : Z) : bool := negb (Z.land keys mask =? 0).

(** The four direction masks together, as [main] combines them. *)
Definition J_DIRECTIONS : Z := Z.lor (Z.lor (Z.lor J_UP J_DOWN) J_LEFT) J_RIGHT.

(** The variables of the game proper: everything but the display, the frame
    count and the poll count. *)
Definition game_vars (s : state) :=
  (board s, empty_row s, empty_col s, cursor_row s, cursor_col s,
   move_count s, game_won s, input_cooldown s, seed_counter s).

(** What moving the cursor has no business with. *)
Definition beside_cursor (s : state) :=
  (board s, empty_row s, empty_col s, move_count s, game_won s, seed_counter s).

(** Where one coordinate of the cursor goes when the button towards 0
    ([back]: UP or LEFT) and the button away from it ([forth]: DOWN or RIGHT)
    are held. *)
Definition cursor_target (back forth : bool) (v : Z) : Z :=
  if back then (if forth then (if v =? 0 then 1 else v) else Z.max 0 (v - 1))
  else if forth then Z.min (GRID_SIZE - 1) (v + 1) else v.

(** The variables a tick of the game loop can change by sliding. *)
Definition frame_and_polls (s : state) : nat * nat := (frame s, polls s).

(** What a press of A or SELECT ([p]: the button is down) makes of the game
    variables of [s]: the tile under the cursor slides if it is next to the
    empty cell, the counter counts the slide, and the won flag is raised if
    the slide solved the board. *)
Definition slide_effect (p : bool) (s t : state) : Prop :=
  cursor_row t = cursor_row s ∧ cursor_col t = cursor_col s ∧
  if p && adjacency_test (empty_row s) (empty_col s) (cursor_row s) (cursor_col s)
  then board t = slide (board s) (empty_row s) (empty_col s) (cursor_row s) (cursor_col s) ∧
       empty_row t = cursor_row s ∧ empty_col t = cursor_col s ∧
       move_count t = u16 (move_count s + 1) ∧
       game_won t = (if bool_decide (board t = solved_board) then 1 else game_won s)
  else board t = board s ∧ empty_row t = empty_row s ∧ empty_col t = empty_col s ∧
       move_count t = move_count s ∧ game_won t = game_won s.

(** What holds of [main] between any two loop iterations: the puzzle
    invariant, a cursor inside the grid, a won flag that is up only on the
    solved board, and the two waiting loops entered only with the flag up. *)
Definition main_inv (c : pc * state) : Prop :=
  inv c.2 ∧
  0 ≤ cursor_row c.2 < GRID_SIZE ∧ 0 ≤ cursor_col c.2 < GRID_SIZE ∧
  (game_won c.2 = 0 ∨ (game_won c.2 = 1 ∧ board c.2 = solved_board)) ∧
  (c.1 ≠ GameLoop → game_won c.2 = 1).

(** The picture [draw_cell] paints for the identifier [v]: the dark filler
    for the empty cell, a frame around one glyph for 1..9, and for 10..15 a
    frame whose middle row holds the left border and the two glyph halves. *)
Definition cell_picture (v : Z) : list (list (option Z)) :=
  if v =? 0 then uniform_block T_EMPTY_CELL
  else if v <=? 9
       then frame_tiles [Some T_TILE_L; Some (T_NUM_START + v - 1); Some T_TILE_R]
       else frame_tiles [Some T_TILE_L; Some (pair_left v); Some (pair_left v + 1)].

(** Screen position [(x, y)] lies in the 3x3 block of grid cell [(gx, gy)]. *)
Definition in_cell (gx gy x y : Z) : Prop :=
  GRID_X + gx * CELL_W ≤ x < GRID_X + gx * CELL_W + CELL_W ∧
  GRID_Y + gy * CELL_H ≤ y < GRID_Y + gy * CELL_H + CELL_H.

(** No write of the list lands on [(x, y)], on either layer. *)
Definition misses (x y : Z) (new : list write) : bool :=
  forallb (λ w, negb ((w_x w =? x) && (w_y w =? y))) new.

(** The display of [t] differs from that of [s] at most at the positions in
    [area]. *)
Definition same_outside (area : Z → Z → Prop) (s t : state) : Prop :=
  ∀ bank x y, ¬ area x y →
    shown bank x y (bkg_writes t) = shown bank x y (bkg_writes s).

(** The 12x12 square of the sixteen cell blocks. *)
Definition in_grid_area (x y : Z) : Prop :=
  GRID_X ≤ x < GRID_X + GRID_SIZE * CELL_W ∧ GRID_Y ≤ y < GRID_Y + GRID_SIZE * CELL_H.

(** The cells [(gx, gy)] in the order in which [draw_board] visits them. *)
Definition board_order : list (Z * Z) :=
  [(0, 0); (1, 0); (2, 0); (3, 0); (0, 1); (1, 1); (2, 1); (3, 1);
   (0, 2); (1, 2); (2, 2); (3, 2); (0, 3); (1, 3); (2, 3); (3, 3)].

Definition draw_cells (cs : list (Z * Z)) (s : state) : state :=
  foldl (λ acc p, draw_cell p.1 p.2 acc) s cs.

(** [(x, y)] is one of the four corners of the block of cell [(gx, gy)]. *)
Definition is_corner (gx gy x y : Z) : bool :=
  ((x =? GRID_X + gx * CELL_W) || (x =? GRID_X + gx * CELL_W + 2)) &&
  ((y =? GRID_Y + gy * CELL_H) || (y =? GRID_Y + gy * CELL_H + 2)).

(** The palette [draw_cursor] writes: gold to show the cursor, the cell's own
    palette to hide it. *)
Definition cursor_palette (show : Z) (s : state) (gx gy : Z) : Z :=
  if show =? 0 then get_tile_palette (cell (board s) gy gx) else 6.

(** The attribute block of a cell with palette [p] under the cursor. *)
Definition gilded_block (p : Z) : list (list (option Z)) :=
  [[Some 6; Some p; Some 6]; [Some p; Some p; Some p]; [Some 6; Some p; Some 6]].

(** [(x, y)] lies on the one-tile ring around the 12x12 square of the
    blocks. *)
Definition on_ring (x y : Z) : bool :=
  (((x =? GRID_X - 1) || (x =? GRID_X + GRID_SIZE * CELL_W)) &&
   (GRID_Y - 1 <=? y) && (y <=? GRID_Y + GRID_SIZE * CELL_H)) ||
  (((y =? GRID_Y - 1) || (y =? GRID_Y + GRID_SIZE * CELL_H)) &&
   (GRID_X - 1 <=? x) && (x <=? GRID_X + GRID_SIZE * CELL_W)).

(** The border tile that belongs at a position of the ring. *)
Definition border_tile (x y : Z) : Z :=
  if y =? GRID_Y - 1 then
    if x =? GRID_X - 1 then T_BORDER_TL
    else if x =? GRID_X + GRID_SIZE * CELL_W then T_BORDER_TR else T_BORDER_T
  else if y =? GRID_Y + GRID_SIZE * CELL_H then
    if x =? GRID_X - 1 then T_BORDER_BL
    else if x =? GRID_X + GRID_SIZE * CELL_W then T_BORDER_BR else T_BORDER_B
  else if x =? GRID_X - 1 then T_BORDER_L else T_BORDER_R.

(** The writes of [draw_border], newest first. *)
Definition border_writes : list write :=
  Eval vm_compute in painted draw_border power_on.

(** The HUD row. *)
Definition in_hud (x y : Z) : Prop := y = GRID_Y + GRID_SIZE * CELL_H + 2.

(** The three HUD tiles [put_number] leaves for the counter value [n]. *)
Definition hud_render (n : Z) : list (option Z) :=
  [Some (if (1 <=? u8 (n / 100)) && (u8 (n / 100) <=? 9)
         then digit_tile (u8 (n / 100)) else T_BLANK);
   Some (if (u8 (n / 100) =? 0) && (n / 10 mod 10 =? 0)
         then T_BLANK else digit_tile (n / 10 mod 10));
   Some (digit_tile (n mod 10))].

(** The block of cell [(gx, gy)] shows that cell of the board, with gold
    corners if [lit]. *)
Definition cell_shown (lit : bool) (s : state) (gx gy : Z) : Prop :=
  block_tiles s gx gy = cell_picture (cell (board s) gy gx) ∧
  block_attrs s gx gy =
    (if lit then gilded_block else uniform_block)
      (get_tile_palette (cell (board s) gy gx)).

(** Every block shows its cell, and the cell [cur], if any, is the one with
    gold corners. *)
Definition board_shown (cur : option (Z * Z)) (s : state) : Prop :=
  ∀ gx gy, 0 ≤ gx < GRID_SIZE → 0 ≤ gy < GRID_SIZE →
    cell_shown (bool_decide (cur = Some (gy, gx))) s gx gy.

(** The ring around the blocks shows the border. *)
Definition border_shown (s : state) : Prop :=
  ∀ x y, on_ring x y = true →
    tile_at s x y = Some (border_tile x y) ∧ attr_at s x y = Some 0.

(** The screen is in step with the game: the blocks show the board, the
    cursor cell and no other has gold corners, the HUD shows the move counter
    as [put_number] renders it, and the border is in place. *)
Definition screen_synced (s : state) : Prop :=
  board_shown (Some (cursor_row s, cursor_col s)) s ∧
  hud_tiles s = hud_render (move_count s) ∧
  border_shown s.

(** What holds whenever the game loop is about to run an iteration. *)
Definition playing (s : state) : Prop :=
  inv s ∧
  0 ≤ cursor_row s < GRID_SIZE ∧ 0 ≤ cursor_col s < GRID_SIZE ∧
  0 ≤ move_count s < 65536 ∧
  screen_synced s.

(** The variables on which [playing] depends. *)
Definition shown_vars (s : state) :=
  (bkg_writes s, board s, empty_row s, empty_col s, cursor_row s, cursor_col s,
   move_count s).

(** What holds of [main] between loop iterations as to the screen: the board
    is a 4x4 array, and in the game loop the screen is in step with the
    game. *)
Definition main_screen (c : pc * state) : Prop :=
  board_shape (board c.2) ∧ (c.1 = GameLoop → playing c.2).

(** ** title_screen *)

Definition with_seed_counter (v : Z) (s : state) : state :=
  State (board s) (empty_row s) (empty_col s) (cursor_row s) (cursor_col s)
        (move_count s) (game_won s) (input_cooldown s) v
        (VBK_REG s) (bkg_writes s) (frame s) (polls s).

(** The picture of the title screen: everything of [title_screen] before
    [seed_counter = 0] ([SHOW_BKG] only switches the layer on). *)
Definition title_picture (s : state) : state :=
  let s := for_loop 0 18 (λ y s,
             for_loop 0 20 (λ x s, set_bkg_tile_xy x y T_BLANK s) s) s in
  let s := with_VBK_REG 1 s in
  let s := for_loop 0 18 (λ y s,
             for_loop 0 20 (λ x s, set_bkg_tile_xy x y 7 s) s) s in
  let s := with_VBK_REG 0 s in
  let s := set_bkg_tile_xy 7 5 T_NUM_START s in
  let s := set_bkg_tile_xy 9 5 (T_NUM_START + 4) s in
  let s := set_bkg_tile_xy 7 7 T_TILE_TL s in
  let s := set_bkg_tile_xy 8 7 T_TILE_T s in
  let s := set_bkg_tile_xy 9 7 T_TILE_T s in
  let s := set_bkg_tile_xy 10 7 T_TILE_TR s in
  let s := set_bkg_tile_xy 7 8 T_TILE_L s in
  let s := set_bkg_tile_xy 8 8 (T_NUM_START + 0) s in
  let s := set_bkg_tile_xy 9 8 (T_NUM_START + 1) s in
  let s := set_bkg_tile_xy 10 8 T_TILE_R s in
  let s := set_bkg_tile_xy 7 9 T_TILE_L s in
  let s := set_bkg_tile_xy 8 9 (T_NUM_START + 2) s in
  let s := set_bkg_tile_xy 9 9 T_EMPTY_CELL s in
  let s := set_bkg_tile_xy 10 9 T_TILE_R s in
  let s := set_bkg_tile_xy 7 10 T_TILE_BL s in
  let s := set_bkg_tile_xy 8 10 T_TILE_B s in
  let s := set_bkg_tile_xy 9 10 T_TILE_B s in
  let s := set_bkg_tile_xy 10 10 T_TILE_BR s in
  let s := with_VBK_REG 1 s in
  let s := set_bkg_tile_xy 8 8 1 s in
  let s := set_bkg_tile_xy 9 8 2 s in
  let s := set_bkg_tile_xy 8 9 3 s in
  let s := set_bkg_tile_xy 9 9 5 s in
  with_VBK_REG 0 s.

(** [while (1) { wait_vbl_done(); seed_counter++; if (joypad() & J_START)
    break; }], for at most [fuel] iterations. *)
Fixpoint title_wait (fuel : nat) (s : state) : option state :=
  match fuel with
  | O => None
  | S fuel' =>
      let s := wait_vbl_done s in
      let s := with_seed_counter (u16 (seed_counter s + 1)) s in
      let '(keys, s) := joypad s in
      if negb (Z.land keys J_START =? 0) then Some s else title_wait fuel' s
  end.

(** [while (joypad() & J_START) { wait_vbl_done(); }], for at most [fuel]
    iterations. *)
Fixpoint title_release (fuel : nat) (s : state) : option state :=
  match fuel with
  | O => None
  | S fuel' =>
      let '(keys, s) := joypad s in
      if negb (Z.land keys J_START =? 0) then title_release fuel' (wait_vbl_done s)
      else Some s
  end.

(** [title_screen]; [None] when the fuel runs out in one of its loops. *)
Definition title_screen (fuel : nat) (s : state) : option state :=
  let s := title_picture s in
  let s := with_seed_counter 0 s in
  match title_wait fuel s with
  | None => None
  | Some s => title_release fuel s
  end.

(** Everything but the seed, the display and the two clocks. *)
Definition beside_title (s : state) :=
  (board s, empty_row s, empty_col s, cursor_row s, cursor_col s,
   move_count s, game_won s, input_cooldown s).

(** A joypad on which START is down at the third and fourth poll only. *)
Definition start_tapped (n : nat) : Z :=
  if (n =? 2)%nat || (n =? 3)%nat then 128 else 0.

(** * Verification *)

(** ** Integers *)

Lemma u8_small z : 0 ≤ z < 256 → u8 z = z.
Proof. intros. unfold u8. apply Z.mod_small. lia. Qed.

Lemma u16_small z : 0 ≤ z < 65536 → u16 z = z.
Proof. intros. unfold u16. apply Z.mod_small. lia. Qed.

Lemma i8_small z : -128 ≤ z < 128 → i8 z = z.
Proof. intros. unfold i8. rewrite Z.mod_small by lia. lia. Qed.

(** ** The board as an explicit 4x4 matrix *)

Lemma shape_explicit b :
  board_shape b →
  ∃ r0 r1 r2 r3, b = [r0; r1; r2; r3] ∧
    length r0 = 4%nat ∧ length r1 = 4%nat ∧ length r2 = 4%nat ∧ length r3 = 4%nat.
Proof.
  intros [Hl Hr].
  do 4 (destruct b as [| ? b]; [discriminate Hl |]).
  destruct b; [| discriminate Hl].
  repeat (apply Forall_cons in Hr; destruct Hr as [? Hr]).
  eauto 10.
Qed.

Lemma store_shape b r c v : board_shape b → board_shape (store b r c v).
Proof.
  intros [Hl Hr]. split.
  - unfold store. by rewrite length_alter.
  - unfold store. apply Forall_alter; [done |].
    intros row Hrow. by rewrite length_insert.
Qed.

Lemma cell_store_same b r c v :
  board_shape b → 0 ≤ r < GRID_SIZE → 0 ≤ c < GRID_SIZE →
  cell (store b r c v) r c = v.
Proof.
  intros Hb Hr Hc. open_board b Hb.
  grid_split Hr; grid_split Hc; reflexivity.
Qed.

Lemma cell_store_other b r c v r' c' :
  board_shape b → 0 ≤ r < GRID_SIZE → 0 ≤ c < GRID_SIZE →
  0 ≤ r' < GRID_SIZE → 0 ≤ c' < GRID_SIZE →
  (r', c') ≠ (r, c) →
  cell (store b r c v) r' c' = cell b r' c'.
Proof.
  intros Hb Hr Hc Hr' Hc' Hne. open_board b Hb.
  grid_split Hr; grid_split Hc; grid_split Hr'; grid_split Hc';
    first [reflexivity | by destruct Hne].
Qed.

Lemma concat_store b r c v :
  board_shape b → 0 ≤ r < GRID_SIZE → 0 ≤ c < GRID_SIZE →
  concat (store b r c v) = <[flat r c := v]> (concat b).
Proof.
  intros Hb Hr Hc. open_board b Hb.
  grid_split Hr; grid_split Hc; reflexivity.
Qed.

Lemma concat_lookup b r c :
  board_shape b → 0 ≤ r < GRID_SIZE → 0 ≤ c < GRID_SIZE →
  concat b !! flat r c = Some (cell b r c).
Proof.
  intros Hb Hr Hc. open_board b Hb.
  grid_split Hr; grid_split Hc; reflexivity.
Qed.

Lemma flat_inj r c r' c' :
  0 ≤ r < GRID_SIZE → 0 ≤ c < GRID_SIZE →
  0 ≤ r' < GRID_SIZE → 0 ≤ c' < GRID_SIZE →
  flat r c = flat r' c' → (r, c) = (r', c').
Proof.
  unfold flat, GRID_SIZE. intros ? ? ? ? H.
  assert (r = r' ∧ c = c') as [-> ->] by lia. done.
Qed.

(** Overwriting position [j] with the element of position [i] and position
    [i] with the element that was at [j] permutes a list. *)
Lemma insert_head_perm {A} (l : list A) j x y :
  l !! j = Some y → y :: <[j := x]> l ≡ₚ x :: l.
Proof.
  revert j. induction l as [| a l IH]; intros [| j] Hj; simplify_eq/=.
  - apply Permutation_swap.
  - rewrite (Permutation_swap a y), (IH _ Hj). apply Permutation_swap.
Qed.

Lemma insert_swap_perm {A} (l : list A) i j x y :
  i ≠ j → l !! i = Some x → l !! j = Some y →
  <[j := x]> (<[i := y]> l) ≡ₚ l.
Proof.
  revert i j. induction l as [| a l IH]; intros [| i] [| j] Hne Hi Hj;
    simplify_eq/=.
  - by apply insert_head_perm.
  - by apply insert_head_perm.
  - f_equiv. apply IH; [congruence | done | done].
Qed.

(** A slide of a tile into the empty cell keeps the multiset of cells. *)
Lemma slide_perm b er ec tr tc :
  board_shape b →
  0 ≤ er < GRID_SIZE → 0 ≤ ec < GRID_SIZE →
  0 ≤ tr < GRID_SIZE → 0 ≤ tc < GRID_SIZE →
  (tr, tc) ≠ (er, ec) →
  cell b er ec = EMPTY_TILE →
  concat (slide b er ec tr tc) ≡ₚ concat b.
Proof.
  intros Hb Her Hec Htr Htc Hne He. unfold slide.
  rewrite concat_store by auto using store_shape.
  rewrite concat_store by auto.
  apply insert_swap_perm.
  - intros Heq. apply flat_inj in Heq; [congruence | done..].
  - rewrite <- He. by apply concat_lookup.
  - by apply concat_lookup.
Qed.

Lemma slide_shape b er ec tr tc :
  board_shape b → board_shape (slide b er ec tr tc).
Proof. intros. unfold slide. auto using store_shape. Qed.

Lemma slide_target b er ec tr tc :
  board_shape b → 0 ≤ tr < GRID_SIZE → 0 ≤ tc < GRID_SIZE →
  cell (slide b er ec tr tc) tr tc = EMPTY_TILE.
Proof. intros. unfold slide. apply cell_store_same; auto using store_shape. Qed.

Lemma slide_source b er ec tr tc :
  board_shape b →
  0 ≤ er < GRID_SIZE → 0 ≤ ec < GRID_SIZE →
  0 ≤ tr < GRID_SIZE → 0 ≤ tc < GRID_SIZE →
  (tr, tc) ≠ (er, ec) →
  cell (slide b er ec tr tc) er ec = cell b tr tc.
Proof.
  intros. unfold slide.
  rewrite cell_store_other by (auto using store_shape; congruence).
  by apply cell_store_same.
Qed.

Lemma slide_elsewhere b er ec tr tc r c :
  board_shape b →
  0 ≤ er < GRID_SIZE → 0 ≤ ec < GRID_SIZE →
  0 ≤ tr < GRID_SIZE → 0 ≤ tc < GRID_SIZE →
  0 ≤ r < GRID_SIZE → 0 ≤ c < GRID_SIZE →
  (r, c) ≠ (er, ec) → (r, c) ≠ (tr, tc) →
  cell (slide b er ec tr tc) r c = cell b r c.
Proof.
  intros. unfold slide.
  rewrite cell_store_other by auto using store_shape.
  by apply cell_store_other.
Qed.

(** Sliding a tile and sliding it back restores the board. *)
Lemma slide_back b er ec tr tc :
  board_shape b →
  0 ≤ er < GRID_SIZE → 0 ≤ ec < GRID_SIZE →
  0 ≤ tr < GRID_SIZE → 0 ≤ tc < GRID_SIZE →
  (tr, tc) ≠ (er, ec) →
  cell b er ec = EMPTY_TILE →
  slide (slide b er ec tr tc) tr tc er ec = b.
Proof.
  intros Hb Her Hec Htr Htc Hne He. open_board b Hb.
  grid_split Her; grid_split Hec; grid_split Htr; grid_split Htc;
    first [by destruct Hne | vm_compute in He; subst; reflexivity].
Qed.

(** ** Loops *)

Lemma for_loop_ind {T : Type} (P : T → Prop) lo hi (body : Z → T → T) s :
  P s → (∀ i t, lo ≤ i < hi → P t → P (body i t)) → P (for_loop lo hi body s).
Proof.
  intros Hs Hbody. unfold for_loop.
  assert (Hin : ∀ i, i ∈ seqZ lo (hi - lo) → lo ≤ i < hi).
  { intros i Hi. apply elem_of_seqZ in Hi. lia. }
  revert s Hs Hin. induction (seqZ lo (hi - lo)) as [| i l IH]; intros s Hs Hin.
  - done.
  - simpl. apply IH.
    + apply Hbody; [apply Hin; left | done].
    + intros j Hj. apply Hin. by right.
Qed.

(** One more iteration at the end of a loop that starts at 0. *)
Lemma for_loop_succ {T : Type} (n : nat) (body : Z → T → T) s :
  for_loop 0 (Z.of_nat (S n)) body s =
  body (Z.of_nat n) (for_loop 0 (Z.of_nat n) body s).
Proof.
  unfold for_loop. rewrite !Z.sub_0_r, seqZ_S, foldl_app. reflexivity.
Qed.

(** ** Drawing touches nothing but the display *)

Lemma logic_fields s t :
  logic s = logic t →
  board s = board t ∧ empty_row s = empty_row t ∧ empty_col s = empty_col t ∧
  cursor_row s = cursor_row t ∧ cursor_col s = cursor_col t ∧
  move_count s = move_count t ∧ game_won s = game_won t ∧
  input_cooldown s = input_cooldown t ∧ seed_counter s = seed_counter t ∧
  frame s = frame t ∧ polls s = polls t.
Proof. unfold logic. intros H. by simplify_eq. Qed.

Lemma logic_set_bkg_tile_xy x y t s : logic (set_bkg_tile_xy x y t s) = logic s.
Proof. reflexivity. Qed.

Lemma logic_with_VBK_REG v s : logic (with_VBK_REG v s) = logic s.
Proof. reflexivity. Qed.

Lemma logic_fill_block sx sy v s : logic (fill_block sx sy v s) = logic s.
Proof.
  unfold fill_block.
  apply (for_loop_ind (λ t, logic t = logic s)); [done |].
  intros r t _ Ht.
  apply (for_loop_ind (λ t, logic t = logic s)); [done |].
  intros c u _ Hu. by rewrite logic_set_bkg_tile_xy.
Qed.

Lemma logic_put_char x y c s : logic (put_char x y c s) = logic s.
Proof. reflexivity. Qed.

Lemma logic_put_number x y num s : logic (put_number x y num s) = logic s.
Proof. unfold put_number. by repeat case_match. Qed.

Lemma logic_draw_cell gx gy s : logic (draw_cell gx gy s) = logic s.
Proof.
  unfold draw_cell.
  repeat case_match;
    rewrite ?logic_set_bkg_tile_xy, ?logic_fill_block, ?logic_with_VBK_REG,
            ?logic_fill_block, ?logic_with_VBK_REG; reflexivity.
Qed.

Lemma logic_draw_hud s : logic (draw_hud s) = logic s.
Proof.
  unfold draw_hud. rewrite logic_put_number, logic_with_VBK_REG.
  apply (for_loop_ind (λ t, logic t = logic s)); [done |].
  intros i t _ Ht. by rewrite logic_set_bkg_tile_xy.
Qed.

Lemma logic_draw_cursor gx gy show s : logic (draw_cursor gx gy show s) = logic s.
Proof. unfold draw_cursor. by case_match. Qed.

(** ** try_move *)

Lemma adjacency_test_manhattan er ec r c :
  0 ≤ er < GRID_SIZE → 0 ≤ ec < GRID_SIZE →
  0 ≤ r < GRID_SIZE → 0 ≤ c < GRID_SIZE →
  adjacency_test er ec r c = true ↔ manhattan er ec r c = 1.
Proof.
  unfold GRID_SIZE, adjacency_test, manhattan. intros.
  rewrite !(i8_small er), !(i8_small ec), !(i8_small r), !(i8_small c) by lia.
  rewrite !i8_small by lia.
  rewrite orb_true_iff, !andb_true_iff, !orb_true_iff, !Z.eqb_eq. lia.
Qed.

Lemma try_move_unfold from_r from_c s :
  try_move from_r from_c s =
  if adjacency_test (empty_row s) (empty_col s) from_r from_c then
    (1, draw_hud
          (with_move_count (u16 (move_count s + 1))
             (draw_cell from_c from_r
                (draw_cell (empty_col s) (empty_row s) (moved from_r from_c s)))))
  else (0, s).
Proof.
  set (m := moved from_r from_c s).
  set (d := draw_cell (empty_col s) (empty_row s) m).
  transitivity
    (if adjacency_test (empty_row s) (empty_col s) from_r from_c then
       (1, draw_hud
             (with_move_count
                (u16 (move_count (draw_cell (empty_col d) (empty_row d) d) + 1))
                (draw_cell (empty_col d) (empty_row d) d)))
     else (0, s)); [reflexivity |].
  destruct (logic_fields _ _ (logic_draw_cell (empty_col s) (empty_row s) m))
    as (_ & Hr & Hc & _ & _ & Hm & _).
  fold d in Hr, Hc, Hm. rewrite Hr, Hc.
  destruct (logic_fields _ _ (logic_draw_cell (empty_col m) (empty_row m) d))
    as (_ & _ & _ & _ & _ & Hm' & _).
  rewrite Hm', Hm. reflexivity.
Qed.

Lemma try_move_logic from_r from_c s :
  adjacency_test (empty_row s) (empty_col s) from_r from_c = true →
  logic (try_move from_r from_c s).2 =
  logic (with_move_count (u16 (move_count s + 1)) (moved from_r from_c s)).
Proof.
  intros Hadj. rewrite try_move_unfold, Hadj.
  change ((1, ?x).2) with x.
  rewrite logic_draw_hud.
  pose proof (logic_draw_cell from_c from_r
                (draw_cell (empty_col s) (empty_row s) (moved from_r from_c s))) as H1.
  pose proof (logic_draw_cell (empty_col s) (empty_row s) (moved from_r from_c s)) as H2.
  apply logic_fields in H1. apply logic_fields in H2.
  unfold logic. cbn [with_move_count board empty_row empty_col cursor_row
    cursor_col move_count game_won input_cooldown seed_counter frame polls].
  destruct H1 as (-> & -> & -> & -> & -> & _ & -> & -> & -> & -> & ->).
  destruct H2 as (-> & -> & -> & -> & -> & _ & -> & -> & -> & -> & ->).
  reflexivity.
Qed.

(** C1, as amended.  With the permutation invariant and the empty cell
    cached, and a target inside the grid: [try_move] returns 1 exactly when
    the target is
    at Manhattan distance 1 from the empty cell and otherwise 0.  On 1 the
    tile of the target is in the old empty cell, the target holds 0, every
    other cell is as before, the cached empty position is the target and the
    move counter has been incremented once in its [uint16_t] type (so by
    exactly 1 below 65535, where it wraps to 0).  On 0 the state is left as
    it was. *)
Theorem try_move_adjacent_iff_and_effect (s : state) (r c : Z) :
  inv s → 0 ≤ r < GRID_SIZE → 0 ≤ c < GRID_SIZE →
  let ret := (try_move r c s).1 in
  let s' := (try_move r c s).2 in
  (ret = 1 ↔ manhattan (empty_row s) (empty_col s) r c = 1) ∧
  (ret = 1 ∨ ret = 0) ∧
  (ret = 1 →
     cell (board s') (empty_row s) (empty_col s) = cell (board s) r c ∧
     cell (board s') r c = 0 ∧
     (∀ r' c', 0 ≤ r' < GRID_SIZE → 0 ≤ c' < GRID_SIZE →
        (r', c') ≠ (empty_row s, empty_col s) → (r', c') ≠ (r, c) →
        cell (board s') r' c' = cell (board s) r' c') ∧
     empty_row s' = r ∧ empty_col s' = c ∧
     move_count s' = u16 (move_count s + 1) ∧
     (0 ≤ move_count s < 65535 → move_count s' = move_count s + 1)) ∧
  (ret = 0 →
     s' = s ∧ board s' = board s ∧ empty_row s' = empty_row s ∧
     empty_col s' = empty_col s ∧ move_count s' = move_count s).
Proof.
  intros Hinv Hr Hc ret s'. destruct Hinv as [Hb Hp Her Hec He].
  pose proof (adjacency_test_manhattan _ _ _ _ Her Hec Hr Hc) as Hadj.
  destruct (adjacency_test (empty_row s) (empty_col s) r c) eqn:Ht.
  - pose proof (try_move_logic r c s Ht) as Hl.
    apply logic_fields in Hl. fold s' in Hl.
    destruct Hl as (Hboard & Hrow & Hcol & _ & _ & Hmc & _).
    change (board s' = slide (board s) (empty_row s) (empty_col s) r c) in Hboard.
    change (empty_row s' = r) in Hrow. change (empty_col s' = c) in Hcol.
    change (move_count s' = u16 (move_count s + 1)) in Hmc.
    assert (Hret : ret = 1).
    { unfold ret. by rewrite try_move_unfold, Ht. }
    assert (Hne : (r, c) ≠ (empty_row s, empty_col s)).
    { intros Heq. simplify_eq. apply proj1 in Hadj. specialize (Hadj eq_refl).
      unfold manhattan in Hadj. lia. }
    split; [rewrite Hret; split; [intros _; by apply Hadj | done] |].
    split; [by left |]. split; [| by rewrite Hret].
    intros _. rewrite Hboard, Hrow, Hcol, Hmc.
    split; [by apply slide_source |].
    split; [by apply slide_target |].
    split; [intros; by apply slide_elsewhere |].
    repeat split. intros. apply u16_small. lia.
  - assert (Hs : try_move r c s = (0, s)).
    { by rewrite try_move_unfold, Ht. }
    unfold ret, s'. rewrite Hs. change ((0, s).1) with 0. change ((0, s).2) with s.
    split; [split; [done | intros H; apply Hadj in H; done] |].
    split; [by right |]. split; [done |]. done.
Qed.

(** C1 as stated fails: with the counter at 65535 (a [uint16_t] value) a
    slide of the tile next to the empty cell returns 1 and leaves the counter
    at 0, which is not an increment by 1. *)
Lemma move_counter_wraps_at_65535 :
  inv counter_at_max ∧ 0 ≤ 3 < GRID_SIZE ∧ 0 ≤ 2 < GRID_SIZE ∧
  manhattan (empty_row counter_at_max) (empty_col counter_at_max) 3 2 = 1 ∧
  (try_move 3 2 counter_at_max).1 = 1 ∧
  move_count counter_at_max = 65535 ∧
  move_count (try_move 3 2 counter_at_max).2 = 0 ∧
  move_count (try_move 3 2 counter_at_max).2 ≠ move_count counter_at_max + 1.
Proof.
  split.
  { split.
    - split; [reflexivity | repeat constructor].
    - apply (bool_decide_unpack _). vm_compute. exact I.
    - vm_compute. split; [discriminate | reflexivity].
    - vm_compute. split; [discriminate | reflexivity].
    - reflexivity. }
  vm_compute. repeat split; congruence.
Qed.

(** ** The invariant under the board mutations *)

Lemma inv_puzzle s t : puzzle s = puzzle t → inv s → inv t.
Proof.
  unfold puzzle. intros H [Hb Hp Hr Hc He]. simplify_eq.
  split; unfold cells in *; congruence.
Qed.

Lemma logic_puzzle s t : logic s = logic t → puzzle s = puzzle t.
Proof.
  intros H. apply logic_fields in H. destruct H as (Hb & Hr & Hc & _).
  unfold puzzle. by rewrite Hb, Hr, Hc.
Qed.

Lemma try_move_puzzle r c s :
  adjacency_test (empty_row s) (empty_col s) r c = true →
  puzzle (try_move r c s).2 = puzzle (moved r c s).
Proof.
  intros Ht. by rewrite (logic_puzzle _ _ (try_move_logic r c s Ht)).
Qed.

Lemma init_board_board s :
  board_shape (board s) → board (init_board s) = solved_board.
Proof.
  intros Hb. destruct s as [b ? ? ? ? ? ? ? ? ? ? ? ?]. simpl in Hb.
  open_board b Hb. reflexivity.
Qed.

Lemma init_board_inv s : board_shape (board s) → inv (init_board s).
Proof.
  intros Hb. pose proof (init_board_board s Hb) as Hs.
  split; unfold cells; rewrite ?Hs.
  - split; [done | repeat constructor].
  - apply (bool_decide_unpack _). by vm_compute.
  - done.
  - done.
  - reflexivity.
Qed.

Lemma moved_inv s tr tc :
  inv s → 0 ≤ tr < GRID_SIZE → 0 ≤ tc < GRID_SIZE →
  (tr, tc) ≠ (empty_row s, empty_col s) →
  inv (moved tr tc s).
Proof.
  intros [Hb Hp Hr Hc He] Htr Htc Hne. split; unfold cells; simpl.
  - by apply slide_shape.
  - rewrite slide_perm; done.
  - done.
  - done.
  - by apply slide_target.
Qed.

Lemma try_move_inv s r c :
  inv s → 0 ≤ r < GRID_SIZE → 0 ≤ c < GRID_SIZE → inv (try_move r c s).2.
Proof.
  intros Hinv Hr Hc.
  destruct (adjacency_test (empty_row s) (empty_col s) r c) eqn:Ht.
  - eapply inv_puzzle; [symmetry; by apply try_move_puzzle |].
    apply moved_inv; [done..|].
    intros Heq. simplify_eq.
    apply adjacency_test_manhattan in Ht; [| apply Hinv..| done | done].
    unfold manhattan in Ht. lia.
  - by rewrite try_move_unfold, Ht.
Qed.

(** *** One iteration of the shuffle loop *)

Lemma drawn_cases g : drawn g = 0 ∨ drawn g = 1 ∨ drawn g = 2 ∨ drawn g = 3.
Proof.
  unfold drawn.
  pose proof (Z.land_ones (u8 (rand g).1) 2) as H.
  change (Z.ones 2) with 3 in H. change (2 ^ 2) with 4 in H.
  rewrite H by lia.
  pose proof (Z.mod_pos_bound (u8 (rand g).1) 4). lia.
Qed.

Lemma shuffle_body_unfold i s last_dir g :
  0 ≤ empty_row s < GRID_SIZE → 0 ≤ empty_col s < GRID_SIZE →
  shuffle_body i (s, last_dir, g) =
  if Z.lxor (drawn g) last_dir =? 1 then (s, last_dir, (rand g).2)
  else if dir_inside (drawn g) (empty_row s) (empty_col s) then
    (moved (dir_source (drawn g) (empty_row s) (empty_col s)).1
           (dir_source (drawn g) (empty_row s) (empty_col s)).2 s,
     drawn g, (rand g).2)
  else (s, last_dir, (rand g).2).
Proof.
  unfold GRID_SIZE. intros Hr Hc.
  pose proof (drawn_cases g) as Hd. revert Hd.
  unfold shuffle_body, drawn. destruct (rand g) as [v g']. cbn [fst snd].
  generalize (Z.land (u8 v) 3). intros d Hd.
  destruct (Z.lxor d last_dir =? 1); [reflexivity |].
  unfold dir_inside, dir_source, GRID_SIZE.
  destruct Hd as [-> | [-> | [-> | ->]]]; cbn [Z.eqb Pos.eqb fst snd];
    rewrite ?Z.gtb_ltb;
    match goal with |- context [?a <? ?b] => destruct (Z.ltb_spec a b) end;
    try reflexivity; destruct s;
    cbn [empty_row empty_col board with_board with_empty_row with_empty_col] in *;
    rewrite u8_small by lia; reflexivity.
Qed.

Lemma dir_source_inside g er ec :
  0 ≤ er < GRID_SIZE → 0 ≤ ec < GRID_SIZE →
  dir_inside (drawn g) er ec = true →
  0 ≤ (dir_source (drawn g) er ec).1 < GRID_SIZE ∧
  0 ≤ (dir_source (drawn g) er ec).2 < GRID_SIZE ∧
  manhattan er ec (dir_source (drawn g) er ec).1 (dir_source (drawn g) er ec).2 = 1.
Proof.
  unfold GRID_SIZE, dir_inside, dir_source, manhattan. intros Hr Hc.
  destruct (drawn_cases g) as [-> | [-> | [-> | ->]]];
    cbn [Z.eqb Pos.eqb fst snd]; rewrite ?Z.gtb_ltb, Z.ltb_lt;
    unfold GRID_SIZE; lia.
Qed.

(** An iteration either leaves the puzzle alone or slides a neighbouring
    tile into the empty cell. *)
Lemma shuffle_body_puzzle i s last_dir g :
  0 ≤ empty_row s < GRID_SIZE → 0 ≤ empty_col s < GRID_SIZE →
  (shuffle_body i (s, last_dir, g)).1.1 = s ∨
  ∃ tr tc, 0 ≤ tr < GRID_SIZE ∧ 0 ≤ tc < GRID_SIZE ∧
    manhattan (empty_row s) (empty_col s) tr tc = 1 ∧
    (shuffle_body i (s, last_dir, g)).1.1 = moved tr tc s.
Proof.
  intros Hr Hc. rewrite shuffle_body_unfold by done.
  destruct (Z.lxor (drawn g) last_dir =? 1); [by left |].
  destruct (dir_inside (drawn g) (empty_row s) (empty_col s)) eqn:Hin; [| by left].
  right. destruct (dir_source_inside g _ _ Hr Hc Hin) as (? & ? & ?). eauto 10.
Qed.

Lemma manhattan_1_ne er ec tr tc :
  manhattan er ec tr tc = 1 → (tr, tc) ≠ (er, ec).
Proof. unfold manhattan. intros H Heq. simplify_eq. lia. Qed.

Lemma shuffle_body_inv i st : inv st.1.1 → inv (shuffle_body i st).1.1.
Proof.
  destruct st as [[s last_dir] g]. cbn [fst]. intros Hinv.
  destruct (shuffle_body_puzzle i s last_dir g) as [-> | (tr & tc & ? & ? & Hm & ->)];
    [apply Hinv.. | done |].
  apply moved_inv; [done..|]. by apply manhattan_1_ne.
Qed.

Lemma shuffle_steps_inv n s : inv s → inv (shuffle_steps n s).1.1.
Proof.
  intros Hinv. unfold shuffle_steps.
  apply (for_loop_ind (λ st, inv st.1.1)); [done |].
  intros i st _. apply shuffle_body_inv.
Qed.

Lemma shuffle_board_steps s : shuffle_board s = (shuffle_steps 200 s).1.1.
Proof. unfold shuffle_board. by destruct (shuffle_steps 200 s) as [[? ?] ?]. Qed.

(** C2. The state invariant (each identifier 0..15 exactly once, cached
    empty position inside the grid and holding 0) is established by
    [init_board], holds after every number [n] of iterations of the shuffle
    loop, whatever each iteration did, hence after [shuffle_board], and holds
    after every [try_move] call at a grid cell, whether it moved or not. *)
Theorem invariant_after_every_mutation (s0 s : state) (n r c : Z) :
  board_shape (board s0) → inv s → 0 ≤ r < GRID_SIZE → 0 ≤ c < GRID_SIZE →
  inv (init_board s0) ∧
  inv (shuffle_steps n s).1.1 ∧
  inv (shuffle_board s) ∧
  inv (try_move r c s).2.
Proof.
  intros Hb Hinv Hr Hc. split; [by apply init_board_inv |].
  split; [by apply shuffle_steps_inv |].
  split; [rewrite shuffle_board_steps; by apply shuffle_steps_inv |].
  by apply try_move_inv.
Qed.

(** ** Solvability of the shuffled board *)

Lemma try_move_ret r c s :
  (try_move r c s).1 = if adjacency_test (empty_row s) (empty_col s) r c then 1 else 0.
Proof. rewrite try_move_unfold. by case_match. Qed.

Lemma moved_puzzle r c s t :
  puzzle s = puzzle t → puzzle (moved r c s) = puzzle (moved r c t).
Proof.
  unfold puzzle, moved. simpl. intros H. injection H as Hb Hr Hc.
  by rewrite Hb, Hr, Hc.
Qed.

(** What a sequence of slides does depends on the puzzle only. *)
Lemma replay_puzzle path s t s' :
  puzzle s = puzzle t → replay path s = Some s' →
  ∃ t', replay path t = Some t' ∧ puzzle s' = puzzle t'.
Proof.
  revert s t. induction path as [| [r c] rest IH]; intros s t Hst Hs.
  - simpl in Hs. injection Hs as <-. by exists t.
  - cbn [replay] in *. rewrite try_move_ret in *.
    assert (Hadj : adjacency_test (empty_row t) (empty_col t) r c =
                   adjacency_test (empty_row s) (empty_col s) r c).
    { unfold puzzle in Hst. injection Hst as Hb Hr Hc. by rewrite Hr, Hc. }
    assert (Hleg : legal_slide r c t = legal_slide r c s).
    { unfold legal_slide, puzzle in *. injection Hst as Hb Hr Hc. by rewrite Hr, Hc. }
    rewrite Hadj, Hleg.
    destruct (legal_slide r c s); [| done]. cbn [andb] in *.
    destruct (adjacency_test (empty_row s) (empty_col s) r c) eqn:Ht; [| done].
    apply (IH _ (try_move r c t).2) in Hs; [done |].
    rewrite !try_move_puzzle by congruence. by apply moved_puzzle.
Qed.

Lemma replay_app p q s s' s'' :
  replay p s = Some s' → replay q s' = Some s'' → replay (p ++ q) s = Some s''.
Proof.
  revert s. induction p as [| [r c] rest IH]; intros s Hp Hq.
  - by simplify_eq/=.
  - cbn [replay app] in *. case_match; [| done]. by apply IH.
Qed.

Lemma in_grid_inside r c :
  0 ≤ r < GRID_SIZE → 0 ≤ c < GRID_SIZE → in_grid r c = true.
Proof.
  intros Hr Hc. unfold in_grid. rewrite !andb_true_iff, !Z.leb_le, !Z.ltb_lt. lia.
Qed.

(** Every step of a replayed path is at a cell of the grid. *)
Lemma replay_legal path : ∀ s s',
  replay path s = Some s' →
  ∀ k p, path !! k = Some p →
    0 ≤ p.1 < GRID_SIZE ∧ 0 ≤ p.2 < GRID_SIZE.
Proof.
  induction path as [| [r c] rest IH]; intros s s' Hrep k p Hk; [done |].
  cbn [replay] in Hrep.
  destruct (legal_slide r c s) eqn:Hl; [| done]. cbn [andb] in Hrep.
  destruct ((try_move r c s).1 =? 1); [| done].
  destruct k as [| k].
  - injection Hk as <-. cbn [fst snd].
    unfold legal_slide, in_grid in Hl.
    rewrite !andb_true_iff, !Z.leb_le, !Z.ltb_lt in Hl. lia.
  - by apply (IH _ _ Hrep k).
Qed.

(** The slide that undoes a slide. *)
Lemma slide_undone s tr tc :
  inv s → 0 ≤ tr < GRID_SIZE → 0 ≤ tc < GRID_SIZE →
  manhattan (empty_row s) (empty_col s) tr tc = 1 →
  ∃ s', replay [(empty_row s, empty_col s)] (moved tr tc s) = Some s' ∧
        puzzle s' = puzzle s.
Proof.
  intros [Hb Hp Hr Hc He] Htr Htc Hm.
  assert (Ht : adjacency_test tr tc (empty_row s) (empty_col s) = true).
  { apply adjacency_test_manhattan; [done..|]. unfold manhattan in *. lia. }
  assert (Hl : legal_slide (empty_row s) (empty_col s) (moved tr tc s) = true).
  { unfold legal_slide.
    change (empty_row (moved tr tc s)) with tr.
    change (empty_col (moved tr tc s)) with tc.
    rewrite (in_grid_inside _ _ Hr Hc). apply Z.eqb_eq. unfold manhattan in *. lia. }
  cbn [replay]. rewrite Hl, try_move_ret.
  change (empty_row (moved tr tc s)) with tr.
  change (empty_col (moved tr tc s)) with tc. rewrite Ht.
  eexists. split; [reflexivity |].
  rewrite try_move_puzzle by done.
  unfold puzzle, moved. simpl.
  rewrite slide_back; [done..| by apply manhattan_1_ne | done].
Qed.

Lemma shuffle_steps_undone (k : nat) s :
  inv s →
  ∃ path s', replay path (shuffle_steps (Z.of_nat k) s).1.1 = Some s' ∧
             puzzle s' = puzzle s.
Proof.
  intros Hinv. induction k as [| k IH].
  - exists [], s. done.
  - destruct IH as (path & s' & Hpath & Hs').
    unfold shuffle_steps in *. rewrite for_loop_succ.
    pose proof (shuffle_steps_inv (Z.of_nat k) s Hinv) as Hk.
    unfold shuffle_steps in Hk.
    destruct (for_loop 0 (Z.of_nat k) shuffle_body (shuffle_entry s))
      as [[sk last_dir] g].
    cbn [fst] in *.
    destruct (shuffle_body_puzzle (Z.of_nat k) sk last_dir g)
      as [-> | (tr & tc & ? & ? & Hm & ->)]; [apply Hk.. | by eauto |].
    destruct (slide_undone sk tr tc) as (u & Hu & Hpu); [done..|].
    destruct (replay_puzzle path sk u s') as (t' & Ht' & Hpt');
      [done | done |].
    exists ((empty_row sk, empty_col sk) :: path), t'.
    split; [| congruence].
    by apply (replay_app [(empty_row sk, empty_col sk)] path _ u).
Qed.

(** ** check_win *)

Lemma check_win_solved_iff s :
  board_shape (board s) →
  (check_win s = 1 ↔ board s = solved_board) ∧ (check_win s = 1 ∨ check_win s = 0).
Proof.
  intros Hb. destruct s as [b ? ? ? ? ? ? ? ? ? ? ? ?]. simpl in Hb.
  open_board b Hb. unfold check_win, for_return, solved_board, GRID_SIZE, EMPTY_TILE.
  cbn [board]. change (seqZ 0 (4 - 0)) with [0; 1; 2; 3].
  cbn [for_list]. change (4 - 1) with 3.
  change (0 =? 3) with false. change (1 =? 3) with false.
  change (2 =? 3) with false. change (3 =? 3) with true.
  cbn [andb].
  repeat scan_step;
    first [ split; [split; [done | congruence] | by right]
          | idtac ].
  subst. split; [done | by left].
Qed.

(** C5. For every 4x4 board (in particular every permutation of 0..15)
    [check_win] returns 1 exactly when the board is
    [[1,2,3,4],[5,6,7,8],[9,10,11,12],[13,14,15,0]] and 0 otherwise; it returns
    0 on that arrangement with any two distinct cells exchanged. *)
Theorem check_win_exactly_solved (s : state) :
  board_shape (board s) →
  (check_win s = 1 ↔ board s = solved_board) ∧
  (check_win s = 1 ∨ check_win s = 0) ∧
  (∀ r1 c1 r2 c2,
     0 ≤ r1 < GRID_SIZE → 0 ≤ c1 < GRID_SIZE →
     0 ≤ r2 < GRID_SIZE → 0 ≤ c2 < GRID_SIZE →
     (r1, c1) ≠ (r2, c2) →
     check_win (with_board (swap_cells solved_board r1 c1 r2 c2) s) = 0).
Proof.
  intros Hb. destruct (check_win_solved_iff s Hb) as [Hiff Hret].
  split; [done |]. split; [done |].
  intros r1 c1 r2 c2 Hr1 Hc1 Hr2 Hc2 Hne.
  grid_split Hr1; grid_split Hc1; grid_split Hr2; grid_split Hc2;
    first [by destruct Hne | reflexivity].
Qed.

(** C3. Whatever the seed and the generator, the board left by
    [shuffle_board] on the solved board can be brought back to the solved
    arrangement by finitely many legal slides, after which [check_win] returns
    1.  A legal slide is a call of [try_move] at a cell of the grid that is at
    Manhattan distance 1 from the empty cell of the moment and that returns 1;
    [replay] yields a state only if every step of the path is one. *)
Theorem shuffled_board_is_solvable (s0 : state) :
  board_shape (board s0) →
  ∃ (path : list (Z * Z)) (s' : state),
    replay path (shuffle_board (init_board s0)) = Some s' ∧
    (∀ k p, path !! k = Some p → 0 ≤ p.1 < GRID_SIZE ∧ 0 ≤ p.2 < GRID_SIZE) ∧
    board s' = solved_board ∧ check_win s' = 1.
Proof.
  intros Hb.
  destruct (shuffle_steps_undone 200 (init_board s0) (init_board_inv s0 Hb))
    as (path & s' & Hpath & Hs').
  exists path, s'. rewrite shuffle_board_steps.
  split; [exact Hpath |].
  split; [exact (replay_legal path _ _ Hpath) |].
  assert (Hboard : board s' = solved_board).
  { unfold puzzle in Hs'. injection Hs' as -> _ _. by apply init_board_board. }
  split; [done |].
  apply check_win_solved_iff; [| done].
  rewrite Hboard. split; [done | repeat constructor].
Qed.

(** ** No accepted move undoes the one before *)

Lemma reverses_lxor a b : reverses a b = true ↔ Z.lxor (way_code b) (way_code a) = 1.
Proof. destruct a, b; simpl; split; first [done | discriminate]. Qed.

Lemma displacement_stay s :
  displacement s s = None.
Proof.
  unfold displacement.
  repeat match goal with
         | |- context [?a =? ?b] => destruct (Z.eqb_spec a b); try lia
         end; reflexivity.
Qed.

Lemma shuffle_body_step i s last_dir g :
  0 ≤ empty_row s < GRID_SIZE → 0 ≤ empty_col s < GRID_SIZE →
  let st' := shuffle_body i (s, last_dir, g) in
  (0 ≤ empty_row st'.1.1 < GRID_SIZE ∧ 0 ≤ empty_col st'.1.1 < GRID_SIZE) ∧
  match displacement s st'.1.1 with
  | Some w => st'.1.2 = way_code w ∧ Z.lxor (way_code w) last_dir ≠ 1
  | None => st'.1.2 = last_dir
  end.
Proof.
  intros Hr Hc st'. unfold st'. rewrite shuffle_body_unfold by done.
  destruct (Z.eqb_spec (Z.lxor (drawn g) last_dir) 1) as [Heq | Hne].
  { cbn [fst snd]. by rewrite displacement_stay. }
  destruct (dir_inside (drawn g) (empty_row s) (empty_col s)) eqn:Hin.
  2: { cbn [fst snd]. by rewrite displacement_stay. }
  destruct (dir_source_inside g _ _ Hr Hc Hin) as (Htr & Htc & _).
  cbn [fst snd]. split; [done |].
  revert Hne. unfold displacement, moved, dir_source. cbn [empty_row empty_col
    with_empty_row with_empty_col with_board].
  destruct (drawn_cases g) as [-> | [-> | [-> | ->]]]; cbn [Z.eqb Pos.eqb fst snd];
    intros Hne;
    repeat match goal with
           | |- context [?a =? ?b] => destruct (Z.eqb_spec a b); try lia
           end; cbn [andb]; done.
Qed.

Lemma no_reversal_snoc moves w :
  no_reversal moves →
  (∀ a, last moves = Some a → reverses a w = false) →
  no_reversal (moves ++ [w]).
Proof.
  intros Hm Hlast k a b Ha Hb.
  destruct (decide (S k < length moves)%nat) as [Hlt | Hge].
  - rewrite lookup_app_l in Ha by lia. rewrite lookup_app_l in Hb by lia.
    by apply (Hm k).
  - assert (Hlen : S k = length moves).
    { apply lookup_lt_Some in Hb. rewrite length_app in Hb. simpl in Hb. lia. }
    rewrite lookup_app_l in Ha by lia.
    rewrite lookup_app_r in Hb by lia.
    rewrite <- Hlen, Nat.sub_diag in Hb. simplify_eq/=.
    apply Hlast. rewrite last_lookup, <- Hlen. done.
Qed.

(** After [n] iterations the local [last_dir] is the code of the last
    accepted move (255 before the first one) and the empty cell is in the
    grid. *)
Lemma shuffle_steps_last_dir (n : nat) s :
  0 ≤ empty_row s < GRID_SIZE → 0 ≤ empty_col s < GRID_SIZE →
  (0 ≤ empty_row (shuffle_steps (Z.of_nat n) s).1.1 < GRID_SIZE ∧
   0 ≤ empty_col (shuffle_steps (Z.of_nat n) s).1.1 < GRID_SIZE) ∧
  (shuffle_steps (Z.of_nat n) s).1.2 = default 255 (way_code <$> last (accepted n s)) ∧
  no_reversal (accepted n s).
Proof.
  intros Hr Hc. induction n as [| n (Hrange & Hlast & Hrev)].
  - split; [done |]. split; [done |]. by intros k a b Ha.
  - cbn [accepted].
    assert (Hnext : shuffle_steps (Z.of_nat (S n)) s =
                    shuffle_body (Z.of_nat n) (shuffle_steps (Z.of_nat n) s)).
    { unfold shuffle_steps. apply for_loop_succ. }
    rewrite Hnext.
    destruct (shuffle_steps (Z.of_nat n) s) as [[sn last_dir] g] eqn:Hsn.
    cbn [fst snd] in Hrange, Hlast |- *.
    destruct Hrange as [Hrn Hcn].
    pose proof (shuffle_body_step (Z.of_nat n) sn last_dir g Hrn Hcn) as [Hrange' Hstep].
    cbn zeta in Hrange', Hstep.
    split; [done |].
    destruct (displacement sn (shuffle_body (Z.of_nat n) (sn, last_dir, g)).1.1)
      as [w |].
    + destruct Hstep as [Hcode Hne]. split.
      * rewrite last_snoc. done.
      * apply no_reversal_snoc; [done |].
        intros a Ha. rewrite Ha in Hlast. cbn in Hlast. subst last_dir.
        destruct (reverses a w) eqn:Hrv; [| done].
        apply reverses_lxor in Hrv. done.
    + rewrite app_nil_r. split; [congruence | done].
Qed.

(** C4. In every run of the shuffle loop, among the accepted moves (the
    iterations that slide the empty cell) none is the exact opposite of the
    accepted move just before it: up is never followed by down, down by up,
    left by right, right by left.  The local [last_dir] against which the
    drawn direction is tested is at every point the code of the last accepted
    move (0xFF before the first), not of the last drawn one. *)
Theorem accepted_moves_never_reverse (s : state) (n : nat) :
  0 ≤ empty_row s < GRID_SIZE → 0 ≤ empty_col s < GRID_SIZE →
  (∀ k a b, accepted n s !! k = Some a → accepted n s !! S k = Some b →
            reverses a b = false) ∧
  (shuffle_steps (Z.of_nat n) s).1.2 = default 255 (way_code <$> last (accepted n s)).
Proof.
  intros Hr Hc.
  destruct (shuffle_steps_last_dir n s Hr Hc) as (_ & Hlast & Hrev).
  split; [exact Hrev | exact Hlast].
Qed.

(** ** What the display shows *)

Lemma put_char_digit x y d s :
  0 ≤ d ≤ 9 →
  put_char x y (u8 (48 + u8 d)) s = set_bkg_tile_xy x y (digit_tile d) s.
Proof.
  intros Hd.
  assert (d = 0 ∨ d = 1 ∨ d = 2 ∨ d = 3 ∨ d = 4 ∨ d = 5 ∨ d = 6 ∨ d = 7 ∨
          d = 8 ∨ d = 9) as Hc by lia.
  repeat (destruct Hc as [-> | Hc]; [reflexivity |]). subst. reflexivity.
Qed.

(** [put_number] on a number below 1000. *)
Lemma put_number_small x y num s :
  0 ≤ num < 1000 →
  put_number x y num s =
  set_bkg_tile_xy (x + 2) y (digit_tile (num mod 10))
    (set_bkg_tile_xy (x + 1) y (if num <? 10 then T_BLANK else digit_tile (num / 10 mod 10))
       (set_bkg_tile_xy x y (if num <? 100 then T_BLANK else digit_tile (num / 100)) s)).
Proof.
  intros Hnum. unfold put_number.
  assert (Hh : 0 ≤ num / 100 ≤ 9).
  { split; [apply Z.div_pos; lia | apply Z.lt_succ_r, Z.div_lt_upper_bound; lia]. }
  pose proof (Z.mod_pos_bound (num / 10) 10) as Ht.
  pose proof (Z.mod_pos_bound num 10) as Ho.
  rewrite !put_char_digit by lia.
  rewrite (u8_small (num / 100)), (u8_small (num / 10 mod 10)) by lia.
  rewrite !Z.gtb_ltb.
  destruct (Z.ltb_spec 0 (num / 100)) as [Hpos | Hzero].
  - assert (100 ≤ num).
    { destruct (Z.le_gt_cases 100 num); [done |]. rewrite Z.div_small in Hpos; lia. }
    rewrite (proj2 (Z.ltb_ge num 100)), (proj2 (Z.ltb_ge num 10)) by lia. reflexivity.
  - assert (num < 100).
    { destruct (Z.le_gt_cases 100 num) as [Hge |]; [| done].
      pose proof (Z.div_le_mono 100 num 100 ltac:(lia) Hge) as Hd.
      change (100 / 100) with 1 in Hd. lia. }
    rewrite (proj2 (Z.ltb_lt num 100)) by lia.
    destruct (Z.ltb_spec 0 (num / 10 mod 10)) as [Htpos | Htzero].
    + assert (10 ≤ num).
      { destruct (Z.le_gt_cases 10 num); [done |].
        rewrite (Z.div_small num 10) in Htpos by lia. done. }
      rewrite (proj2 (Z.ltb_ge num 10)) by lia. reflexivity.
    + assert (num < 10).
      { destruct (Z.le_gt_cases 10 num) as [Hge |]; [| done].
        assert (num / 10 < 10) by (apply Z.div_lt_upper_bound; lia).
        rewrite Z.mod_small in Htzero.
        - pose proof (Z.div_le_mono 10 num 10 ltac:(lia) Hge) as Hd.
          change (10 / 10) with 1 in Hd. lia.
        - split; [apply Z.div_pos; lia | done]. }
      rewrite (proj2 (Z.ltb_lt num 10)) by lia. reflexivity.
Qed.

Lemma digit_tile_range d : 0 ≤ d ≤ 9 → 10 ≤ digit_tile d ≤ 20.
Proof.
  unfold digit_tile, T_NUM10_L, T_NUM_START. intros.
  destruct (Z.eqb_spec d 0); lia.
Qed.

Lemma tile_digit_digit_tile d : 0 ≤ d ≤ 9 → tile_digit (digit_tile d) = Some d.
Proof.
  intros Hd.
  assert (d = 0 ∨ d = 1 ∨ d = 2 ∨ d = 3 ∨ d = 4 ∨ d = 5 ∨ d = 6 ∨ d = 7 ∨
          d = 8 ∨ d = 9) as Hc by lia.
  repeat (destruct Hc as [-> | Hc]; [reflexivity |]). subst. reflexivity.
Qed.

(** Reading the display after one more write. *)
Lemma tile_at_set x' y' v s x y :
  tile_at (set_bkg_tile_xy x' y' v s) x y =
  if (VBK_REG s =? 0) && (u8 x' =? x) && (u8 y' =? y) then Some (u8 v)
  else tile_at s x y.
Proof. reflexivity. Qed.

Lemma attr_at_set x' y' v s x y :
  attr_at (set_bkg_tile_xy x' y' v s) x y =
  if (VBK_REG s =? 1) && (u8 x' =? x) && (u8 y' =? y) then Some (u8 v)
  else attr_at s x y.
Proof. reflexivity. Qed.

Lemma VBK_REG_set x y v s : VBK_REG (set_bkg_tile_xy x y v s) = VBK_REG s.
Proof. reflexivity. Qed.

Lemma VBK_REG_with v s : VBK_REG (with_VBK_REG v s) = v.
Proof. reflexivity. Qed.

Lemma u8_blank_or (b : bool) g :
  0 ≤ g < 256 → u8 (if b then T_BLANK else g) = if b then T_BLANK else g.
Proof. intros. destruct b; [reflexivity | by apply u8_small]. Qed.

Lemma hud_tiles_sets t g0 g1 g2 :
  u8 g0 = g0 → u8 g1 = g1 → u8 g2 = g2 →
  hud_tiles
    (set_bkg_tile_xy (GRID_X + 1 + 2) (u8 (GRID_Y + GRID_SIZE * CELL_H + 2)) g0
       (set_bkg_tile_xy (GRID_X + 1 + 1) (u8 (GRID_Y + GRID_SIZE * CELL_H + 2)) g1
          (set_bkg_tile_xy (GRID_X + 1) (u8 (GRID_Y + GRID_SIZE * CELL_H + 2)) g2
             (with_VBK_REG 0 t)))) =
  [Some g2; Some g1; Some g0].
Proof.
  intros B0 B1 B2. unfold hud_tiles. cbn [fmap list_fmap].
  rewrite !tile_at_set, !VBK_REG_set, !VBK_REG_with, B0, B1, B2.
  reflexivity.
Qed.

Lemma draw_hud_unfold s :
  ∃ t, logic t = logic s ∧
       draw_hud s = put_number (GRID_X + 1) (u8 (GRID_Y + GRID_SIZE * CELL_H + 2))
                      (move_count s) (with_VBK_REG 0 t).
Proof.
  unfold draw_hud.
  eexists (for_loop GRID_X (GRID_X + 8) _ (with_VBK_REG 1 s)).
  split.
  - apply (for_loop_ind (λ u, logic u = logic s)); [done |].
    intros i u _ Hu. by rewrite logic_set_bkg_tile_xy.
  - set (t := for_loop _ _ _ _).
    assert (Ht : move_count (with_VBK_REG 0 t) = move_count s).
    { unfold t. apply (for_loop_ind (λ u, move_count (with_VBK_REG 0 u) = move_count s)); done. }
    by rewrite Ht.
Qed.

(** The HUD tiles after [draw_hud], for a counter below 1000. *)
Lemma draw_hud_tiles s :
  0 ≤ move_count s < 1000 →
  hud_tiles (draw_hud s) =
  [Some (if move_count s <? 100 then T_BLANK else digit_tile (move_count s / 100));
   Some (if move_count s <? 10 then T_BLANK else digit_tile (move_count s / 10 mod 10));
   Some (digit_tile (move_count s mod 10))].
Proof.
  intros Hmc. destruct (draw_hud_unfold s) as (t & _ & ->).
  rewrite put_number_small by done.
  assert (Hh : 0 ≤ move_count s / 100 ≤ 9).
  { split; [apply Z.div_pos; lia | apply Z.lt_succ_r, Z.div_lt_upper_bound; lia]. }
  pose proof (Z.mod_pos_bound (move_count s / 10) 10) as H1.
  pose proof (Z.mod_pos_bound (move_count s) 10) as H0.
  pose proof (digit_tile_range (move_count s / 100)) as R2.
  pose proof (digit_tile_range (move_count s / 10 mod 10)) as R1.
  pose proof (digit_tile_range (move_count s mod 10)) as R0.
  apply hud_tiles_sets.
  - apply u8_small; lia.
  - apply u8_blank_or; lia.
  - apply u8_blank_or; lia.
Qed.

Lemma field_value_digits num :
  0 ≤ num < 1000 →
  field_value
    [Some (if num <? 100 then T_BLANK else digit_tile (num / 100));
     Some (if num <? 10 then T_BLANK else digit_tile (num / 10 mod 10));
     Some (digit_tile (num mod 10))] = Some num.
Proof.
  intros Hnum. unfold field_value.
  pose proof (Z.mod_pos_bound num 10) as H0.
  pose proof (Z.mod_pos_bound (num / 10) 10) as H1.
  pose proof (Z.div_mod num 10) as E0.
  pose proof (Z.div_mod (num / 10) 10) as E1.
  assert (E2 : num / 10 / 10 = num / 100) by (rewrite Z.div_div; [done | lia..]).
  rewrite tile_digit_digit_tile by lia.
  destruct (Z.ltb_spec num 100) as [Hlt100 | Hge100];
    destruct (Z.ltb_spec num 10) as [Hlt10 | Hge10]; try lia.
  - change (T_BLANK =? T_BLANK) with true. cbn [andb]. f_equal. lia.
  - pose proof (digit_tile_range (num / 10 mod 10)) as R1.
    rewrite tile_digit_digit_tile by lia.
    change (T_BLANK =? T_BLANK) with true. cbn [andb].
    destruct (Z.eqb_spec (digit_tile (num / 10 mod 10)) T_BLANK) as [Heq | _];
      [unfold T_BLANK in Heq; lia |].
    destruct (Z.eqb_spec (num / 10 mod 10) 0); [lia |]. f_equal. lia.
  - pose proof (digit_tile_range (num / 100)) as R2.
    assert (0 ≤ num / 100 ≤ 9) by lia.
    rewrite !tile_digit_digit_tile by lia.
    destruct (Z.eqb_spec (digit_tile (num / 100)) T_BLANK) as [Heq | _];
      [unfold T_BLANK in Heq; lia |].
    cbn [andb].
    destruct (Z.eqb_spec (num / 100) 0); [lia |]. f_equal. lia.
Qed.

(** C8, as amended.  For every value of the move counter below 1000,
    [draw_hud] leaves in the three counter positions of the HUD row the
    decimal number right-aligned: the ones digit in the rightmost position,
    the tens digit before it unless the value is below 10, the hundreds digit
    first unless the value is below 100, and a blank tile in each unused
    leading position; read back, the field is the counter. *)
Theorem hud_shows_counter_below_1000 (s : state) :
  0 ≤ move_count s < 1000 →
  hud_tiles (draw_hud s) =
    [Some (if move_count s <? 100 then T_BLANK else digit_tile (move_count s / 100));
     Some (if move_count s <? 10 then T_BLANK
           else digit_tile (move_count s / 10 mod 10));
     Some (digit_tile (move_count s mod 10))] ∧
  field_value (hud_tiles (draw_hud s)) = Some (move_count s).
Proof.
  intros Hmc. rewrite draw_hud_tiles by done.
  split; [reflexivity | by apply field_value_digits].
Qed.

(** C8 as stated fails: with the counter at 1000 (a [uint16_t] value) the HUD
    field reads blank, "0", "0", which is not the decimal number 1000 and has
    a zero glyph after a blank. *)
Lemma hud_counter_1000_not_decimal :
  0 ≤ move_count hud_at_1000 < 65536 ∧
  hud_tiles (draw_hud hud_at_1000) =
    [Some T_BLANK; Some (digit_tile 0); Some (digit_tile 0)] ∧
  field_value (hud_tiles (draw_hud hud_at_1000)) ≠ Some (move_count hud_at_1000).
Proof. vm_compute. repeat split; congruence. Qed.

(** ** draw_cell *)

(** C9, as amended.  For a cell holding a two-digit identifier (10..15)
    [draw_cell] leaves the top and bottom rows of the border frame intact,
    including the bottom-right tile, keeps the left border tile of the middle
    row, puts the left glyph of the pair (tens digit) in the centre and the
    right glyph (ones digit) where the right border tile of the middle row
    would be.  A single-digit cell (1..9) gets its glyph in the centre of an
    intact eight-tile frame. *)
Theorem draw_cell_number_layout (s : state) (gx gy : Z) :
  0 ≤ gx < GRID_SIZE → 0 ≤ gy < GRID_SIZE →
  let v := cell (board s) gy gx in
  (10 ≤ v ≤ 15 →
     block_tiles (draw_cell gx gy s) gx gy =
     frame_tiles [Some T_TILE_L; Some (pair_left v); Some (pair_left v + 1)]) ∧
  (1 ≤ v ≤ 9 →
     block_tiles (draw_cell gx gy s) gx gy =
     frame_tiles [Some T_TILE_L; Some (T_NUM_START + v - 1); Some T_TILE_R]).
Proof.
  intros Hx Hy. unfold draw_cell. generalize (cell (board s) gy gx). intros v. cbn zeta.
  split; intros Hv.
  - assert (v = 10 ∨ v = 11 ∨ v = 12 ∨ v = 13 ∨ v = 14 ∨ v = 15) as Hc by lia.
    grid_split Hx; grid_split Hy;
      repeat (destruct Hc as [-> | Hc]; [vm_compute; reflexivity |]);
      subst; vm_compute; reflexivity.
  - assert (v = 1 ∨ v = 2 ∨ v = 3 ∨ v = 4 ∨ v = 5 ∨ v = 6 ∨ v = 7 ∨ v = 8 ∨ v = 9)
      as Hc by lia.
    grid_split Hx; grid_split Hy;
      repeat (destruct Hc as [-> | Hc]; [vm_compute; reflexivity |]);
      subst; vm_compute; reflexivity.
Qed.

(** C9 as stated fails: for the cell (0,0) holding 10, the left border tile
    of the middle row is still the border tile, not the tens glyph, the
    bottom-right tile is the ordinary frame corner, and the glyph pair sits
    in the centre and on the right. *)
Lemma two_digit_cell_keeps_left_border :
  cell (board ten_in_corner) 0 0 = 10 ∧
  tile_at (draw_cell 0 0 ten_in_corner) GRID_X (GRID_Y + 1) = Some T_TILE_L ∧
  tile_at (draw_cell 0 0 ten_in_corner) GRID_X (GRID_Y + 1) ≠ Some (pair_left 10) ∧
  tile_at (draw_cell 0 0 ten_in_corner) (GRID_X + 1) (GRID_Y + 1) = Some (pair_left 10) ∧
  tile_at (draw_cell 0 0 ten_in_corner) (GRID_X + 2) (GRID_Y + 1) =
    Some (pair_left 10 + 1) ∧
  tile_at (draw_cell 0 0 ten_in_corner) (GRID_X + 2) (GRID_Y + 2) = Some T_TILE_BR.
Proof. vm_compute. repeat split; congruence. Qed.

(** ** What try_move repaints *)

Lemma draw_cell_painted gx gy s :
  0 ≤ gx < GRID_SIZE → 0 ≤ gy < GRID_SIZE →
  bkg_writes (draw_cell gx gy s) = painted (draw_cell gx gy) s ++ bkg_writes s ∧
  forallb (in_block gx gy) (painted (draw_cell gx gy) s) = true ∧
  repainted gx gy (painted (draw_cell gx gy) s) = true.
Proof.
  intros Hx Hy. unfold painted, draw_cell.
  change (board (with_bkg_writes [] s)) with (board s).
  generalize (cell (board s) gy gx). intros v. cbn zeta.
  generalize (get_tile_palette v). intros pal.
  destruct s as [b er ec cr cc mc gw ic sc vbk log fr po].
  destruct (v =? 0); [| destruct (v <=? 9)];
    grid_split Hx; grid_split Hy;
    (split; [reflexivity | split; reflexivity]).
Qed.

Lemma bkg_writes_with_VBK_REG v s : bkg_writes (with_VBK_REG v s) = bkg_writes s.
Proof. reflexivity. Qed.

Lemma bkg_writes_with_move_count v s : bkg_writes (with_move_count v s) = bkg_writes s.
Proof. reflexivity. Qed.

Lemma draw_hud_eq s :
  draw_hud s =
  put_number (GRID_X + 1) (u8 (GRID_Y + GRID_SIZE * CELL_H + 2)) (move_count s)
    (with_VBK_REG 0 (hud_band s)).
Proof.
  assert (Hl : logic (hud_band s) = logic s).
  { unfold hud_band. apply (for_loop_ind (λ u, logic u = logic s)); [done |].
    intros i u _ Hu. by rewrite logic_set_bkg_tile_xy. }
  destruct (logic_fields _ _ (eq_trans (logic_with_VBK_REG 0 (hud_band s)) Hl))
    as (_ & _ & _ & _ & _ & Hm & _).
  unfold draw_hud. fold (hud_band s). by rewrite Hm.
Qed.

Lemma hud_band_painted s :
  bkg_writes (hud_band s) = painted hud_band s ++ bkg_writes s ∧
  forallb in_hud_row (painted hud_band s) = true.
Proof. destruct s. split; reflexivity. Qed.

Lemma put_number_painted x num s :
  bkg_writes (put_number x (u8 (GRID_Y + GRID_SIZE * CELL_H + 2)) num s) =
    painted (put_number x (u8 (GRID_Y + GRID_SIZE * CELL_H + 2)) num) s ++ bkg_writes s ∧
  forallb in_hud_row
    (painted (put_number x (u8 (GRID_Y + GRID_SIZE * CELL_H + 2)) num) s) = true.
Proof.
  unfold painted, put_number.
  destruct (_ >? 0); [| destruct (_ >? 0)]; split; reflexivity.
Qed.

Lemma draw_hud_writes s :
  ∃ new, bkg_writes (draw_hud s) = new ++ bkg_writes s ∧
         forallb in_hud_row new = true.
Proof.
  rewrite draw_hud_eq.
  destruct (put_number_painted (GRID_X + 1) (move_count s)
              (with_VBK_REG 0 (hud_band s))) as [E1 F1].
  destruct (hud_band_painted s) as [E2 F2].
  eexists (_ ++ _). split.
  - rewrite E1, (bkg_writes_with_VBK_REG 0 (hud_band s)), E2. apply app_assoc.
  - rewrite forallb_app, F1, F2. reflexivity.
Qed.


Lemma bkg_writes_moved r c s : bkg_writes (moved r c s) = bkg_writes s.
Proof. by destruct s. Qed.

Lemma writes_at_app bank x y k l m :
  writes_at bank x y l = true → writes_at bank x y (k ++ l ++ m) = true.
Proof.
  unfold writes_at. rewrite !existsb_app. intros ->.
  by rewrite orb_true_r.
Qed.

Lemma repainted_app gx gy k l m :
  repainted gx gy l = true → repainted gx gy (k ++ l ++ m) = true.
Proof.
  unfold repainted. rewrite !forallb_forall. intros H dy Hdy.
  specialize (H dy Hdy). rewrite forallb_forall in H |- *.
  intros dx Hdx. specialize (H dx Hdx).
  apply andb_true_iff in H as [H0 H1]. apply andb_true_iff.
  split; by apply writes_at_app.
Qed.

Lemma hud_band_written_painted s : hud_band_written (painted hud_band s) = true.
Proof. destruct s. reflexivity. Qed.

(** Whatever the number, [put_number] writes its three positions. *)
Lemma put_number_digits_written num u :
  VBK_REG u = 0 →
  hud_digits_written
    (painted (put_number (GRID_X + 1) (u8 (GRID_Y + GRID_SIZE * CELL_H + 2)) num) u) = true.
Proof.
  intros Hv. destruct u as [b er ec cr cc mc gw ic sc vbk log fr po].
  cbn [VBK_REG] in Hv. subst vbk.
  unfold painted, put_number.
  destruct (_ >? 0); [| destruct (_ >? 0)]; reflexivity.
Qed.

Lemma hud_repainted_app k l m :
  hud_repainted l = true → hud_repainted (k ++ l ++ m) = true.
Proof.
  unfold hud_repainted, hud_digits_written, hud_band_written.
  rewrite !andb_true_iff, !forallb_forall. intros [Hd Hb].
  split; intros dx Hdx; apply writes_at_app; [by apply Hd | by apply Hb].
Qed.

(** [draw_hud] writes the HUD row and nothing else, and writes all of it. *)
Lemma draw_hud_repaints s :
  ∃ new, bkg_writes (draw_hud s) = new ++ bkg_writes s ∧
         forallb in_hud_row new = true ∧ hud_repainted new = true.
Proof.
  rewrite draw_hud_eq.
  destruct (put_number_painted (GRID_X + 1) (move_count s)
              (with_VBK_REG 0 (hud_band s))) as [E1 F1].
  destruct (hud_band_painted s) as [E2 F2].
  pose proof (put_number_digits_written (move_count s) (with_VBK_REG 0 (hud_band s))
                eq_refl) as D1.
  pose proof (hud_band_written_painted s) as D2.
  eexists (_ ++ _). split; [| split].
  - rewrite E1, (bkg_writes_with_VBK_REG 0 (hud_band s)), E2. apply app_assoc.
  - rewrite forallb_app, F1, F2. reflexivity.
  - revert D1 D2. unfold hud_repainted, hud_digits_written, hud_band_written.
    rewrite !andb_true_iff, !forallb_forall. intros D1 D2.
    split; intros dx Hdx.
    + apply (writes_at_app _ _ _ [] _ _). by apply D1.
    + rewrite <- (app_nil_r (painted hud_band s)). apply writes_at_app. by apply D2.
Qed.

Lemma in_block_spec gx gy w :
  in_block gx gy w = true ↔
  4 + 3 * gx ≤ w_x w < 4 + 3 * gx + 3 ∧ 3 + 3 * gy ≤ w_y w < 3 + 3 * gy + 3.
Proof.
  unfold in_block, GRID_X, GRID_Y, CELL_W, CELL_H.
  rewrite !andb_true_iff, !Z.leb_le, !Z.ltb_lt. lia.
Qed.

(** The blocks of two different grid cells do not overlap, and the HUD row
    lies outside every block. *)
Lemma in_block_disjoint gx gy gx' gy' w :
  in_block gx gy w = true → in_block gx' gy' w = true → gx = gx' ∧ gy = gy'.
Proof. rewrite !in_block_spec. lia. Qed.

Lemma in_hud_row_outside gx gy w :
  0 ≤ gy < GRID_SIZE → in_hud_row w = true → in_block gx gy w = false.
Proof.
  unfold GRID_SIZE. intros Hy Hw.
  destruct (in_block gx gy w) eqn:Hb; [| done].
  apply in_block_spec in Hb.
  unfold in_hud_row, GRID_Y, GRID_SIZE, CELL_H in Hw. apply Z.eqb_eq in Hw. lia.
Qed.

(** C6. A successful [try_move] repaints exactly the 3x3 blocks of the old
    and the new empty cell and the HUD row: both blocks are written in full on
    both layers, the three counter positions of the HUD row are written on the
    tile map and the eight positions of its band on the attribute map, every
    write lies in one of the two blocks or in the HUD row, and no write of
    either layer falls into the block of any of the other 14 cells.  A failed
    [try_move] writes nothing. *)
Theorem try_move_repaints_only_two_cells (s : state) (r c : Z) :
  0 ≤ empty_row s < GRID_SIZE → 0 ≤ empty_col s < GRID_SIZE →
  0 ≤ r < GRID_SIZE → 0 ≤ c < GRID_SIZE →
  ∃ new : list write,
    bkg_writes (try_move r c s).2 = new ++ bkg_writes s ∧
    ((try_move r c s).1 = 0 → new = []) ∧
    ((try_move r c s).1 = 1 →
       repainted (empty_col s) (empty_row s) new = true ∧
       repainted c r new = true ∧
       hud_repainted new = true ∧
       (∀ w, w ∈ new →
          in_block (empty_col s) (empty_row s) w = true ∨
          in_block c r w = true ∨ in_hud_row w = true) ∧
       (∀ w gx gy, w ∈ new →
          0 ≤ gx < GRID_SIZE → 0 ≤ gy < GRID_SIZE →
          (gy, gx) ≠ (empty_row s, empty_col s) → (gy, gx) ≠ (r, c) →
          in_block gx gy w = false)).
Proof.
  intros Her Hec Hr Hc. rewrite try_move_unfold.
  destruct (adjacency_test (empty_row s) (empty_col s) r c).
  2: { exists []. cbn [fst snd]. split; [done |]. split; [done | discriminate]. }
  cbn [fst snd].
  set (m := moved r c s).
  set (d1 := draw_cell (empty_col s) (empty_row s) m).
  set (d2 := draw_cell c r d1).
  destruct (draw_hud_repaints (with_move_count (u16 (move_count s + 1)) d2))
    as (h & Eh & Fh & Rh).
  assert (Eh' : bkg_writes (draw_hud (with_move_count (u16 (move_count s + 1)) d2)) =
                h ++ bkg_writes d2).
  { etrans; [exact Eh |]. by f_equal. }
  clear Eh.
  destruct (draw_cell_painted c r d1 Hc Hr) as (E2 & F2 & R2). fold d2 in E2.
  destruct (draw_cell_painted (empty_col s) (empty_row s) m Hec Her)
    as (E1 & F1 & R1). fold d1 in E1.
  assert (E1' : bkg_writes d1 =
                painted (draw_cell (empty_col s) (empty_row s)) m ++ bkg_writes s).
  { etrans; [exact E1 |]. by f_equal. }
  clear E1.
  set (p2 := painted (draw_cell c r) d1) in *.
  set (p1 := painted (draw_cell (empty_col s) (empty_row s)) m) in *.
  exists (h ++ p2 ++ p1).
  assert (Hwhere : ∀ w, w ∈ h ++ p2 ++ p1 →
            in_block (empty_col s) (empty_row s) w = true ∨
            in_block c r w = true ∨ in_hud_row w = true).
  { intros w Hw.
    apply elem_of_app in Hw as [Hw | Hw]; [| apply elem_of_app in Hw as [Hw | Hw]];
      apply list_elem_of_In in Hw.
    - right. right. exact (proj1 (forallb_forall _ _) Fh w Hw).
    - right. left. exact (proj1 (forallb_forall _ _) F2 w Hw).
    - left. exact (proj1 (forallb_forall _ _) F1 w Hw). }
  split; [| split; [discriminate | intros _; repeat split]].
  - rewrite Eh', E2, E1'. by rewrite <- !app_assoc.
  - replace (h ++ p2 ++ p1) with ((h ++ p2) ++ p1 ++ [])
      by (by rewrite app_nil_r, <- app_assoc).
    by apply repainted_app.
  - by apply repainted_app.
  - by apply (hud_repainted_app [] h (p2 ++ p1)).
  - exact Hwhere.
  - intros w gx gy Hw Hgx Hgy Hne1 Hne2.
    destruct (in_block gx gy w) eqn:Hb; [| done]. exfalso.
    destruct (Hwhere w Hw) as [H1 | [H2 | H3]].
    + destruct (in_block_disjoint _ _ _ _ _ Hb H1) as [-> ->]. by apply Hne1.
    + destruct (in_block_disjoint _ _ _ _ _ Hb H2) as [-> ->]. by apply Hne2.
    + rewrite (in_hud_row_outside gx gy w Hgy H3) in Hb. done.
Qed.

(** ** win_animation *)

Lemma attr_only_refl s : attr_only s s.
Proof. by exists []. Qed.

Lemma attr_only_trans s t u : attr_only s t → attr_only t u → attr_only s u.
Proof.
  intros (n1 & E1 & F1) (n2 & E2 & F2). exists (n2 ++ n1). split.
  - by rewrite E2, E1, app_assoc.
  - by rewrite forallb_app, F1, F2.
Qed.

Lemma shown_attr_only bank x y new log :
  bank ≠ 1 → forallb (λ w, w_bank w =? 1) new = true →
  shown bank x y (new ++ log) = shown bank x y log.
Proof.
  intros Hb. induction new as [| w new IH]; [done |].
  cbn [forallb app shown]. intros H. apply andb_true_iff in H as [Hw Hnew].
  apply Z.eqb_eq in Hw. rewrite Hw.
  destruct (Z.eqb_spec 1 bank); [congruence |]. cbn [andb]. by apply IH.
Qed.

Lemma get_tile_palette_range v : 1 ≤ get_tile_palette v ≤ 5.
Proof. unfold get_tile_palette. repeat case_match; lia. Qed.

Lemma win_animation_beats s :
  win_animation s =
  flash_beat 5 (flash_beat 4 (flash_beat 3 (flash_beat 2 (flash_beat 1
    (flash_beat 0 s))))).
Proof.
  unfold win_animation, for_loop.
  change (seqZ 0 (6 - 0)) with [0; 1; 2; 3; 4; 5]. reflexivity.
Qed.

Lemma board_with_VBK_REG v s : board (with_VBK_REG v s) = board s.
Proof. reflexivity. Qed.

Lemma flash_beat_board i s : board (flash_beat i s) = board s.
Proof.
  unfold flash_beat.
  apply (for_loop_ind (λ u, board u = board s)); [| done].
  etrans; [apply board_with_VBK_REG |].
  apply (for_loop_ind (λ u, board u = board s)); [done |].
  intros gy u _ Hu.
  apply (for_loop_ind (λ u, board u = board s)); [done |].
  intros gx w _ Hw.
  destruct (logic_fields _ _ (logic_fill_block (u8 (GRID_X + gx * CELL_W))
    (u8 (GRID_Y + gy * CELL_H))
    (if negb (Z.land i 1 =? 0) then get_tile_palette (cell (board w) gy gx) else 6)
    w)) as (-> & _). done.
Qed.

Lemma flash_beat_painted i s :
  bkg_writes (flash_beat i s) = painted (flash_beat i) s ++ bkg_writes s ∧
  forallb (λ w, w_bank w =? 1) (painted (flash_beat i) s) = true.
Proof. destruct s. split; reflexivity. Qed.

Lemma flash_beat_attrs i s gx gy :
  0 ≤ gx < GRID_SIZE → 0 ≤ gy < GRID_SIZE →
  block_attrs (flash_beat i s) gx gy =
  uniform_block (u8 (if negb (Z.land i 1 =? 0)
                     then get_tile_palette (cell (board s) gy gx) else 6)).
Proof.
  intros Hx Hy. destruct s.
  grid_split Hx; grid_split Hy; reflexivity.
Qed.

Lemma flash_beat_frame i s : frame (flash_beat i s) = (20 + frame s)%nat.
Proof. destruct s. reflexivity. Qed.

Lemma flash_beat_attr_only i s : attr_only s (flash_beat i s).
Proof.
  destruct (flash_beat_painted i s) as [E F].
  exists (painted (flash_beat i) s). split; [exact E | exact F].
Qed.

Lemma beat_palette_code i v :
  0 ≤ i < 6 →
  u8 (if negb (Z.land i 1 =? 0) then get_tile_palette v else 6) = beat_palette i v.
Proof.
  intros Hi. pose proof (get_tile_palette_range v) as Hv.
  assert (i = 0 ∨ i = 1 ∨ i = 2 ∨ i = 3 ∨ i = 4 ∨ i = 5) as Hc by lia.
  unfold beat_palette.
  repeat (destruct Hc as [-> | Hc]; [cbn [Z.land Pos.land Z.eqb negb Z.even];
                                     first [reflexivity | apply u8_small; lia] |]).
  subst. cbn [Z.land Pos.land Z.eqb negb Z.even]. apply u8_small; lia.
Qed.

(** C10. [win_animation] is exactly six beats, numbered 0 to 5.  Beat [i]
    leaves every position of every cell's block on the attribute map at the
    gold palette 6 when [i] is even and at the cell's own palette when [i] is
    odd, so the first beat is gold and the beats alternate.  After the sixth
    beat every cell shows its own palette, which is never 6.  The animation
    leaves the board alone, adds only attribute-map writes to the log, so the
    tile map is unchanged everywhere, and lasts 120 frames. *)
Theorem win_animation_six_beats_then_normal (s : state) :
  win_animation s =
    flash_beat 5 (flash_beat 4 (flash_beat 3 (flash_beat 2 (flash_beat 1
      (flash_beat 0 s))))) ∧
  (∀ i t gx gy,
     0 ≤ i < 6 → 0 ≤ gx < GRID_SIZE → 0 ≤ gy < GRID_SIZE →
     block_attrs (flash_beat i t) gx gy =
     uniform_block (beat_palette i (cell (board t) gy gx))) ∧
  (∀ gx gy,
     0 ≤ gx < GRID_SIZE → 0 ≤ gy < GRID_SIZE →
     block_attrs (win_animation s) gx gy =
       uniform_block (get_tile_palette (cell (board s) gy gx)) ∧
     get_tile_palette (cell (board s) gy gx) ≠ 6) ∧
  board (win_animation s) = board s ∧
  attr_only s (win_animation s) ∧
  (∀ x y, tile_at (win_animation s) x y = tile_at s x y) ∧
  frame (win_animation s) = (frame s + 120)%nat.
Proof.
  assert (Hbeat : ∀ i t gx gy,
            0 ≤ i < 6 → 0 ≤ gx < GRID_SIZE → 0 ≤ gy < GRID_SIZE →
            block_attrs (flash_beat i t) gx gy =
            uniform_block (beat_palette i (cell (board t) gy gx))).
  { intros i t gx gy Hi Hx Hy.
    rewrite flash_beat_attrs by done. by rewrite beat_palette_code. }
  assert (Hattr : attr_only s (win_animation s)).
  { rewrite win_animation_beats.
    repeat (eapply attr_only_trans; [| apply flash_beat_attr_only]).
    apply attr_only_refl. }
  split; [apply win_animation_beats |]. split; [exact Hbeat |].
  split; [| split; [| split; [exact Hattr | split]]].
  - intros gx gy Hx Hy. split.
    + rewrite win_animation_beats, Hbeat by (done || lia).
      rewrite !flash_beat_board. reflexivity.
    + pose proof (get_tile_palette_range (cell (board s) gy gx)). lia.
  - rewrite win_animation_beats. by rewrite !flash_beat_board.
  - intros x y. destruct Hattr as (new & E & F). unfold tile_at.
    rewrite E. by apply shown_attr_only.
  - rewrite win_animation_beats, !flash_beat_frame. lia.
Qed.

(** ** The controller after a win *)

Lemma quiet_after_win_app won evs evs' :
  quiet_after_win won (evs ++ evs') =
  quiet_after_win won evs && quiet_after_win (flag_after won evs) evs'.
Proof.
  revert won. induction evs as [| [r c | |] evs IH]; intros won; cbn; [done | | done..].
  by rewrite IH, andb_assoc.
Qed.

Lemma core_fields s t :
  core s = core t →
  board s = board t ∧ cursor_row s = cursor_row t ∧
  cursor_col s = cursor_col t ∧ game_won s = game_won t.
Proof. unfold core. intros H. by injection H. Qed.

Lemma logic_core s t : logic s = logic t → core s = core t.
Proof.
  intros H. apply logic_fields in H.
  destruct H as (Hb & _ & _ & Hr & Hc & _ & Hg & _).
  unfold core. by rewrite Hb, Hr, Hc, Hg.
Qed.

Lemma core_wait_vbl_done s : core (wait_vbl_done s) = core s.
Proof. reflexivity. Qed.

Lemma core_with_VBK_REG v s : core (with_VBK_REG v s) = core s.
Proof. reflexivity. Qed.

Lemma core_with_input_cooldown v s : core (with_input_cooldown v s) = core s.
Proof. reflexivity. Qed.

Lemma core_with_polls v s : core (with_polls v s) = core s.
Proof. reflexivity. Qed.

Lemma core_with_move_count v s : core (with_move_count v s) = core s.
Proof. reflexivity. Qed.

Lemma core_flash_beat i s : core (flash_beat i s) = core s.
Proof.
  unfold flash_beat.
  apply (for_loop_ind (λ u, core u = core s)); [| done].
  etrans; [apply core_with_VBK_REG |].
  apply (for_loop_ind (λ u, core u = core s)); [done |].
  intros gy u _ Hu.
  apply (for_loop_ind (λ u, core u = core s)); [done |].
  intros gx w _ Hw. etrans; [| exact Hw].
  apply logic_core, logic_fill_block.
Qed.

Lemma core_win_animation s : core (win_animation s) = core s.
Proof. rewrite win_animation_beats. by rewrite !core_flash_beat. Qed.

Lemma core_joypad s : core (joypad s).2 = core s.
Proof. reflexivity. Qed.

Lemma core_draw_cursor gx gy show s : core (draw_cursor gx gy show s) = core s.
Proof. apply logic_core, logic_draw_cursor. Qed.

Lemma with_game_won_fields v s :
  board (with_game_won v s) = board s ∧
  cursor_row (with_game_won v s) = cursor_row s ∧
  cursor_col (with_game_won v s) = cursor_col s ∧
  game_won (with_game_won v s) = v.
Proof. done. Qed.

(** [try_move] either fails and changes nothing or slides the tile and
    leaves the cursor and the won flag alone. *)
Lemma try_move_core r c s :
  ((try_move r c s).1 = 0 ∧ (try_move r c s).2 = s) ∨
  ((try_move r c s).1 = 1 ∧
   core (try_move r c s).2 =
   (slide (board s) (empty_row s) (empty_col s) r c,
    cursor_row s, cursor_col s, game_won s)).
Proof.
  destruct (adjacency_test (empty_row s) (empty_col s) r c) eqn:Ht.
  - right. split; [by rewrite try_move_ret, Ht |].
    rewrite (logic_core _ _ (try_move_logic r c s Ht)).
    by destruct s.
  - left. by rewrite try_move_unfold, Ht.
Qed.

Lemma slide_selected_spec s :
  board_shape (board s) →
  0 ≤ cursor_row s < GRID_SIZE → 0 ≤ cursor_col s < GRID_SIZE →
  let s' := (slide_selected s).1 in
  let evs := (slide_selected s).2 in
  board_shape (board s') ∧
  cursor_row s' = cursor_row s ∧ cursor_col s' = cursor_col s ∧
  (cell (board s) (cursor_row s) (cursor_col s) = EMPTY_TILE →
     evs = [] ∧ game_won s' = game_won s) ∧
  ((game_won s' = game_won s ∧
    (evs = [] ∨ evs = [CallTryMove (cursor_row s) (cursor_col s)])) ∨
   (game_won s' = 1 ∧
    evs = [CallTryMove (cursor_row s) (cursor_col s); SetWon] ∧
    cell (board s') (cursor_row s) (cursor_col s) = EMPTY_TILE)).
Proof.
  intros Hb Hr Hc. unfold slide_selected.
  destruct (Z.eqb_spec (cell (board s) (cursor_row s) (cursor_col s)) EMPTY_TILE)
    as [He | Hne]; cbn [negb].
  { cbn [fst snd].
    destruct (core_fields _ _ (core_with_input_cooldown INPUT_DELAY s))
      as (-> & -> & -> & ->).
    split; [done |]. split; [done |]. split; [done |]. split; [done |].
    left. split; [done | by left]. }
  destruct (try_move_core (cursor_row s) (cursor_col s) s)
    as [[Hm Hs] | [Hm Hcore]];
    destruct (try_move (cursor_row s) (cursor_col s) s) as [mv t];
    cbn [fst snd] in *; subst mv.
  { subst t. change (negb (0 =? 0)) with false. cbn [fst snd].
    destruct (core_fields _ _ (core_with_input_cooldown INPUT_DELAY s))
      as (-> & -> & -> & ->).
    split; [done |]. split; [done |]. split; [done |]. split; [done |].
    left. split; [done | by right]. }
  change (negb (1 =? 0)) with true. cbv iota.
  set (u := draw_cursor (cursor_col t) (cursor_row t) 1 t).
  assert (Hu : core u = core t) by apply core_draw_cursor.
  apply core_fields in Hu. destruct Hu as (Hub & Hur & Huc & Hug).
  injection Hcore as Htb Htr Htc Htg.
  assert (Hshape : board_shape (board u)).
  { rewrite Hub, Htb. by apply slide_shape. }
  assert (Hzero : cell (board u) (cursor_row s) (cursor_col s) = EMPTY_TILE).
  { rewrite Hub, Htb. by apply slide_target. }
  destruct (check_win u =? 0); cbn [negb fst snd].
  - destruct (core_fields _ _ (core_with_input_cooldown INPUT_DELAY u))
      as (-> & -> & -> & ->).
    split; [done |]. split; [congruence |]. split; [congruence |].
    split; [done |]. left. split; [congruence | by right].
  - destruct (core_fields _ _ (core_with_input_cooldown INPUT_DELAY (with_game_won 1 u)))
      as (-> & -> & -> & ->).
    destruct (with_game_won_fields 1 u) as (-> & -> & -> & ->).
    split; [done |]. split; [congruence |]. split; [congruence |].
    split; [done |]. right. done.
Qed.

Lemma move_cursor_eq keys s :
  move_cursor keys s =
  with_input_cooldown INPUT_DELAY
    (show_cursor (nudge_right keys (nudge_left keys (nudge_down keys (nudge_up keys
       (draw_cursor (cursor_col s) (cursor_row s) 0 s)))))).
Proof. reflexivity. Qed.

Lemma cursor_kept_core s t u : core u = core t → cursor_kept s t → cursor_kept s u.
Proof.
  intros H (Hb & Hg & Hr & Hc). apply core_fields in H.
  destruct H as (Eb & Er & Ec & Eg). unfold cursor_kept.
  by rewrite Eb, Er, Ec, Eg.
Qed.

Lemma cursor_kept_nudge keys s t :
  cursor_kept s t →
  cursor_kept s (nudge_up keys t) ∧ cursor_kept s (nudge_down keys t) ∧
  cursor_kept s (nudge_left keys t) ∧ cursor_kept s (nudge_right keys t).
Proof.
  unfold cursor_kept, GRID_SIZE. intros (Hb & Hg & Hr & Hc).
  unfold nudge_up, nudge_down, nudge_left, nudge_right, GRID_SIZE.
  rewrite !Z.gtb_ltb.
  repeat split;
    repeat match goal with
           | |- context [negb ?b] => destruct b; cbn [negb andb]
           | |- context [?a <? ?b] => destruct (Z.ltb_spec a b)
           end;
    try done;
    cbn [cursor_row cursor_col with_cursor_row with_cursor_col];
    rewrite ?u8_small by lia; lia.
Qed.

Lemma move_cursor_kept keys s :
  0 ≤ cursor_row s < GRID_SIZE → 0 ≤ cursor_col s < GRID_SIZE →
  cursor_kept s (move_cursor keys s).
Proof.
  intros Hr Hc. rewrite move_cursor_eq.
  eapply cursor_kept_core; [apply core_with_input_cooldown |].
  unfold show_cursor at 1.
  eapply cursor_kept_core; [apply core_draw_cursor |].
  apply cursor_kept_nudge, cursor_kept_nudge, cursor_kept_nudge, cursor_kept_nudge.
  eapply cursor_kept_core; [apply core_draw_cursor |].
  done.
Qed.

Lemma optional_slide_spec (pressed : bool) s :
  board_shape (board s) →
  0 ≤ cursor_row s < GRID_SIZE → 0 ≤ cursor_col s < GRID_SIZE →
  let s' := (if pressed then slide_selected s else (s, [])).1 in
  let evs := (if pressed then slide_selected s else (s, [])).2 in
  board_shape (board s') ∧
  cursor_row s' = cursor_row s ∧ cursor_col s' = cursor_col s ∧
  (cell (board s) (cursor_row s) (cursor_col s) = EMPTY_TILE →
     evs = [] ∧ game_won s' = game_won s) ∧
  ((game_won s' = game_won s ∧
    (evs = [] ∨ evs = [CallTryMove (cursor_row s) (cursor_col s)])) ∨
   (game_won s' = 1 ∧
    evs = [CallTryMove (cursor_row s) (cursor_col s); SetWon] ∧
    cell (board s') (cursor_row s) (cursor_col s) = EMPTY_TILE)).
Proof.
  intros Hb Hr Hc. destruct pressed; [by apply slide_selected_spec |].
  cbn [fst snd].
  split; [done |]. split; [done |]. split; [done |]. split; [done |].
  left. split; [done | by left].
Qed.

(** One pass through the game loop, entered with the won flag clear: no
    call of [try_move] follows the setting of the flag, even when A and
    SELECT are both held. *)
Lemma game_iteration_spec s :
  board_shape (board s) →
  0 ≤ cursor_row s < GRID_SIZE → 0 ≤ cursor_col s < GRID_SIZE →
  game_won s = 0 →
  board_shape (board (game_iteration s).1) ∧
  0 ≤ cursor_row (game_iteration s).1 < GRID_SIZE ∧
  0 ≤ cursor_col (game_iteration s).1 < GRID_SIZE ∧
  quiet_after_win false (game_iteration s).2 = true ∧
  (flag_after false (game_iteration s).2 = true → game_won (game_iteration s).1 ≠ 0).
Proof.
  intros Hb Hr Hc Hg. unfold game_iteration.
  set (s1 := wait_vbl_done s).
  assert (H1 : core s1 = core s) by apply core_wait_vbl_done.
  apply core_fields in H1. destruct H1 as (E1b & E1r & E1c & E1g).
  destruct (input_cooldown s1 >? 0).
  { cbn [fst snd].
    destruct (core_fields _ _ (core_with_input_cooldown (u8 (input_cooldown s1 - 1)) s1))
      as (-> & -> & -> & ->).
    rewrite E1b, E1r, E1c.
    split; [done |]. split; [done |]. split; [done |]. split; [done |].
    cbn. discriminate. }
  unfold joypad. cbv iota. cbv beta.
  set (keys := u8 (joypad_at (polls s1))).
  set (s2 := with_polls (S (polls s1)) s1).
  assert (H2 : core s2 = core s1) by apply core_with_polls.
  apply core_fields in H2. destruct H2 as (E2b & E2r & E2c & E2g).
  set (s3 := if negb (Z.land keys (Z.lor (Z.lor (Z.lor J_UP J_DOWN) J_LEFT) J_RIGHT) =? 0)
             then move_cursor keys s2 else s2).
  assert (H3 : cursor_kept s2 s3).
  { unfold s3. destruct (negb _).
    - apply move_cursor_kept; congruence.
    - unfold cursor_kept. repeat split; congruence || lia. }
  destruct H3 as (E3b & E3g & H3r & H3c).
  assert (Hb3 : board_shape (board s3)) by congruence.
  pose proof (optional_slide_spec (negb (Z.land keys J_A =? 0)) s3 Hb3 H3r H3c)
    as (Hb4 & E4r & E4c & _ & HA).
  destruct (if negb (Z.land keys J_A =? 0) then slide_selected s3 else (s3, []))
    as [s4 evs_a]. cbn [fst snd] in Hb4, E4r, E4c, HA.
  assert (H4r : 0 ≤ cursor_row s4 < GRID_SIZE) by congruence.
  assert (H4c : 0 ≤ cursor_col s4 < GRID_SIZE) by congruence.
  pose proof (optional_slide_spec (negb (Z.land keys J_SELECT =? 0)) s4 Hb4 H4r H4c)
    as (Hb5 & E5r & E5c & Hempty & HS).
  destruct (if negb (Z.land keys J_SELECT =? 0) then slide_selected s4 else (s4, []))
    as [s5 evs_s]. cbn [fst snd] in Hb5, E5r, E5c, Hempty, HS |- *.
  split; [done |]. split; [congruence |]. split; [congruence |].
  rewrite quiet_after_win_app.
  destruct HA as [[Eg4 HA] | (Eg4 & -> & Hzero)].
  - assert (Hflag : flag_after false evs_a = false) by (by destruct HA as [-> | ->]).
    assert (Hquiet : quiet_after_win false evs_a = true) by (by destruct HA as [-> | ->]).
    rewrite Hquiet. cbn [andb]. rewrite Hflag.
    assert (Hfa : ∀ evs, flag_after false (evs_a ++ evs) = flag_after false evs).
    { intros evs. by destruct HA as [-> | ->]. }
    rewrite Hfa.
    destruct HS as [[Eg5 HS] | (Eg5 & -> & _)].
    + split; [by destruct HS as [-> | ->] |].
      by destruct HS as [-> | ->].
    + split; [done |]. intros _. rewrite Eg5. done.
  - rewrite E4r, E4c in Hempty. destruct (Hempty Hzero) as [-> Eg5].
    split; [done |]. intros _. rewrite Eg5, Eg4. done.
Qed.

Lemma logic_draw_border s : logic (draw_border s) = logic s.
Proof.
  assert (Hstep : ∀ x y v x' y' v' u,
            logic u = logic s →
            logic (set_bkg_tile_xy x' y' v' (set_bkg_tile_xy x y v u)) = logic s).
  { intros. done. }
  unfold draw_border. cbv zeta.
  apply (for_loop_ind (λ u, logic u = logic s)); [| intros; by apply Hstep].
  apply (for_loop_ind (λ u, logic u = logic s)); [| intros; by apply Hstep].
  do 4 (etrans; [apply logic_set_bkg_tile_xy |]).
  etrans; [apply logic_with_VBK_REG |].
  apply (for_loop_ind (λ u, logic u = logic s)); [| intros; by apply Hstep].
  apply (for_loop_ind (λ u, logic u = logic s)); [| intros; by apply Hstep].
  apply logic_with_VBK_REG.
Qed.

Lemma logic_draw_board s : logic (draw_board s) = logic s.
Proof.
  unfold draw_board.
  apply (for_loop_ind (λ u, logic u = logic s)); [done |].
  intros gy u _ Hu.
  apply (for_loop_ind (λ u, logic u = logic s)); [done |].
  intros gx w _ Hw. by rewrite logic_draw_cell.
Qed.

Lemma logic_clear_screen s : logic (clear_screen s) = logic s.
Proof.
  unfold clear_screen.
  apply (for_loop_ind (λ u, logic u = logic s)); [done |].
  intros cy u _ Hu.
  apply (for_loop_ind (λ u, logic u = logic s)); [done |].
  intros cx w _ Hw. cbn zeta.
  etrans; [apply logic_with_VBK_REG |].
  etrans; [apply logic_set_bkg_tile_xy |].
  etrans; [apply logic_with_VBK_REG |].
  etrans; [apply logic_set_bkg_tile_xy |]. done.
Qed.

Lemma new_session_eq s :
  new_session s =
  show_cursor (draw_hud (draw_board (draw_border (clear_screen
    (shuffle_board (init_board (reset_session s))))))).
Proof. reflexivity. Qed.

Lemma init_board_core s :
  cursor_row (init_board s) = cursor_row s ∧
  cursor_col (init_board s) = cursor_col s ∧
  game_won (init_board s) = game_won s.
Proof. by destruct s. Qed.

Lemma moved_core r c s :
  cursor_row (moved r c s) = cursor_row s ∧
  cursor_col (moved r c s) = cursor_col s ∧
  game_won (moved r c s) = game_won s.
Proof. by destruct s. Qed.

Lemma shuffle_steps_core n s :
  inv s →
  inv (shuffle_steps n s).1.1 ∧
  cursor_row (shuffle_steps n s).1.1 = cursor_row s ∧
  cursor_col (shuffle_steps n s).1.1 = cursor_col s ∧
  game_won (shuffle_steps n s).1.1 = game_won s.
Proof.
  intros Hinv. unfold shuffle_steps.
  apply (for_loop_ind (λ st, inv st.1.1 ∧ cursor_row st.1.1 = cursor_row s ∧
                             cursor_col st.1.1 = cursor_col s ∧
                             game_won st.1.1 = game_won s)); [done |].
  intros i [[t last_dir] g] _ (Ht & Er & Ec & Eg). cbn [fst] in *.
  split; [by apply (shuffle_body_inv i (t, last_dir, g)) |].
  destruct (shuffle_body_puzzle i t last_dir g) as [-> | (tr & tc & _ & _ & _ & ->)];
    [apply Ht.. | done |].
  destruct (moved_core tr tc t) as (-> & -> & ->). done.
Qed.

Lemma new_session_spec s :
  board_shape (board s) →
  board_shape (board (new_session s)) ∧
  cursor_row (new_session s) = 0 ∧ cursor_col (new_session s) = 0 ∧
  game_won (new_session s) = 0.
Proof.
  intros Hb. rewrite new_session_eq.
  set (r := reset_session s).
  assert (Hr : board r = board s ∧ cursor_row r = 0 ∧ cursor_col r = 0 ∧ game_won r = 0)
    by (by destruct s).
  destruct Hr as (Erb & Err & Erc & Erg).
  assert (Hi : inv (init_board r)) by (apply init_board_inv; congruence).
  destruct (init_board_core r) as (Eir & Eic & Eig).
  destruct (shuffle_steps_core 200 (init_board r) Hi) as (Hs & Esr & Esc & Esg).
  rewrite <- shuffle_board_steps in Hs, Esr, Esc, Esg.
  set (t := shuffle_board (init_board r)) in *.
  assert (Hcore : core (show_cursor (draw_hud (draw_board (draw_border (clear_screen t)))))
                  = core t).
  { unfold show_cursor. etrans; [apply core_draw_cursor |].
    apply logic_core.
    etrans; [apply logic_draw_hud |]. etrans; [apply logic_draw_board |].
    etrans; [apply logic_draw_border |]. apply logic_clear_screen. }
  apply core_fields in Hcore. destruct Hcore as (-> & -> & -> & ->).
  split; [apply Hs |]. split; [congruence |]. split; congruence.
Qed.

Lemma main_step_spec won c :
  main_ok won c →
  quiet_after_win won (main_step c).2 = true ∧
  main_ok (flag_after won (main_step c).2) (main_step c).1.
Proof.
  destruct c as [p s]. intros (Hb & Hr & Hc & Hflag). cbn [fst snd] in *.
  unfold main_step. destruct p.
  - destruct (Z.eqb_spec (game_won s) 0) as [Hg | Hg].
    + rewrite (Hflag eq_refl Hg).
      destruct (game_iteration_spec s Hb Hr Hc Hg) as (Hb' & Hr' & Hc' & Hq & Hf).
      destruct (game_iteration s) as [s' evs]. cbn [fst snd] in *.
      split; [done |]. unfold main_ok. cbn [fst snd].
      split; [done |]. split; [done |]. split; [done |].
      intros _ Hg'. destruct (flag_after false evs); [by destruct Hf | done].
    + cbn [fst snd flag_after quiet_after_win]. split; [done |].
      destruct (core_fields _ _ (core_win_animation s)) as (Eb & Er & Ec & _).
      unfold main_ok. cbn [fst snd]. rewrite Eb, Er, Ec.
      split; [done |]. split; [done |]. split; [done |]. discriminate.
  - unfold joypad. cbv iota. cbv beta.
    set (t := with_polls _ (wait_vbl_done s)).
    assert (Ht : core t = core s) by reflexivity.
    apply core_fields in Ht. destruct Ht as (Eb & Er & Ec & _).
    destruct (negb _); cbn [fst snd flag_after quiet_after_win];
      (split; [done |]); unfold main_ok; cbn [fst snd]; rewrite Eb, Er, Ec;
      (split; [done |]); (split; [done |]); (split; [done |]); discriminate.
  - unfold joypad. cbv iota. cbv beta.
    set (t := with_polls _ s).
    assert (Ht : core t = core s) by reflexivity.
    apply core_fields in Ht. destruct Ht as (Eb & Er & Ec & _).
    destruct (negb _); cbn [fst snd flag_after quiet_after_win];
      (split; [done |]); unfold main_ok; cbn [fst snd].
    + destruct (core_fields _ _ (core_wait_vbl_done t)) as (-> & -> & -> & _).
      rewrite Eb, Er, Ec.
      split; [done |]. split; [done |]. split; [done |]. discriminate.
    + destruct (new_session_spec t) as (Hb' & -> & -> & _); [congruence |].
      unfold GRID_SIZE. split; [done |]. split; [lia |]. split; [lia | done].
Qed.

Lemma main_run_quiet fuel : ∀ won c,
  main_ok won c → quiet_after_win won (main_run fuel c).2 = true.
Proof.
  induction fuel as [| fuel IH]; intros won c Hok; [done |].
  cbn [main_run].
  destruct (main_step_spec won c Hok) as [Hq Hok'].
  destruct (main_step c) as [c' evs]. cbn [fst snd] in *.
  specialize (IH _ _ Hok').
  destruct (main_run fuel c') as [c'' evs']. cbn [fst snd] in *.
  by rewrite quiet_after_win_app, Hq, IH.
Qed.

(** C7. Whatever the joypad returns, also on ticks where A and SELECT are
    both held, and however long [main] runs: once [game_won] has been set the
    controller calls [try_move] no more until the next session has been set
    up by the reinitialisation at the top of the outer loop. *)
Theorem no_try_move_after_win (fuel : nat) (s : state) :
  board_shape (board s) →
  quiet_after_win false (main fuel s).2 = true.
Proof.
  intros Hb. unfold main.
  destruct (new_session_spec s Hb) as (Hb' & Er & Ec & Eg).
  assert (Hok : main_ok false (GameLoop, new_session s)).
  { unfold main_ok, GRID_SIZE. cbn [fst snd]. rewrite Er, Ec.
    split; [done |]. split; [lia |]. split; [lia | done]. }
  pose proof (main_run_quiet fuel false _ Hok) as Hq.
  destruct (main_run fuel (GameLoop, new_session s)) as [c evs].
  cbn [fst snd] in *. exact Hq.
Qed.


(** * Further properties of the code *)

(** ** init_board, try_move and shuffle_board *)

(** X1. Whatever the 4x4 board held before, [init_board] leaves the solved
    arrangement with the empty cell cached at (3,3), so that [check_win]
    returns 1 right after it, and touches nothing but the puzzle. *)
Theorem init_board_solves (s : state) :
  board_shape (board s) →
  board (init_board s) = solved_board ∧
  empty_row (init_board s) = 3 ∧ empty_col (init_board s) = 3 ∧
  check_win (init_board s) = 1 ∧
  outside_puzzle (init_board s) = outside_puzzle s.
Proof.
  intros Hb. destruct s as [b ? ? ? ? ? ? ? ? ? ? ? ?]. simpl in Hb.
  open_board b Hb. repeat split; reflexivity.
Qed.

(** X2. A successful slide can be taken back: after [try_move] has moved the
    tile of [(r, c)], [try_move] at the old empty cell succeeds and restores
    the board and the cached empty position; the counter has then been
    incremented twice. *)
Theorem try_move_undo (s : state) (r c : Z) :
  inv s → 0 ≤ r < GRID_SIZE → 0 ≤ c < GRID_SIZE →
  (try_move r c s).1 = 1 →
  let s1 := (try_move r c s).2 in
  let s2 := (try_move (empty_row s) (empty_col s) s1).2 in
  (try_move (empty_row s) (empty_col s) s1).1 = 1 ∧
  board s2 = board s ∧ empty_row s2 = empty_row s ∧ empty_col s2 = empty_col s ∧
  move_count s2 = u16 (u16 (move_count s + 1) + 1).
Proof.
  intros Hinv Hr Hc Hret s1 s2. destruct Hinv as [Hb Hp Her Hec He].
  rewrite try_move_ret in Hret.
  destruct (adjacency_test (empty_row s) (empty_col s) r c) eqn:Ht; [| done].
  pose proof (proj1 (adjacency_test_manhattan _ _ _ _ Her Hec Hr Hc) Ht) as Hm.
  pose proof (try_move_logic r c s Ht) as Hl1. fold s1 in Hl1.
  apply logic_fields in Hl1.
  destruct Hl1 as (Hb1 & Hr1 & Hc1 & _ & _ & Hm1 & _).
  change (board s1 = slide (board s) (empty_row s) (empty_col s) r c) in Hb1.
  change (empty_row s1 = r) in Hr1. change (empty_col s1 = c) in Hc1.
  change (move_count s1 = u16 (move_count s + 1)) in Hm1.
  assert (Ht' : adjacency_test (empty_row s1) (empty_col s1)
                  (empty_row s) (empty_col s) = true).
  { rewrite Hr1, Hc1. apply adjacency_test_manhattan; [done..|].
    unfold manhattan in *. lia. }
  pose proof (try_move_logic (empty_row s) (empty_col s) s1 Ht') as Hl2.
  fold s2 in Hl2. apply logic_fields in Hl2.
  destruct Hl2 as (Hb2 & Hr2 & Hc2 & _ & _ & Hm2 & _).
  change (board s2 = slide (board s1) (empty_row s1) (empty_col s1)
                       (empty_row s) (empty_col s)) in Hb2.
  change (empty_row s2 = empty_row s) in Hr2.
  change (empty_col s2 = empty_col s) in Hc2.
  change (move_count s2 = u16 (move_count s1 + 1)) in Hm2.
  split; [by rewrite try_move_ret, Ht' |].
  split; [| split; [done | split; [done | by rewrite Hm2, Hm1]]].
  rewrite Hb2, Hb1, Hr1, Hc1.
  apply slide_back; [done..| by apply manhattan_1_ne | done].
Qed.

Lemma moved_outside_puzzle r c s : outside_puzzle (moved r c s) = outside_puzzle s.
Proof. by destruct s. Qed.

(** X3. The shuffle works on the puzzle alone: after any number of
    iterations the cursor, the move counter, the won flag, the cooldown, the
    seed and the display log are what they were, and the empty cell is still
    in the grid.  Shuffle moves are not counted and not drawn. *)
Theorem shuffle_touches_only_puzzle (s : state) (n : Z) :
  0 ≤ empty_row s < GRID_SIZE → 0 ≤ empty_col s < GRID_SIZE →
  outside_puzzle (shuffle_steps n s).1.1 = outside_puzzle s ∧
  outside_puzzle (shuffle_board s) = outside_puzzle s ∧
  0 ≤ empty_row (shuffle_board s) < GRID_SIZE ∧
  0 ≤ empty_col (shuffle_board s) < GRID_SIZE.
Proof.
  intros Hr Hc.
  assert (H : ∀ m, outside_puzzle (shuffle_steps m s).1.1 = outside_puzzle s ∧
                   0 ≤ empty_row (shuffle_steps m s).1.1 < GRID_SIZE ∧
                   0 ≤ empty_col (shuffle_steps m s).1.1 < GRID_SIZE).
  { intros m. unfold shuffle_steps.
    apply (for_loop_ind (λ st, outside_puzzle st.1.1 = outside_puzzle s ∧
                               0 ≤ empty_row st.1.1 < GRID_SIZE ∧
                               0 ≤ empty_col st.1.1 < GRID_SIZE)); [done |].
    intros i [[t last_dir] g] _ (Ho & Htr & Htc). cbn [fst] in *.
    pose proof (shuffle_body_step i t last_dir g Htr Htc) as [Hrange _].
    cbn zeta in Hrange. split; [| exact Hrange].
    destruct (shuffle_body_puzzle i t last_dir g Htr Htc)
      as [-> | (tr & tc & _ & _ & _ & ->)]; [done |].
    by rewrite moved_outside_puzzle. }
  split; [apply H |]. rewrite shuffle_board_steps. apply H.
Qed.

(** A loop run from two related states. *)
Lemma for_loop_ind2 {T : Type} (R : T → T → Prop) lo hi (body : Z → T → T) s t :
  R s t → (∀ i a b, R a b → R (body i a) (body i b)) →
  R (for_loop lo hi body s) (for_loop lo hi body t).
Proof.
  intros Hst Hbody. unfold for_loop.
  revert s t Hst. induction (seqZ lo (hi - lo)) as [| i l IH]; intros s t Hst.
  - done.
  - simpl. apply IH. by apply Hbody.
Qed.

(** The shuffle of two states with the same puzzle and the same seed gives
    the same puzzle. *)
Lemma shuffle_steps_same n s t :
  0 ≤ empty_row s < GRID_SIZE → 0 ≤ empty_col s < GRID_SIZE →
  puzzle s = puzzle t → seed_counter s = seed_counter t →
  puzzle (shuffle_steps n s).1.1 = puzzle (shuffle_steps n t).1.1.
Proof.
  intros Hr Hc Hp Hseed. unfold shuffle_steps.
  apply (for_loop_ind2
           (λ a b, 0 ≤ empty_row a.1.1 < GRID_SIZE ∧ 0 ≤ empty_col a.1.1 < GRID_SIZE ∧
                   puzzle a.1.1 = puzzle b.1.1 ∧ a.1.2 = b.1.2 ∧ a.2 = b.2)).
  - unfold shuffle_entry. cbn [fst snd]. by rewrite Hseed.
  - intros i [[a la] ga] [[b lb] gb] (Har & Hac & Hab & Hl & Hg).
    cbn [fst snd] in *. subst lb gb.
    pose proof (shuffle_body_step i a la ga Har Hac) as [Hrange _].
    cbn zeta in Hrange. destruct Hrange as [Hr' Hc'].
    split; [done |]. split; [done |].
    assert (Heq : empty_row b = empty_row a ∧ empty_col b = empty_col a).
    { unfold puzzle in Hab. by injection Hab as _ -> ->. }
    destruct Heq as [Ebr Ebc].
    rewrite (shuffle_body_unfold i a la ga), (shuffle_body_unfold i b la ga)
      by congruence.
    rewrite Ebr, Ebc.
    destruct (Z.lxor (drawn ga) la =? 1); [done |].
    destruct (dir_inside (drawn ga) (empty_row a) (empty_col a)); [| done].
    cbn [fst snd]. split; [| done]. by apply moved_puzzle.
Qed.

Lemma slide_selected_unfold s :
  slide_selected s =
  if cell (board s) (cursor_row s) (cursor_col s) =? EMPTY_TILE then
    (with_input_cooldown INPUT_DELAY s, [])
  else if adjacency_test (empty_row s) (empty_col s) (cursor_row s) (cursor_col s) then
    if check_win (show_cursor (try_move (cursor_row s) (cursor_col s) s).2) =? 0 then
      (with_input_cooldown INPUT_DELAY
         (show_cursor (try_move (cursor_row s) (cursor_col s) s).2),
       [CallTryMove (cursor_row s) (cursor_col s)])
    else
      (with_input_cooldown INPUT_DELAY
         (with_game_won 1 (show_cursor (try_move (cursor_row s) (cursor_col s) s).2)),
       [CallTryMove (cursor_row s) (cursor_col s); SetWon])
  else
    (with_input_cooldown INPUT_DELAY s, [CallTryMove (cursor_row s) (cursor_col s)]).
Proof.
  unfold slide_selected.
  destruct (cell (board s) (cursor_row s) (cursor_col s) =? EMPTY_TILE);
    cbn [negb]; [reflexivity |].
  pose proof (try_move_ret (cursor_row s) (cursor_col s) s) as Hret.
  pose proof (try_move_unfold (cursor_row s) (cursor_col s) s) as Hun.
  destruct (try_move (cursor_row s) (cursor_col s) s) as [mv t].
  cbn [fst snd] in *.
  destruct (adjacency_test (empty_row s) (empty_col s) (cursor_row s) (cursor_col s)).
  - subst mv. change (negb (1 =? 0)) with true. cbv iota.
    unfold show_cursor. by destruct (check_win _ =? 0).
  - injection Hun as -> ->. reflexivity.
Qed.

(** ** The game loop, unfolded *)

Lemma game_iteration_unfold s :
  game_iteration s =
  if input_cooldown s >? 0 then
    (with_input_cooldown (u8 (input_cooldown s - 1)) (wait_vbl_done s), [])
  else
    let keys := u8 (joypad_at (polls s)) in
    let s2 := with_polls (S (polls s)) (wait_vbl_done s) in
    let s3 := if pressed keys J_DIRECTIONS then move_cursor keys s2 else s2 in
    let a := if pressed keys J_A then slide_selected s3 else (s3, []) in
    let b := if pressed keys J_SELECT then slide_selected a.1 else (a.1, []) in
    (b.1, a.2 ++ b.2).
Proof.
  unfold game_iteration, joypad, pressed, J_DIRECTIONS.
  change (input_cooldown (wait_vbl_done s)) with (input_cooldown s).
  change (polls (wait_vbl_done s)) with (polls s).
  destruct (input_cooldown s >? 0); [reflexivity |].
  cbv zeta. cbv iota. cbv beta.
  destruct (if negb (Z.land (u8 (joypad_at (polls s))) J_A =? 0) then _ else _)
    as [s4 evs_a].
  cbn [fst snd].
  by destruct (if negb (Z.land (u8 (joypad_at (polls s))) J_SELECT =? 0) then _ else _).
Qed.

(** What every primitive step of the game loop keeps, the loop keeps. *)
Lemma game_iteration_preserves (P : state → Prop) s :
  P s →
  (∀ u, P u → P (wait_vbl_done u)) →
  (∀ v u, P u → P (with_input_cooldown v u)) →
  (∀ v u, P u → P (with_polls v u)) →
  (∀ k u, P u → P (move_cursor k u)) →
  (∀ u, P u → P (slide_selected u).1) →
  P (game_iteration s).1.
Proof.
  intros Hs Hwait Hcool Hpoll Hmove Hslide. rewrite game_iteration_unfold.
  destruct (input_cooldown s >? 0); cbn [fst]; [by apply Hcool, Hwait |].
  cbv zeta.
  set (s2 := with_polls _ _). assert (H2 : P s2) by (by apply Hpoll, Hwait).
  set (s3 := if pressed _ J_DIRECTIONS then _ else _).
  assert (H3 : P s3).
  { unfold s3. destruct (pressed _ J_DIRECTIONS); [by apply Hmove | done]. }
  clearbody s3.
  set (a := if pressed _ J_A then _ else _).
  assert (H4 : P a.1).
  { unfold a. destruct (pressed _ J_A); [by apply Hslide | done]. }
  clearbody a.
  destruct (pressed _ J_SELECT); cbn [fst]; [by apply Hslide | done].
Qed.

Lemma main_step_preserves (P : state → Prop) c :
  P c.2 →
  (∀ u, P u → P (game_iteration u).1) →
  (∀ u, P u → P (win_animation u)) →
  (∀ u, P u → P (wait_vbl_done u)) →
  (∀ v u, P u → P (with_polls v u)) →
  (∀ u, P u → P (new_session u)) →
  P (main_step c).1.2.
Proof.
  destruct c as [p s]. cbn [snd]. intros Hs Hgame Hwin Hwait Hpoll Hnew.
  unfold main_step, joypad. destruct p.
  - destruct (game_won s =? 0).
    + specialize (Hgame s Hs). by destruct (game_iteration s).
    + by apply Hwin.
  - cbv zeta. cbv iota. cbv beta.
    change (polls (wait_vbl_done s)) with (polls s).
    destruct (negb _); cbn [fst snd]; by apply Hpoll, Hwait.
  - cbv zeta. cbv iota. cbv beta.
    destruct (negb _); cbn [fst snd].
    + by apply Hwait, Hpoll.
    + by apply Hnew, Hpoll.
Qed.

Lemma move_cursor_preserves (P : state → Prop) keys s :
  P s →
  (∀ gx gy show u, P u → P (draw_cursor gx gy show u)) →
  (∀ v u, P u → P (with_cursor_row v u)) →
  (∀ v u, P u → P (with_cursor_col v u)) →
  (∀ v u, P u → P (with_input_cooldown v u)) →
  P (move_cursor keys s).
Proof.
  intros Hs Hdraw Hrow Hcol Hcool. rewrite move_cursor_eq.
  apply Hcool. unfold show_cursor. apply Hdraw.
  unfold nudge_right. destruct (_ && _); [apply Hcol |];
    (unfold nudge_left; destruct (_ && _); [apply Hcol |]);
    (unfold nudge_down; destruct (_ && _); [apply Hrow |]);
    (unfold nudge_up; destruct (_ && _); [apply Hrow |]);
    by apply Hdraw.
Qed.

Lemma slide_selected_preserves (P : state → Prop) s :
  P s →
  (∀ r c u, P u → P (try_move r c u).2) →
  (∀ gx gy show u, P u → P (draw_cursor gx gy show u)) →
  (∀ v u, P u → P (with_game_won v u)) →
  (∀ v u, P u → P (with_input_cooldown v u)) →
  P (slide_selected s).1.
Proof.
  intros Hs Htry Hdraw Hwon Hcool. rewrite slide_selected_unfold.
  destruct (_ =? EMPTY_TILE); cbn [fst]; [by apply Hcool |].
  destruct (adjacency_test _ _ _ _); [| by apply Hcool].
  unfold show_cursor.
  destruct (check_win _ =? 0); cbn [fst]; apply Hcool.
  - by apply Hdraw, Htry.
  - by apply Hwon, Hdraw, Htry.
Qed.

Lemma logic_game_vars s t : logic s = logic t → game_vars s = game_vars t.
Proof.
  intros H. apply logic_fields in H.
  destruct H as (E1 & E2 & E3 & E4 & E5 & E6 & E7 & E8 & E9 & _).
  unfold game_vars. by rewrite E1, E2, E3, E4, E5, E6, E7, E8, E9.
Qed.

Lemma game_vars_seed s t : game_vars s = game_vars t → seed_counter s = seed_counter t.
Proof. unfold game_vars. intros H. by injection H. Qed.

Lemma try_move_seed r c s : seed_counter (try_move r c s).2 = seed_counter s.
Proof.
  destruct (adjacency_test (empty_row s) (empty_col s) r c) eqn:Ht.
  - rewrite (game_vars_seed _ _ (logic_game_vars _ _ (try_move_logic r c s Ht))).
    by destruct s.
  - by rewrite try_move_unfold, Ht.
Qed.

Lemma draw_cursor_seed gx gy show s :
  seed_counter (draw_cursor gx gy show s) = seed_counter s.
Proof. apply game_vars_seed, logic_game_vars, logic_draw_cursor. Qed.

Lemma game_iteration_seed s : seed_counter (game_iteration s).1 = seed_counter s.
Proof.
  apply (game_iteration_preserves (λ u, seed_counter u = seed_counter s));
    [done | done | done | done | |].
  - intros k u Hu.
    apply (move_cursor_preserves (λ w, seed_counter w = seed_counter s));
      [done | | done..].
    intros gx gy show w Hw. by rewrite draw_cursor_seed.
  - intros u Hu.
    apply (slide_selected_preserves (λ w, seed_counter w = seed_counter s));
      [done | | | done..].
    + intros r c w Hw. by rewrite try_move_seed.
    + intros gx gy show w Hw. by rewrite draw_cursor_seed.
Qed.

Lemma game_vars_flash_beat i s : game_vars (flash_beat i s) = game_vars s.
Proof.
  unfold flash_beat.
  apply (for_loop_ind (λ u, game_vars u = game_vars s)); [| done].
  etrans; [apply (logic_game_vars _ _ (logic_with_VBK_REG 0 _)) |].
  apply (for_loop_ind (λ u, game_vars u = game_vars s)); [done |].
  intros gy u _ Hu.
  apply (for_loop_ind (λ u, game_vars u = game_vars s)); [done |].
  intros gx w _ Hw. etrans; [| exact Hw].
  apply logic_game_vars, logic_fill_block.
Qed.

Lemma game_vars_win_animation s : game_vars (win_animation s) = game_vars s.
Proof. rewrite win_animation_beats. by rewrite !game_vars_flash_beat. Qed.

Lemma reset_session_fields s :
  board (reset_session s) = board s ∧ seed_counter (reset_session s) = seed_counter s.
Proof. by destruct s. Qed.

(** The puzzle of a new session is the shuffle of the solved board. *)
Lemma new_session_puzzle s :
  puzzle (new_session s) = puzzle (shuffle_board (init_board (reset_session s))) ∧
  seed_counter (new_session s) = seed_counter (shuffle_board (init_board (reset_session s))).
Proof.
  rewrite new_session_eq.
  set (t := shuffle_board (init_board (reset_session s))).
  assert (Hl : logic (show_cursor (draw_hud (draw_board (draw_border (clear_screen t)))))
               = logic t).
  { unfold show_cursor. etrans; [apply logic_draw_cursor |].
    etrans; [apply logic_draw_hud |]. etrans; [apply logic_draw_board |].
    etrans; [apply logic_draw_border |]. apply logic_clear_screen. }
  split; [by apply logic_puzzle | by apply game_vars_seed, logic_game_vars].
Qed.

Lemma outside_puzzle_seed s t :
  outside_puzzle s = outside_puzzle t → seed_counter s = seed_counter t.
Proof. unfold outside_puzzle. intros H. by injection H. Qed.

Lemma new_session_seed s :
  board_shape (board s) → seed_counter (new_session s) = seed_counter s.
Proof.
  intros Hb. rewrite (proj2 (new_session_puzzle s)).
  destruct (reset_session_fields s) as [Erb Ers].
  assert (Hrb : board_shape (board (reset_session s))) by congruence.
  destruct (init_board_solves (reset_session s) Hrb) as (_ & Er & Ec & _ & Ho).
  destruct (shuffle_touches_only_puzzle (init_board (reset_session s)) 0)
    as (_ & Hs & _); [rewrite Er; done | rewrite Ec; done |].
  rewrite (outside_puzzle_seed _ _ Hs), (outside_puzzle_seed _ _ Ho). done.
Qed.

Lemma new_session_same s t :
  board_shape (board s) → board_shape (board t) →
  seed_counter s = seed_counter t →
  puzzle (new_session s) = puzzle (new_session t).
Proof.
  intros Hs Ht Hseed.
  rewrite (proj1 (new_session_puzzle s)), (proj1 (new_session_puzzle t)).
  rewrite !shuffle_board_steps.
  destruct (reset_session_fields s) as [Esb Ess].
  destruct (reset_session_fields t) as [Etb Ets].
  assert (Hsb : board_shape (board (reset_session s))) by congruence.
  assert (Htb : board_shape (board (reset_session t))) by congruence.
  destruct (init_board_solves _ Hsb) as (Bs & Rs & Cs & _ & Os).
  destruct (init_board_solves _ Htb) as (Bt & Rt & Ct & _ & Ot).
  apply shuffle_steps_same.
  - rewrite Rs. done.
  - rewrite Cs. done.
  - unfold puzzle. by rewrite Bs, Rs, Cs, Bt, Rt, Ct.
  - rewrite (outside_puzzle_seed _ _ Os), (outside_puzzle_seed _ _ Ot). congruence.
Qed.

Lemma draw_cursor_board gx gy show s : board (draw_cursor gx gy show s) = board s.
Proof.
  by destruct (logic_fields _ _ (logic_draw_cursor gx gy show s)) as (-> & _).
Qed.

Lemma try_move_shape r c s :
  board_shape (board s) → board_shape (board (try_move r c s).2).
Proof.
  intros Hb. destruct (adjacency_test (empty_row s) (empty_col s) r c) eqn:Ht.
  - destruct (logic_fields _ _ (try_move_logic r c s Ht)) as (-> & _).
    destruct s. cbn [board moved with_board with_empty_row with_empty_col] in *.
    by apply slide_shape.
  - by rewrite try_move_unfold, Ht.
Qed.

Lemma game_iteration_shape s :
  board_shape (board s) → board_shape (board (game_iteration s).1).
Proof.
  intros Hb.
  apply (game_iteration_preserves (λ u, board_shape (board u)));
    [done | done | done | done | |].
  - intros k u Hu.
    apply (move_cursor_preserves (λ w, board_shape (board w))); [done | | done..].
    intros gx gy show w Hw. by rewrite draw_cursor_board.
  - intros u Hu.
    apply (slide_selected_preserves (λ w, board_shape (board w))); [done | | | done..].
    + intros r c w Hw. by apply try_move_shape.
    + intros gx gy show w Hw. by rewrite draw_cursor_board.
Qed.

Lemma game_vars_board s t : game_vars s = game_vars t → board s = board t.
Proof. unfold game_vars. intros H. by injection H. Qed.

Lemma main_step_seed c :
  board_shape (board c.2) →
  board_shape (board (main_step c).1.2) ∧
  seed_counter (main_step c).1.2 = seed_counter c.2.
Proof.
  intros Hb.
  apply (main_step_preserves
           (λ u, board_shape (board u) ∧ seed_counter u = seed_counter c.2));
    [done | | | done | done |].
  - intros u [Hu Eu]. split; [by apply game_iteration_shape |].
    by rewrite game_iteration_seed.
  - intros u [Hu Eu].
    pose proof (game_vars_win_animation u) as E.
    rewrite (game_vars_board _ _ E), (game_vars_seed _ _ E). done.
  - intros u [Hu Eu]. split; [by apply new_session_spec |].
    by rewrite new_session_seed.
Qed.

Lemma main_run_seed fuel : ∀ c,
  board_shape (board c.2) →
  board_shape (board (main_run fuel c).1.2) ∧
  seed_counter (main_run fuel c).1.2 = seed_counter c.2.
Proof.
  induction fuel as [| fuel IH]; intros c Hb; [done |].
  cbn [main_run].
  destruct (main_step_seed c Hb) as [Hb' Es].
  destruct (main_step c) as [c' evs]. cbn [fst snd] in *.
  destruct (IH c' Hb') as [Hb'' Es'].
  destruct (main_run fuel c') as [c'' evs']. cbn [fst snd] in *.
  split; [done | congruence].
Qed.

(** X4. [main] never writes [seed_counter]: however long it runs and
    whatever the player does, the seed is the one the run started with, so a
    session set up at any later point starts from the very scramble of the
    first session. *)
Theorem every_session_same_scramble (fuel : nat) (s : state) :
  board_shape (board s) →
  seed_counter (main fuel s).1.2 = seed_counter s ∧
  puzzle (new_session (main fuel s).1.2) = puzzle (new_session s).
Proof.
  intros Hb. unfold main.
  destruct (new_session_spec s Hb) as (Hb' & _).
  destruct (main_run_seed fuel (GameLoop, new_session s) Hb') as [Hb'' Es].
  destruct (main_run fuel (GameLoop, new_session s)) as [c evs].
  cbn [fst snd] in *. rewrite new_session_seed in Es by done.
  split; [done |]. by apply new_session_same.
Qed.

(** ** Cursor movement *)

Lemma nudge_up_fields keys t :
  cursor_row (nudge_up keys t) =
    (if pressed keys J_UP && (cursor_row t >? 0) then u8 (cursor_row t - 1)
     else cursor_row t) ∧
  cursor_col (nudge_up keys t) = cursor_col t ∧
  beside_cursor (nudge_up keys t) = beside_cursor t.
Proof. unfold nudge_up, pressed. by destruct (_ && _), t. Qed.

Lemma nudge_down_fields keys t :
  cursor_row (nudge_down keys t) =
    (if pressed keys J_DOWN && (cursor_row t <? GRID_SIZE - 1) then u8 (cursor_row t + 1)
     else cursor_row t) ∧
  cursor_col (nudge_down keys t) = cursor_col t ∧
  beside_cursor (nudge_down keys t) = beside_cursor t.
Proof. unfold nudge_down, pressed. by destruct (_ && _), t. Qed.

Lemma nudge_left_fields keys t :
  cursor_col (nudge_left keys t) =
    (if pressed keys J_LEFT && (cursor_col t >? 0) then u8 (cursor_col t - 1)
     else cursor_col t) ∧
  cursor_row (nudge_left keys t) = cursor_row t ∧
  beside_cursor (nudge_left keys t) = beside_cursor t.
Proof. unfold nudge_left, pressed. by destruct (_ && _), t. Qed.

Lemma nudge_right_fields keys t :
  cursor_col (nudge_right keys t) =
    (if pressed keys J_RIGHT && (cursor_col t <? GRID_SIZE - 1) then u8 (cursor_col t + 1)
     else cursor_col t) ∧
  cursor_row (nudge_right keys t) = cursor_row t ∧
  beside_cursor (nudge_right keys t) = beside_cursor t.
Proof. unfold nudge_right, pressed. by destruct (_ && _), t. Qed.

Lemma nudge_arith (back forth : bool) v :
  0 ≤ v < GRID_SIZE →
  (if forth && ((if back && (v >? 0) then u8 (v - 1) else v) <? GRID_SIZE - 1)
   then u8 ((if back && (v >? 0) then u8 (v - 1) else v) + 1)
   else (if back && (v >? 0) then u8 (v - 1) else v)) = cursor_target back forth v.
Proof. intros H. grid_split H; by destruct back, forth. Qed.

Lemma logic_beside_cursor s t : logic s = logic t → beside_cursor s = beside_cursor t.
Proof.
  intros H. apply logic_fields in H.
  destruct H as (E1 & E2 & E3 & _ & _ & E6 & E7 & _ & E9 & _).
  unfold beside_cursor. by rewrite E1, E2, E3, E6, E7, E9.
Qed.

(** X5. Moving the cursor: each coordinate goes one step towards the held
    direction and stops at the edge of the grid; with two opposite directions
    held the cursor stays where it is, except on row (column) 0, where it moves
    down (right).  The board, the empty cell, the move counter and the won
    flag are not touched, and the input delay is armed. *)
Theorem move_cursor_target (keys : Z) (s : state) :
  0 ≤ cursor_row s < GRID_SIZE → 0 ≤ cursor_col s < GRID_SIZE →
  cursor_row (move_cursor keys s) =
    cursor_target (pressed keys J_UP) (pressed keys J_DOWN) (cursor_row s) ∧
  cursor_col (move_cursor keys s) =
    cursor_target (pressed keys J_LEFT) (pressed keys J_RIGHT) (cursor_col s) ∧
  0 ≤ cursor_row (move_cursor keys s) < GRID_SIZE ∧
  0 ≤ cursor_col (move_cursor keys s) < GRID_SIZE ∧
  beside_cursor (move_cursor keys s) = beside_cursor s ∧
  input_cooldown (move_cursor keys s) = INPUT_DELAY.
Proof.
  intros Hr Hc. rewrite move_cursor_eq.
  set (t0 := draw_cursor (cursor_col s) (cursor_row s) 0 s).
  pose proof (logic_draw_cursor (cursor_col s) (cursor_row s) 0 s) as L0.
  fold t0 in L0.
  pose proof (logic_beside_cursor _ _ L0) as B0.
  destruct (logic_fields _ _ L0) as (_ & _ & _ & R0 & C0 & _).
  destruct (nudge_up_fields keys t0) as (R1 & C1 & B1).
  set (t1 := nudge_up keys t0) in *.
  destruct (nudge_down_fields keys t1) as (R2 & C2 & B2).
  set (t2 := nudge_down keys t1) in *.
  destruct (nudge_left_fields keys t2) as (C3 & R3 & B3).
  set (t3 := nudge_left keys t2) in *.
  destruct (nudge_right_fields keys t3) as (C4 & R4 & B4).
  set (t4 := nudge_right keys t3) in *.
  pose proof (logic_draw_cursor (cursor_col t4) (cursor_row t4) 1 t4) as L5.
  fold (show_cursor t4) in L5.
  pose proof (logic_beside_cursor _ _ L5) as B5.
  destruct (logic_fields _ _ L5) as (_ & _ & _ & R5 & C5 & _).
  set (t5 := show_cursor t4) in *. clearbody t5 t4 t3 t2 t1 t0.
  assert (Er : cursor_row t5 =
            cursor_target (pressed keys J_UP) (pressed keys J_DOWN) (cursor_row s)).
  { rewrite R5, R4, R3, R2, R1, R0. by apply nudge_arith. }
  assert (Ec : cursor_col t5 =
            cursor_target (pressed keys J_LEFT) (pressed keys J_RIGHT) (cursor_col s)).
  { rewrite C5, C4, C3, C2, C1, C0. by apply nudge_arith. }
  assert (Eb : beside_cursor t5 = beside_cursor s) by congruence.
  clear -Er Ec Eb Hr Hc.
  assert (Hrange : ∀ a b v, 0 ≤ v < GRID_SIZE → 0 ≤ cursor_target a b v < GRID_SIZE).
  { intros a b v Hv. unfold cursor_target, GRID_SIZE in *.
    destruct a, b; [destruct (Z.eqb_spec v 0) | ..]; lia. }
  destruct t5. cbn [cursor_row cursor_col with_input_cooldown input_cooldown] in *.
  split; [done |]. split; [done |].
  split; [rewrite Er; by apply Hrange |]. split; [rewrite Ec; by apply Hrange |].
  split; [exact Eb | done].
Qed.

(** ** The input delay *)

Lemma cooldown_run (k : nat) : ∀ s,
  game_won s = 0 → input_cooldown s = Z.of_nat k → (k < 256)%nat →
  main_run k (GameLoop, s) =
  (GameLoop, with_frame (k + frame s) (with_input_cooldown 0 s), []).
Proof.
  induction k as [| k IH]; intros s Hg Hc Hk.
  - cbn [main_run]. destruct s. cbn [input_cooldown] in Hc. subst. reflexivity.
  - cbn [main_run]. unfold main_step. rewrite Hg. cbn [Z.eqb].
    rewrite game_iteration_unfold.
    assert ((input_cooldown s >? 0) = true) as -> by (rewrite Z.gtb_ltb; apply Z.ltb_lt; lia).
    rewrite (IH (with_input_cooldown (u8 (input_cooldown s - 1)) (wait_vbl_done s))).
    + destruct s. cbn [input_cooldown] in Hc. subst.
      unfold wait_vbl_done, with_frame, with_input_cooldown. cbn.
      do 2 f_equal. f_equal. lia.
    + by destruct s.
    + destruct s. cbn [input_cooldown] in *. subst. cbn.
      rewrite u8_small by lia. lia.
    + lia.
Qed.

(** X6. While [input_cooldown] is positive the game loop only counts it
    down, one per frame: for that many frames the joypad is not read, nothing
    is drawn, [try_move] is not called and no variable but the cooldown
    changes. *)
Theorem cooldown_ignores_input (k : nat) (s : state) :
  game_won s = 0 → input_cooldown s = Z.of_nat k → (k < 256)%nat →
  main_run k (GameLoop, s) =
  (GameLoop, with_frame (k + frame s) (with_input_cooldown 0 s), []).
Proof. apply cooldown_run. Qed.

(** ** One tick of the game loop *)

Lemma pressed_directions keys :
  pressed keys J_DIRECTIONS = false →
  pressed keys J_UP = false ∧ pressed keys J_DOWN = false ∧
  pressed keys J_LEFT = false ∧ pressed keys J_RIGHT = false.
Proof.
  unfold pressed, J_DIRECTIONS. rewrite negb_false_iff, Z.eqb_eq.
  rewrite !Z.land_lor_distr_r, !Z.lor_eq_0_iff. intros [[[-> ->] ->] ->]. done.
Qed.

(** The empty cell is the only cell that holds 0. *)
Lemma inv_empty_unique s r c :
  inv s → 0 ≤ r < GRID_SIZE → 0 ≤ c < GRID_SIZE →
  cell (board s) r c = EMPTY_TILE → (r, c) = (empty_row s, empty_col s).
Proof.
  intros [Hb Hp Her Hec He] Hr Hc Hz.
  apply flat_inj; [done.. |].
  assert (Hnd : NoDup (cells s)) by (rewrite Hp; apply NoDup_seqZ).
  eapply (NoDup_lookup _ _ _ _ Hnd).
  - unfold cells. rewrite concat_lookup by done. by rewrite Hz.
  - unfold cells. rewrite concat_lookup by done. by rewrite He.
Qed.

Lemma adjacent_not_empty s r c :
  inv s → 0 ≤ r < GRID_SIZE → 0 ≤ c < GRID_SIZE →
  adjacency_test (empty_row s) (empty_col s) r c = true →
  (cell (board s) r c =? EMPTY_TILE) = false.
Proof.
  intros Hinv Hr Hc Hadj. apply Z.eqb_neq. intros Hz.
  apply (adjacency_test_manhattan _ _ _ _ (inv_row _ Hinv) (inv_col _ Hinv) Hr Hc) in Hadj.
  by apply (manhattan_1_ne _ _ _ _ Hadj), inv_empty_unique.
Qed.

Lemma adjacency_test_self r c :
  0 ≤ r < GRID_SIZE → 0 ≤ c < GRID_SIZE → adjacency_test r c r c = false.
Proof.
  intros Hr Hc. apply not_true_is_false. intros H.
  apply (adjacency_test_manhattan _ _ _ _ Hr Hc Hr Hc) in H.
  unfold manhattan in H. lia.
Qed.

Lemma moved_counted_fields r c s :
  let m := with_move_count (u16 (move_count s + 1)) (moved r c s) in
  board m = slide (board s) (empty_row s) (empty_col s) r c ∧
  empty_row m = r ∧ empty_col m = c ∧
  cursor_row m = cursor_row s ∧ cursor_col m = cursor_col s ∧
  move_count m = u16 (move_count s + 1) ∧ game_won m = game_won s ∧
  frame_and_polls m = frame_and_polls s ∧ puzzle m = puzzle (moved r c s).
Proof. by destruct s. Qed.

(** The state after a successful [try_move] and the redrawn cursor. *)
Lemma slide_success_fields s :
  adjacency_test (empty_row s) (empty_col s) (cursor_row s) (cursor_col s) = true →
  let u := show_cursor (try_move (cursor_row s) (cursor_col s) s).2 in
  board u = slide (board s) (empty_row s) (empty_col s) (cursor_row s) (cursor_col s) ∧
  empty_row u = cursor_row s ∧ empty_col u = cursor_col s ∧
  cursor_row u = cursor_row s ∧ cursor_col u = cursor_col s ∧
  move_count u = u16 (move_count s + 1) ∧ game_won u = game_won s ∧
  frame_and_polls u = frame_and_polls s ∧
  puzzle u = puzzle (moved (cursor_row s) (cursor_col s) s).
Proof.
  intros Hadj u.
  pose proof (try_move_logic _ _ s Hadj) as L.
  set (tm := (try_move (cursor_row s) (cursor_col s) s).2) in *.
  pose proof (logic_draw_cursor (cursor_col tm) (cursor_row tm) 1 tm) as L'.
  fold (show_cursor tm) in L'. fold u in L'.
  assert (L2 : logic u = logic (with_move_count (u16 (move_count s + 1))
                                  (moved (cursor_row s) (cursor_col s) s)))
    by (etrans; [exact L' | exact L]).
  clearbody u. clear L L' tm.
  destruct (moved_counted_fields (cursor_row s) (cursor_col s) s)
    as (Fb & Fer & Fec & Fcr & Fcc & Fmc & Fg & Ff & Fp).
  set (m := with_move_count _ _) in *. clearbody m.
  apply logic_fields in L2.
  destruct L2 as (Eb & Eer & Eec & Ecr & Ecc & Emc & Eg & _ & _ & Ef & Ep).
  unfold frame_and_polls, puzzle in *.
  rewrite Eb, Eer, Eec, Ecr, Ecc, Emc, Eg, Ef, Ep. done.
Qed.

Lemma with_input_cooldown_fields v u :
  board (with_input_cooldown v u) = board u ∧
  empty_row (with_input_cooldown v u) = empty_row u ∧
  empty_col (with_input_cooldown v u) = empty_col u ∧
  cursor_row (with_input_cooldown v u) = cursor_row u ∧
  cursor_col (with_input_cooldown v u) = cursor_col u ∧
  move_count (with_input_cooldown v u) = move_count u ∧
  game_won (with_input_cooldown v u) = game_won u ∧
  frame_and_polls (with_input_cooldown v u) = frame_and_polls u ∧
  puzzle (with_input_cooldown v u) = puzzle u ∧
  input_cooldown (with_input_cooldown v u) = v.
Proof. done. Qed.

Lemma with_game_won_more v u :
  empty_row (with_game_won v u) = empty_row u ∧
  empty_col (with_game_won v u) = empty_col u ∧
  move_count (with_game_won v u) = move_count u ∧
  frame_and_polls (with_game_won v u) = frame_and_polls u ∧
  puzzle (with_game_won v u) = puzzle u.
Proof. done. Qed.

Lemma slide_selected_success s :
  inv s → 0 ≤ cursor_row s < GRID_SIZE → 0 ≤ cursor_col s < GRID_SIZE →
  adjacency_test (empty_row s) (empty_col s) (cursor_row s) (cursor_col s) = true →
  let u := show_cursor (try_move (cursor_row s) (cursor_col s) s).2 in
  inv u ∧
  (slide_selected s).1 =
    with_input_cooldown INPUT_DELAY
      (if bool_decide (board u = solved_board) then with_game_won 1 u else u).
Proof.
  intros Hinv Hr Hc Hadj u.
  destruct (slide_success_fields s Hadj) as (_ & _ & _ & _ & _ & _ & _ & _ & Ep).
  fold u in Ep.
  assert (Hu : inv u).
  { apply (inv_puzzle (moved (cursor_row s) (cursor_col s) s)); [done |].
    apply moved_inv; [done.. |].
    apply manhattan_1_ne.
    by apply (adjacency_test_manhattan _ _ _ _ (inv_row _ Hinv) (inv_col _ Hinv) Hr Hc). }
  split; [done |].
  rewrite slide_selected_unfold.
  rewrite (adjacent_not_empty s _ _ Hinv Hr Hc Hadj), Hadj.
  fold u. clearbody u.
  destruct (check_win_solved_iff u (inv_shape _ Hu)) as [Hiff Hret].
  destruct (Z.eqb_spec (check_win u) 0) as [Hz | Hz]; cbn [fst].
  - rewrite bool_decide_eq_false_2; [done |]. intros Hs. apply Hiff in Hs. lia.
  - rewrite bool_decide_eq_true_2; [done |]. apply Hiff. lia.
Qed.

Lemma slide_selected_failure s :
  adjacency_test (empty_row s) (empty_col s) (cursor_row s) (cursor_col s) = false →
  (slide_selected s).1 = with_input_cooldown INPUT_DELAY s.
Proof. intros Hadj. rewrite slide_selected_unfold, Hadj. by case_match. Qed.

Lemma armed_fields (won : bool) u :
  let t := with_input_cooldown INPUT_DELAY (if won then with_game_won 1 u else u) in
  board t = board u ∧ empty_row t = empty_row u ∧ empty_col t = empty_col u ∧
  cursor_row t = cursor_row u ∧ cursor_col t = cursor_col u ∧
  move_count t = move_count u ∧ game_won t = (if won then 1 else game_won u) ∧
  frame_and_polls t = frame_and_polls u ∧ puzzle t = puzzle u.
Proof. by destruct won. Qed.

Lemma slide_outcome s u t :
  inv u →
  board u = slide (board s) (empty_row s) (empty_col s) (cursor_row s) (cursor_col s) →
  empty_row u = cursor_row s → empty_col u = cursor_col s →
  cursor_row u = cursor_row s → cursor_col u = cursor_col s →
  move_count u = u16 (move_count s + 1) → game_won u = game_won s →
  frame_and_polls u = frame_and_polls s →
  t = with_input_cooldown INPUT_DELAY
        (if bool_decide (board u = solved_board) then with_game_won 1 u else u) →
  inv t ∧ cursor_row t = cursor_row s ∧ cursor_col t = cursor_col s ∧
  frame_and_polls t = frame_and_polls s ∧
  board t = slide (board s) (empty_row s) (empty_col s) (cursor_row s) (cursor_col s) ∧
  empty_row t = cursor_row s ∧ empty_col t = cursor_col s ∧
  move_count t = u16 (move_count s + 1) ∧
  game_won t = (if bool_decide (board t = solved_board) then 1 else game_won s).
Proof.
  intros Hu Eb Eer Eec Ecr Ecc Emc Eg Ef ->.
  destruct (armed_fields (bool_decide (board u = solved_board)) u)
    as (Tb & Ter & Tec & Tcr & Tcc & Tmc & Tg & Tf & Tp).
  set (t := with_input_cooldown _ _) in *. clearbody t.
  split; [by apply (inv_puzzle u) |].
  rewrite Tb, Ter, Tec, Tcr, Tcc, Tmc, Tg, Tf, Eg. done.
Qed.

(** What pressing A (or SELECT) does to the game variables. *)
Lemma optional_slide_effect (p : bool) s :
  inv s → 0 ≤ cursor_row s < GRID_SIZE → 0 ≤ cursor_col s < GRID_SIZE →
  let t := (if p then slide_selected s else (s, [])).1 in
  inv t ∧ frame_and_polls t = frame_and_polls s ∧ slide_effect p s t.
Proof.
  intros Hinv Hr Hc. unfold slide_effect.
  destruct p; [| by repeat (split; [done |])].
  destruct (adjacency_test (empty_row s) (empty_col s) (cursor_row s) (cursor_col s))
    eqn:Hadj.
  - destruct (slide_selected_success s Hinv Hr Hc Hadj) as [Hu E].
    destruct (slide_success_fields s Hadj)
      as (Eb & Eer & Eec & Ecr & Ecc & Emc & Eg & Ef & _).
    destruct (slide_outcome s _ _ Hu Eb Eer Eec Ecr Ecc Emc Eg Ef E)
      as (H1 & H2 & H3 & H4 & H5).
    exact (conj H1 (conj H4 (conj H2 (conj H3 H5)))).
  - pose proof (slide_selected_failure s Hadj) as E.
    cbv zeta. cbv iota. cbn [andb]. rewrite E.
    split; [by apply (inv_puzzle s) |]. by repeat (split; [done |]).
Qed.

(** A second press in the same tick adds nothing to a slide and is no
    different from the first if that one did not slide. *)
Lemma slide_effect_twice (pa pb : bool) s a b :
  0 ≤ cursor_row s < GRID_SIZE → 0 ≤ cursor_col s < GRID_SIZE →
  slide_effect pa s a → slide_effect pb a b → slide_effect (pa || pb) s b.
Proof.
  intros Hr Hc (Acr & Acc & Ha) (Bcr & Bcc & Hb).
  unfold slide_effect. rewrite Bcr, Bcc, Acr, Acc.
  split; [done |]. split; [done |].
  rewrite Acr, Acc in Hb.
  destruct (adjacency_test (empty_row s) (empty_col s) (cursor_row s) (cursor_col s))
    eqn:Hadj.
  - destruct pa; cbn [andb orb] in *.
    + destruct Ha as (Ab & Aer & Aec & Amc & Ag).
      rewrite Aer, Aec, (adjacency_test_self _ _ Hr Hc), andb_false_r in Hb.
      destruct Hb as (-> & -> & -> & -> & ->). done.
    + destruct Ha as (Ab & Aer & Aec & Amc & Ag).
      rewrite Aer, Aec, Hadj, Ab, Amc, Ag in Hb. by destruct pb.
  - rewrite andb_false_r in *.
    destruct Ha as (Ab & Aer & Aec & Amc & Ag).
    rewrite Aer, Aec, Hadj, andb_false_r, Ab, Amc, Ag in Hb. done.
Qed.

Lemma frame_and_polls_logic s t :
  logic s = logic t → frame_and_polls s = frame_and_polls t.
Proof.
  intros H. apply logic_fields in H.
  destruct H as (_ & _ & _ & _ & _ & _ & _ & _ & _ & Ef & Ep).
  unfold frame_and_polls. by rewrite Ef, Ep.
Qed.

Lemma beside_cursor_puzzle s t : beside_cursor s = beside_cursor t → puzzle s = puzzle t.
Proof. unfold beside_cursor, puzzle. intros H. injection H as -> -> -> _ _ _. done. Qed.

(** The cursor movement of a tick, taken or not. *)
Lemma aim_effect keys s :
  inv s → 0 ≤ cursor_row s < GRID_SIZE → 0 ≤ cursor_col s < GRID_SIZE →
  let t := if pressed keys J_DIRECTIONS then move_cursor keys s else s in
  inv t ∧
  cursor_row t = cursor_target (pressed keys J_UP) (pressed keys J_DOWN) (cursor_row s) ∧
  cursor_col t = cursor_target (pressed keys J_LEFT) (pressed keys J_RIGHT) (cursor_col s) ∧
  0 ≤ cursor_row t < GRID_SIZE ∧ 0 ≤ cursor_col t < GRID_SIZE ∧
  beside_cursor t = beside_cursor s ∧ frame_and_polls t = frame_and_polls s.
Proof.
  intros Hinv Hr Hc. destruct (pressed keys J_DIRECTIONS) eqn:Hd; cbv zeta.
  - destruct (move_cursor_target keys s Hr Hc) as (Er & Ec & Hr' & Hc' & Eb & _).
    split; [by apply (inv_puzzle s); [symmetry; apply beside_cursor_puzzle |] |].
    split; [done |]. split; [done |]. split; [done |]. split; [done |].
    split; [done |].
    apply (move_cursor_preserves (λ u, frame_and_polls u = frame_and_polls s));
      [done | | done..].
    intros gx gy show u Hu. etrans; [| exact Hu].
    apply frame_and_polls_logic, logic_draw_cursor.
  - destruct (pressed_directions keys Hd) as (-> & -> & -> & ->).
    by repeat (split; [done |]).
Qed.

Lemma tick_outcome (p : bool) s s3 t r c :
  beside_cursor s3 = beside_cursor s →
  cursor_row s3 = r → cursor_col s3 = c →
  slide_effect p s3 t →
  cursor_row t = r ∧ cursor_col t = c ∧
  if p && adjacency_test (empty_row s) (empty_col s) r c
  then board t = slide (board s) (empty_row s) (empty_col s) r c ∧
       empty_row t = r ∧ empty_col t = c ∧
       move_count t = u16 (move_count s + 1) ∧
       game_won t = (if bool_decide (board t = solved_board) then 1 else game_won s)
  else board t = board s ∧ empty_row t = empty_row s ∧ empty_col t = empty_col s ∧
       move_count t = move_count s ∧ game_won t = game_won s.
Proof.
  unfold beside_cursor, slide_effect. intros Hb <- <- H.
  injection Hb as <- <- <- <- <- _. exact H.
Qed.

Lemma game_iteration_ready s :
  (input_cooldown s >? 0) = false →
  (game_iteration s).1 =
  (if pressed (u8 (joypad_at (polls s))) J_SELECT
   then slide_selected
          (if pressed (u8 (joypad_at (polls s))) J_A
           then slide_selected
                  (if pressed (u8 (joypad_at (polls s))) J_DIRECTIONS
                   then move_cursor (u8 (joypad_at (polls s)))
                          (with_polls (S (polls s)) (wait_vbl_done s))
                   else with_polls (S (polls s)) (wait_vbl_done s))
           else (if pressed (u8 (joypad_at (polls s))) J_DIRECTIONS
                 then move_cursor (u8 (joypad_at (polls s)))
                        (with_polls (S (polls s)) (wait_vbl_done s))
                 else with_polls (S (polls s)) (wait_vbl_done s), [])).1
   else ((if pressed (u8 (joypad_at (polls s))) J_A
          then slide_selected
                 (if pressed (u8 (joypad_at (polls s))) J_DIRECTIONS
                  then move_cursor (u8 (joypad_at (polls s)))
                         (with_polls (S (polls s)) (wait_vbl_done s))
                  else with_polls (S (polls s)) (wait_vbl_done s))
          else (if pressed (u8 (joypad_at (polls s))) J_DIRECTIONS
                then move_cursor (u8 (joypad_at (polls s)))
                       (with_polls (S (polls s)) (wait_vbl_done s))
                else with_polls (S (polls s)) (wait_vbl_done s), [])).1, [])).1.
Proof.
  intros Hc. rewrite game_iteration_unfold, Hc. reflexivity.
Qed.

Lemma tick_start s :
  inv s →
  let s2 := with_polls (S (polls s)) (wait_vbl_done s) in
  inv s2 ∧ cursor_row s2 = cursor_row s ∧ cursor_col s2 = cursor_col s ∧
  beside_cursor s2 = beside_cursor s ∧
  frame_and_polls s2 = (S (frame s), S (polls s)).
Proof. intros Hinv. split; [by apply (inv_puzzle s) | done]. Qed.

(** The game variables after a tick on which the joypad is read. *)
Lemma game_iteration_effect s :
  inv s → 0 ≤ cursor_row s < GRID_SIZE → 0 ≤ cursor_col s < GRID_SIZE →
  (input_cooldown s >? 0) = false →
  let keys := u8 (joypad_at (polls s)) in
  let r := cursor_target (pressed keys J_UP) (pressed keys J_DOWN) (cursor_row s) in
  let c := cursor_target (pressed keys J_LEFT) (pressed keys J_RIGHT) (cursor_col s) in
  let t := (game_iteration s).1 in
  (inv t ∧ frame_and_polls t = (S (frame s), S (polls s))) ∧
  cursor_row t = r ∧ cursor_col t = c ∧
  if (pressed keys J_A || pressed keys J_SELECT) &&
     adjacency_test (empty_row s) (empty_col s) r c
  then board t = slide (board s) (empty_row s) (empty_col s) r c ∧
       empty_row t = r ∧ empty_col t = c ∧
       move_count t = u16 (move_count s + 1) ∧
       game_won t = (if bool_decide (board t = solved_board) then 1 else game_won s)
  else board t = board s ∧ empty_row t = empty_row s ∧ empty_col t = empty_col s ∧
       move_count t = move_count s ∧ game_won t = game_won s.
Proof.
  intros Hinv Hr Hc Hcool keys r c t.
  unfold t. rewrite (game_iteration_ready s Hcool). fold keys.
  destruct (tick_start s Hinv) as (I2 & R2 & C2 & B2 & F2).
  set (s2 := with_polls _ _) in *. clearbody s2.
  rewrite <- R2 in Hr. rewrite <- C2 in Hc.
  destruct (aim_effect keys s2 I2 Hr Hc) as (I3 & R3 & C3 & Hr3 & Hc3 & B3 & F3).
  set (s3 := if pressed keys J_DIRECTIONS then _ else _) in *. clearbody s3.
  destruct (optional_slide_effect (pressed keys J_A) s3 I3 Hr3 Hc3) as (Ia & Fa & Ha).
  set (a := (if pressed keys J_A then _ else _).1) in *. clearbody a.
  assert (Hra : 0 ≤ cursor_row a < GRID_SIZE) by (by rewrite (proj1 Ha)).
  assert (Hca : 0 ≤ cursor_col a < GRID_SIZE) by (by rewrite (proj1 (proj2 Ha))).
  destruct (optional_slide_effect (pressed keys J_SELECT) a Ia Hra Hca) as (Ib & Fb & Hb).
  set (b := (if pressed keys J_SELECT then _ else _).1) in *. clearbody b.
  split; [split; [done | congruence] |].
  apply (tick_outcome _ s s3).
  - congruence.
  - unfold r. congruence.
  - unfold c. congruence.
  - by apply (slide_effect_twice _ _ s3 a b).
Qed.

(** X7. A tick of the game loop on which the joypad is read: the cursor
    moves first; then at most one tile slides, however A and SELECT are
    combined: the tile under the cursor's new position, and only if one of
    the two buttons is down and that position is next to the empty cell.  The
    slide is counted once, and the won flag is raised by it exactly if the
    board it leaves is the solved one; without a slide the puzzle, the counter
    and the flag stay as they were. *)
Theorem tick_slides_at_most_once (s : state) :
  inv s → 0 ≤ cursor_row s < GRID_SIZE → 0 ≤ cursor_col s < GRID_SIZE →
  input_cooldown s = 0 →
  let keys := u8 (joypad_at (polls s)) in
  let r := cursor_target (pressed keys J_UP) (pressed keys J_DOWN) (cursor_row s) in
  let c := cursor_target (pressed keys J_LEFT) (pressed keys J_RIGHT) (cursor_col s) in
  let t := (game_iteration s).1 in
  (inv t ∧ frame_and_polls t = (S (frame s), S (polls s))) ∧
  cursor_row t = r ∧ cursor_col t = c ∧
  if (pressed keys J_A || pressed keys J_SELECT) &&
     adjacency_test (empty_row s) (empty_col s) r c
  then board t = slide (board s) (empty_row s) (empty_col s) r c ∧
       empty_row t = r ∧ empty_col t = c ∧
       move_count t = u16 (move_count s + 1) ∧
       game_won t = (if bool_decide (board t = solved_board) then 1 else game_won s)
  else board t = board s ∧ empty_row t = empty_row s ∧ empty_col t = empty_col s ∧
       move_count t = move_count s ∧ game_won t = game_won s.
Proof.
  intros Hinv Hr Hc Hcool. apply game_iteration_effect; [done.. |].
  by rewrite Hcool.
Qed.

(** ** What [main] maintains *)

Lemma cursor_target_range a b v :
  0 ≤ v < GRID_SIZE → 0 ≤ cursor_target a b v < GRID_SIZE.
Proof.
  intros Hv. unfold cursor_target, GRID_SIZE in *.
  destruct a, b; [destruct (Z.eqb_spec v 0) | ..]; lia.
Qed.

Lemma new_session_inv s : board_shape (board s) → inv (new_session s).
Proof.
  intros Hb.
  apply (inv_puzzle (shuffle_board (init_board (reset_session s))));
    [symmetry; apply new_session_puzzle |].
  rewrite shuffle_board_steps. apply shuffle_steps_inv, init_board_inv.
  by destruct (reset_session_fields s) as [-> _].
Qed.

Lemma won_flag_after_tick (p : bool) s t :
  (game_won s = 0 ∨ (game_won s = 1 ∧ board s = solved_board)) →
  (if p
   then game_won t = (if bool_decide (board t = solved_board) then 1 else game_won s)
   else board t = board s ∧ game_won t = game_won s) →
  game_won s = 0 →
  game_won t = 0 ∨ (game_won t = 1 ∧ board t = solved_board).
Proof.
  intros Hw H Hg. destruct p.
  - rewrite H. destruct (decide (board t = solved_board)) as [Hs | Hs].
    + rewrite bool_decide_eq_true_2 by done. by right.
    + rewrite bool_decide_eq_false_2 by done. by left.
  - destruct H as [_ ->]. by left.
Qed.

Lemma game_iteration_main_inv s :
  main_inv (GameLoop, s) → game_won s = 0 → main_inv (GameLoop, (game_iteration s).1).
Proof.
  unfold main_inv. cbn [fst snd]. intros (Hinv & Hr & Hc & Hw & _) Hg.
  destruct (input_cooldown s >? 0) eqn:Hcool.
  - rewrite game_iteration_unfold, Hcool. cbn [fst].
    split; [by apply (inv_puzzle s) |]. done.
  - destruct (game_iteration_effect s Hinv Hr Hc Hcool) as ((It & _) & Er & Ec & H).
    set (t := (game_iteration s).1) in *. clearbody t.
    split; [done |].
    split; [rewrite Er; by apply cursor_target_range |].
    split; [rewrite Ec; by apply cursor_target_range |].
    split; [| done].
    destruct (_ && _).
    + apply (won_flag_after_tick true s t Hw); [apply H | done].
    + apply (won_flag_after_tick false s t Hw); [| done].
      destruct H as (Eb & _ & _ & _ & Eg). done.
Qed.

Lemma game_vars_main_inv p s t :
  game_vars t = game_vars s → main_inv (p, s) → main_inv (p, t).
Proof.
  unfold main_inv, game_vars. cbn [fst snd].
  intros E (Hinv & Hr & Hc & Hw & Hp).
  injection E as Eb Eer Eec Ecr Ecc _ Eg _ _.
  split; [apply (inv_puzzle s); [unfold puzzle; congruence | done] |].
  rewrite Ecr, Ecc, Eg, Eb. done.
Qed.

Lemma main_step_main_inv c : main_inv c → main_inv (main_step c).1.
Proof.
  destruct c as [p s]. intros Hm. unfold main_step, joypad. destruct p.
  - destruct (Z.eqb_spec (game_won s) 0) as [Hg | Hg].
    + pose proof (game_iteration_main_inv s Hm Hg) as H.
      by destruct (game_iteration s).
    + cbn [fst]. apply (game_vars_main_inv _ s); [apply game_vars_win_animation |].
      destruct Hm as (Hinv & Hr & Hc & Hw & _).
      split; [done |]. split; [done |]. split; [done |]. split; [done |].
      intros _. cbn [snd] in *. by destruct Hw as [? | [? _]].
  - cbv zeta. cbv iota. cbv beta.
    destruct Hm as (Hinv & Hr & Hc & Hw & Hp). cbn [fst snd] in *.
    assert (Hg : game_won s = 1) by (by apply Hp).
    destruct (negb _); cbn [fst]; by apply (game_vars_main_inv _ s).
  - cbv zeta. cbv iota. cbv beta.
    destruct Hm as (Hinv & Hr & Hc & Hw & Hp). cbn [fst snd] in *.
    assert (Hg : game_won s = 1) by (by apply Hp).
    destruct (negb _); cbn [fst]; [by apply (game_vars_main_inv _ s) |].
    assert (Hb : board_shape (board (with_polls (S (polls s)) s)))
      by apply (inv_shape _ Hinv).
    destruct (new_session_spec _ Hb) as (_ & Er & Ec & Eg).
    unfold main_inv. cbn [fst snd]. rewrite Er, Ec, Eg.
    split; [by apply new_session_inv |]. unfold GRID_SIZE.
    split; [lia |]. split; [lia |]. split; [by left | done].
Qed.

Lemma main_run_main_inv fuel : ∀ c, main_inv c → main_inv (main_run fuel c).1.
Proof.
  induction fuel as [| fuel IH]; intros c Hm; [done |].
  cbn [main_run].
  pose proof (main_step_main_inv c Hm) as Hm'.
  destruct (main_step c) as [c' evs]. cbn [fst] in Hm'.
  specialize (IH c' Hm').
  by destruct (main_run fuel c') as [c'' evs'].
Qed.

(** X8. However long [main] runs and whatever the player presses: the board
    holds each of 0..15 once with the empty cell where the cache says, the
    cursor is inside the grid, the won flag is 0 or 1 and is up only while the
    board is the solved one, and the win animation and the two loops that
    wait for START are reached only with the flag up. *)
Theorem main_wins_only_when_solved (fuel : nat) (s : state) :
  board_shape (board s) →
  inv (main fuel s).1.2 ∧
  0 ≤ cursor_row (main fuel s).1.2 < GRID_SIZE ∧
  0 ≤ cursor_col (main fuel s).1.2 < GRID_SIZE ∧
  (game_won (main fuel s).1.2 = 0 ∨
   (game_won (main fuel s).1.2 = 1 ∧ board (main fuel s).1.2 = solved_board)) ∧
  ((main fuel s).1.1 ≠ GameLoop →
   game_won (main fuel s).1.2 = 1 ∧ board (main fuel s).1.2 = solved_board).
Proof.
  intros Hb. unfold main.
  assert (Hm : main_inv (GameLoop, new_session s)).
  { destruct (new_session_spec s Hb) as (_ & Er & Ec & Eg).
    unfold main_inv. cbn [fst snd]. rewrite Er, Ec, Eg.
    split; [by apply new_session_inv |]. unfold GRID_SIZE.
    split; [lia |]. split; [lia |]. split; [by left | done]. }
  pose proof (main_run_main_inv fuel _ Hm) as H.
  destruct (main_run fuel (GameLoop, new_session s)) as [c evs].
  cbn [fst] in *. destruct H as (Hinv & Hr & Hc & Hw & Hp).
  split; [done |]. split; [done |]. split; [done |]. split; [done |].
  intros Hpc. specialize (Hp Hpc). destruct Hw as [Hw | Hw]; [congruence | done].
Qed.

(** ** The repeat rate of a held button *)

Lemma slide_selected_cooldown s : input_cooldown (slide_selected s).1 = INPUT_DELAY.
Proof.
  rewrite slide_selected_unfold.
  destruct (_ =? EMPTY_TILE); [done |].
  destruct (adjacency_test _ _ _ _); [| done].
  by destruct (check_win _ =? 0).
Qed.

Lemma game_iteration_armed s :
  input_cooldown s = 0 →
  (pressed (u8 (joypad_at (polls s))) J_DIRECTIONS ||
   pressed (u8 (joypad_at (polls s))) J_A ||
   pressed (u8 (joypad_at (polls s))) J_SELECT) = true →
  input_cooldown (game_iteration s).1 = INPUT_DELAY.
Proof.
  intros Hcool Hkey. rewrite game_iteration_ready by (by rewrite Hcool).
  destruct (pressed _ J_SELECT); cbn [fst]; [apply slide_selected_cooldown |].
  destruct (pressed _ J_A); cbn [fst]; [apply slide_selected_cooldown |].
  destruct (pressed _ J_DIRECTIONS); [| discriminate Hkey].
  by rewrite move_cursor_eq.
Qed.

Lemma main_run_succ n c :
  main_run (S n) c =
  ((main_run n (main_step c).1).1, (main_step c).2 ++ (main_run n (main_step c).1).2).
Proof.
  cbn [main_run]. destruct (main_step c) as [c' evs]. cbn [fst snd].
  by destruct (main_run n c').
Qed.

(** X9. A tick on which a direction, A or SELECT is down arms the input
    delay, also when nothing moved; the game loop then lets [INPUT_DELAY] = 6 frames pass
    without reading the joypad, so that a held button acts once every seven
    frames. *)
Theorem held_button_acts_every_seventh_frame (s : state) :
  game_won s = 0 → input_cooldown s = 0 →
  (pressed (u8 (joypad_at (polls s))) J_DIRECTIONS ||
   pressed (u8 (joypad_at (polls s))) J_A ||
   pressed (u8 (joypad_at (polls s))) J_SELECT) = true →
  game_won (game_iteration s).1 = 0 →
  input_cooldown (game_iteration s).1 = INPUT_DELAY ∧
  main_run 7 (GameLoop, s) =
  (GameLoop,
   with_frame (6 + frame (game_iteration s).1)
     (with_input_cooldown 0 (game_iteration s).1),
   (game_iteration s).2).
Proof.
  intros Hg Hcool Hkey Hg'.
  pose proof (game_iteration_armed s Hcool Hkey) as Harm.
  split; [done |].
  rewrite (main_run_succ 6).
  assert (E : main_step (GameLoop, s) = (GameLoop, (game_iteration s).1, (game_iteration s).2)).
  { unfold main_step. rewrite Hg. cbn [Z.eqb]. by destruct (game_iteration s). }
  rewrite E. cbn [fst snd].
  assert (Harm' : input_cooldown (game_iteration s).1 = Z.of_nat 6) by exact Harm.
  rewrite (cooldown_run 6 _ Hg' Harm') by lia.
  cbn [fst snd]. by rewrite app_nil_r.
Qed.

(** ** What the display shows *)

Lemma shown_app bank x y new old :
  shown bank x y (new ++ old) =
  match shown bank x y new with
  | Some v => Some v
  | None => shown bank x y old
  end.
Proof.
  induction new as [| w new IH]; [done |].
  cbn [app shown]. by destruct (_ && _).
Qed.

Lemma shown_misses bank x y new : misses x y new = true → shown bank x y new = None.
Proof.
  induction new as [| w new IH]; [done |].
  cbn [misses forallb shown]. intros [Hw Hn]%andb_true_iff.
  rewrite <- andb_assoc. rewrite negb_true_iff in Hw. rewrite Hw, andb_false_r.
  by apply IH.
Qed.

Lemma shown_app_misses bank x y new old :
  misses x y new = true → shown bank x y (new ++ old) = shown bank x y old.
Proof. intros H. by rewrite shown_app, shown_misses. Qed.

Lemma in_block_misses gx gy x y new :
  forallb (in_block gx gy) new = true → ¬ in_cell gx gy x y → misses x y new = true.
Proof.
  intros Hin Hout. unfold misses. rewrite forallb_forall in *.
  intros w Hw. specialize (Hin w Hw). apply in_block_spec in Hin.
  apply negb_true_iff, andb_false_iff.
  unfold in_cell, GRID_X, GRID_Y, CELL_W, CELL_H in Hout.
  destruct (Z.eqb_spec (w_x w) x), (Z.eqb_spec (w_y w) y); auto.
  exfalso. apply Hout. lia.
Qed.

Lemma inv_cell_range s r c :
  inv s → 0 ≤ r < GRID_SIZE → 0 ≤ c < GRID_SIZE → 0 ≤ cell (board s) r c ≤ 15.
Proof.
  intros [Hb Hp _ _ _] Hr Hc.
  assert (Hin : cell (board s) r c ∈ cells s).
  { apply (list_elem_of_lookup_2 _ (flat r c)). by apply concat_lookup. }
  rewrite Hp in Hin. apply elem_of_seqZ in Hin. unfold TOTAL_TILES in Hin. lia.
Qed.

Lemma draw_cell_block gx gy s :
  0 ≤ gx < GRID_SIZE → 0 ≤ gy < GRID_SIZE →
  0 ≤ cell (board s) gy gx ≤ 15 →
  block_tiles (draw_cell gx gy s) gx gy = cell_picture (cell (board s) gy gx) ∧
  block_attrs (draw_cell gx gy s) gx gy =
    uniform_block (get_tile_palette (cell (board s) gy gx)).
Proof.
  intros Hx Hy. unfold draw_cell. generalize (cell (board s) gy gx). intros v Hv.
  cbn zeta.
  assert (Hc : v = 0 ∨ v = 1 ∨ v = 2 ∨ v = 3 ∨ v = 4 ∨ v = 5 ∨ v = 6 ∨ v = 7 ∨
               v = 8 ∨ v = 9 ∨ v = 10 ∨ v = 11 ∨ v = 12 ∨ v = 13 ∨ v = 14 ∨ v = 15)
    by lia.
  clear Hv.
  grid_split Hx; grid_split Hy;
    repeat (destruct Hc as [-> | Hc]; [split; vm_compute; reflexivity |]);
    subst; split; vm_compute; reflexivity.
Qed.

(** X10. [draw_cell] paints the 3x3 block of its cell and nothing else:
    the attribute map of the block holds the palette of the cell's identifier
    in all nine positions, the tile map holds the dark filler for the empty
    cell and the framed number otherwise, every position outside the block
    shows on both layers what it showed before, the register is back on the
    tile map, and no game variable changes. *)
Theorem draw_cell_shows_its_cell_only (s : state) (gx gy : Z) :
  0 ≤ gx < GRID_SIZE → 0 ≤ gy < GRID_SIZE →
  0 ≤ cell (board s) gy gx ≤ 15 →
  block_tiles (draw_cell gx gy s) gx gy = cell_picture (cell (board s) gy gx) ∧
  block_attrs (draw_cell gx gy s) gx gy =
    uniform_block (get_tile_palette (cell (board s) gy gx)) ∧
  (∀ bank x y, ¬ in_cell gx gy x y →
     shown bank x y (bkg_writes (draw_cell gx gy s)) = shown bank x y (bkg_writes s)) ∧
  VBK_REG (draw_cell gx gy s) = 0 ∧
  logic (draw_cell gx gy s) = logic s.
Proof.
  intros Hx Hy Hv.
  destruct (draw_cell_block gx gy s Hx Hy Hv) as [Ht Ha].
  split; [done |]. split; [done |].
  split; [| split; [| apply logic_draw_cell]].
  - intros bank x y Hout.
    destruct (draw_cell_painted gx gy s Hx Hy) as (-> & Hin & _).
    apply shown_app_misses. by apply (in_block_misses gx gy).
  - unfold draw_cell. generalize (cell (board s) gy gx). intros v. cbn zeta.
    destruct (v =? 0); [reflexivity |]. destruct (v <=? 9); reflexivity.
Qed.

Lemma same_outside_refl area s : same_outside area s s.
Proof. by intros bank x y _. Qed.

Lemma same_outside_trans area s t u :
  same_outside area s t → same_outside area t u → same_outside area s u.
Proof. intros H1 H2 bank x y Hout. by rewrite H2, H1. Qed.

Lemma same_outside_weaken (area area' : Z → Z → Prop) s t :
  (∀ x y, area x y → area' x y) → same_outside area s t → same_outside area' s t.
Proof. intros Hsub H bank x y Hout. apply H. intros Ha. by apply Hout, Hsub. Qed.

Lemma draw_cell_same_outside gx gy s :
  0 ≤ gx < GRID_SIZE → 0 ≤ gy < GRID_SIZE →
  same_outside (in_cell gx gy) s (draw_cell gx gy s).
Proof.
  intros Hx Hy bank x y Hout.
  destruct (draw_cell_painted gx gy s Hx Hy) as (-> & Hin & _).
  apply shown_app_misses. by apply (in_block_misses gx gy).
Qed.

(** A routine that stays inside the block of one cell leaves the blocks of
    the other cells as they were. *)
Lemma block_frame cx cy gx gy s t :
  same_outside (in_cell cx cy) s t →
  0 ≤ cx < GRID_SIZE → 0 ≤ cy < GRID_SIZE →
  0 ≤ gx < GRID_SIZE → 0 ≤ gy < GRID_SIZE →
  (cx, cy) ≠ (gx, gy) →
  block_tiles t gx gy = block_tiles s gx gy ∧
  block_attrs t gx gy = block_attrs s gx gy.
Proof.
  intros H Hcx Hcy Hgx Hgy Hne.
  assert (Hd : cx ≠ gx ∨ cy ≠ gy)
    by (destruct (decide (cx = gx)); [right; congruence | by left]).
  assert (Hout : ∀ dx dy, 0 ≤ dx < 3 → 0 ≤ dy < 3 →
            ¬ in_cell cx cy (GRID_X + gx * CELL_W + dx) (GRID_Y + gy * CELL_H + dy)).
  { intros dx dy Hdx Hdy. unfold in_cell, GRID_X, GRID_Y, CELL_W, CELL_H, GRID_SIZE in *.
    lia. }
  unfold block_tiles, block_attrs, tile_at, attr_at. cbn [fmap list_fmap].
  rewrite !H by (apply Hout; lia). done.
Qed.

Lemma draw_cells_snoc cs p s :
  draw_cells (cs ++ [p]) s = draw_cell p.1 p.2 (draw_cells cs s).
Proof. unfold draw_cells. by rewrite foldl_app. Qed.

Lemma draw_cells_logic cs s : logic (draw_cells cs s) = logic s.
Proof.
  induction cs as [| p cs IH] using rev_ind; [done |].
  by rewrite draw_cells_snoc, logic_draw_cell.
Qed.

Lemma draw_cells_shown cs s gx gy :
  inv s →
  Forall (λ p, 0 ≤ p.1 < GRID_SIZE ∧ 0 ≤ p.2 < GRID_SIZE) cs →
  (gx, gy) ∈ cs →
  block_tiles (draw_cells cs s) gx gy = cell_picture (cell (board s) gy gx) ∧
  block_attrs (draw_cells cs s) gx gy =
    uniform_block (get_tile_palette (cell (board s) gy gx)).
Proof.
  intros Hinv. induction cs as [| [cx cy] cs IH] using rev_ind; intros Hall Hin.
  - by apply elem_of_nil in Hin.
  - apply Forall_app in Hall as [Hall Hp]. apply Forall_singleton in Hp as [Hcx Hcy].
    cbn [fst snd] in *. rewrite draw_cells_snoc. cbn [fst snd].
    assert (Eb : board (draw_cells cs s) = board s)
      by (by destruct (logic_fields _ _ (draw_cells_logic cs s)) as (-> & _)).
    destruct (decide ((cx, cy) = (gx, gy))) as [E | Hne].
    + injection E as -> ->. rewrite <- Eb. apply draw_cell_block; [done.. |].
      rewrite Eb. by apply inv_cell_range.
    + apply elem_of_app in Hin as [Hin | Hin%list_elem_of_singleton];
        [| congruence].
      assert (Hg : 0 ≤ gx < GRID_SIZE ∧ 0 ≤ gy < GRID_SIZE).
      { rewrite Forall_forall in Hall. apply (Hall (gx, gy) Hin). }
      destruct Hg as [Hgx Hgy].
      destruct (block_frame cx cy gx gy (draw_cells cs s)
                  (draw_cell cx cy (draw_cells cs s)))
        as [-> ->]; [by apply draw_cell_same_outside | done.. |].
      by apply IH.
Qed.

Lemma draw_cells_same_outside cs s :
  Forall (λ p, 0 ≤ p.1 < GRID_SIZE ∧ 0 ≤ p.2 < GRID_SIZE) cs →
  same_outside in_grid_area s (draw_cells cs s).
Proof.
  induction cs as [| [cx cy] cs IH] using rev_ind; intros Hall.
  - apply same_outside_refl.
  - apply Forall_app in Hall as [Hall Hp]. apply Forall_singleton in Hp as [Hcx Hcy].
    cbn [fst snd] in *. rewrite draw_cells_snoc. cbn [fst snd].
    eapply same_outside_trans; [by apply IH |].
    eapply same_outside_weaken; [| by apply draw_cell_same_outside].
    intros x y. unfold in_cell, in_grid_area, GRID_SIZE, GRID_X, GRID_Y, CELL_W, CELL_H in *.
    lia.
Qed.

Lemma draw_board_cells s : draw_board s = draw_cells board_order s.
Proof.
  unfold draw_board, draw_cells, board_order, for_loop, GRID_SIZE.
  change (seqZ 0 (4 - 0)) with [0; 1; 2; 3]. cbn [foldl fst snd]. reflexivity.
Qed.

Lemma board_order_grid :
  Forall (λ p, 0 ≤ p.1 < GRID_SIZE ∧ 0 ≤ p.2 < GRID_SIZE) board_order.
Proof. unfold board_order, GRID_SIZE. repeat constructor; cbn; lia. Qed.

Lemma board_order_all gx gy :
  0 ≤ gx < GRID_SIZE → 0 ≤ gy < GRID_SIZE → (gx, gy) ∈ board_order.
Proof.
  intros Hx Hy. grid_split Hx; grid_split Hy;
    apply (bool_decide_unpack _); vm_compute; exact I.
Qed.

(** X11. After [draw_board] the block of every cell shows that cell of the
    board, in tiles and in palette, whatever the screen showed before; what
    lies outside the 12x12 square of the blocks is not touched, and no game
    variable changes. *)
Theorem draw_board_shows_board (s : state) :
  inv s →
  (∀ gx gy, 0 ≤ gx < GRID_SIZE → 0 ≤ gy < GRID_SIZE →
     block_tiles (draw_board s) gx gy = cell_picture (cell (board s) gy gx) ∧
     block_attrs (draw_board s) gx gy =
       uniform_block (get_tile_palette (cell (board s) gy gx))) ∧
  same_outside in_grid_area s (draw_board s) ∧
  logic (draw_board s) = logic s.
Proof.
  intros Hinv. rewrite draw_board_cells.
  split; [| split].
  - intros gx gy Hx Hy.
    apply draw_cells_shown; [done | apply board_order_grid | by apply board_order_all].
  - apply draw_cells_same_outside, board_order_grid.
  - apply draw_cells_logic.
Qed.

(** ** draw_cursor *)

Lemma four_writes x1 y1 x2 y2 x3 y3 x4 y4 p u :
  bkg_writes (with_VBK_REG 0
    (set_bkg_tile_xy x4 y4 p (set_bkg_tile_xy x3 y3 p
       (set_bkg_tile_xy x2 y2 p (set_bkg_tile_xy x1 y1 p u))))) =
  [Write (VBK_REG u) (u8 x4) (u8 y4) (u8 p); Write (VBK_REG u) (u8 x3) (u8 y3) (u8 p);
   Write (VBK_REG u) (u8 x2) (u8 y2) (u8 p); Write (VBK_REG u) (u8 x1) (u8 y1) (u8 p)]
  ++ bkg_writes u.
Proof. by destruct u. Qed.

Lemma draw_cursor_writes gx gy show s :
  0 ≤ gx < GRID_SIZE → 0 ≤ gy < GRID_SIZE →
  bkg_writes (draw_cursor gx gy show s) =
  [Write 1 (GRID_X + gx * CELL_W + 2) (GRID_Y + gy * CELL_H + 2) (cursor_palette show s gx gy);
   Write 1 (GRID_X + gx * CELL_W) (GRID_Y + gy * CELL_H + 2) (cursor_palette show s gx gy);
   Write 1 (GRID_X + gx * CELL_W + 2) (GRID_Y + gy * CELL_H) (cursor_palette show s gx gy);
   Write 1 (GRID_X + gx * CELL_W) (GRID_Y + gy * CELL_H) (cursor_palette show s gx gy)]
  ++ bkg_writes s.
Proof.
  intros Hx Hy.
  assert (Ex : u8 (GRID_X + gx * CELL_W) = GRID_X + gx * CELL_W)
    by (apply u8_small; unfold GRID_X, CELL_W, GRID_SIZE in *; lia).
  assert (Ey : u8 (GRID_Y + gy * CELL_H) = GRID_Y + gy * CELL_H)
    by (apply u8_small; unfold GRID_Y, CELL_H, GRID_SIZE in *; lia).
  assert (Ex2 : u8 (GRID_X + gx * CELL_W + 2) = GRID_X + gx * CELL_W + 2)
    by (apply u8_small; unfold GRID_X, CELL_W, GRID_SIZE in *; lia).
  assert (Ey2 : u8 (GRID_Y + gy * CELL_H + 2) = GRID_Y + gy * CELL_H + 2)
    by (apply u8_small; unfold GRID_Y, CELL_H, GRID_SIZE in *; lia).
  assert (Ep : u8 (cursor_palette show s gx gy) = cursor_palette show s gx gy).
  { apply u8_small. unfold cursor_palette.
    pose proof (get_tile_palette_range (cell (board s) gy gx)).
    destruct (show =? 0); lia. }
  unfold draw_cursor. cbv zeta. rewrite Ex, Ey.
  change (board (with_VBK_REG 1 s)) with (board s).
  assert (E : (if negb (show =? 0)
               then set_bkg_tile_xy (GRID_X + gx * CELL_W + 2) (GRID_Y + gy * CELL_H + 2) 6
                      (set_bkg_tile_xy (GRID_X + gx * CELL_W) (GRID_Y + gy * CELL_H + 2) 6
                         (set_bkg_tile_xy (GRID_X + gx * CELL_W + 2) (GRID_Y + gy * CELL_H) 6
                            (set_bkg_tile_xy (GRID_X + gx * CELL_W) (GRID_Y + gy * CELL_H) 6
                               (with_VBK_REG 1 s))))
               else set_bkg_tile_xy (GRID_X + gx * CELL_W + 2) (GRID_Y + gy * CELL_H + 2)
                      (get_tile_palette (cell (board s) gy gx))
                      (set_bkg_tile_xy (GRID_X + gx * CELL_W) (GRID_Y + gy * CELL_H + 2)
                         (get_tile_palette (cell (board s) gy gx))
                         (set_bkg_tile_xy (GRID_X + gx * CELL_W + 2) (GRID_Y + gy * CELL_H)
                            (get_tile_palette (cell (board s) gy gx))
                            (set_bkg_tile_xy (GRID_X + gx * CELL_W) (GRID_Y + gy * CELL_H)
                               (get_tile_palette (cell (board s) gy gx))
                               (with_VBK_REG 1 s))))) =
              set_bkg_tile_xy (GRID_X + gx * CELL_W + 2) (GRID_Y + gy * CELL_H + 2)
                (cursor_palette show s gx gy)
                (set_bkg_tile_xy (GRID_X + gx * CELL_W) (GRID_Y + gy * CELL_H + 2)
                   (cursor_palette show s gx gy)
                   (set_bkg_tile_xy (GRID_X + gx * CELL_W + 2) (GRID_Y + gy * CELL_H)
                      (cursor_palette show s gx gy)
                      (set_bkg_tile_xy (GRID_X + gx * CELL_W) (GRID_Y + gy * CELL_H)
                         (cursor_palette show s gx gy)
                         (with_VBK_REG 1 s)))))
    by (unfold cursor_palette; by destruct (show =? 0)).
  rewrite E, four_writes, Ex, Ey, Ex2, Ey2, Ep. reflexivity.
Qed.

Lemma draw_cursor_VBK_REG gx gy show s : VBK_REG (draw_cursor gx gy show s) = 0.
Proof. unfold draw_cursor. by destruct (show =? 0). Qed.

Lemma draw_cursor_tile_at gx gy show s x y :
  0 ≤ gx < GRID_SIZE → 0 ≤ gy < GRID_SIZE →
  tile_at (draw_cursor gx gy show s) x y = tile_at s x y.
Proof. intros Hx Hy. unfold tile_at. by rewrite draw_cursor_writes. Qed.

Lemma draw_cursor_attr_at gx gy show s x y :
  0 ≤ gx < GRID_SIZE → 0 ≤ gy < GRID_SIZE →
  attr_at (draw_cursor gx gy show s) x y =
  if is_corner gx gy x y then Some (cursor_palette show s gx gy) else attr_at s x y.
Proof.
  intros Hx Hy. unfold attr_at. rewrite draw_cursor_writes by done.
  generalize (cursor_palette show s gx gy). intros p.
  unfold is_corner. cbn [app shown w_bank w_x w_y w_tile].
  change (1 =? 1) with true. cbn [andb].
  rewrite !(Z.eqb_sym _ x), !(Z.eqb_sym _ y).
  destruct (x =? GRID_X + gx * CELL_W), (x =? GRID_X + gx * CELL_W + 2),
           (y =? GRID_Y + gy * CELL_H), (y =? GRID_Y + gy * CELL_H + 2);
    reflexivity.
Qed.

(** X12. [draw_cursor] writes the attribute map at the four corners of the
    block of its cell and nowhere else: gold (palette 6) when [show] is not
    zero, the palette of the cell's identifier when it is.  The tile map shows
    everywhere what it showed before, the register is back on the tile map,
    and no game variable changes. *)
Theorem draw_cursor_paints_four_corners (s : state) (gx gy show : Z) :
  0 ≤ gx < GRID_SIZE → 0 ≤ gy < GRID_SIZE →
  (∀ x y, tile_at (draw_cursor gx gy show s) x y = tile_at s x y) ∧
  (∀ x y, attr_at (draw_cursor gx gy show s) x y =
          if is_corner gx gy x y then Some (cursor_palette show s gx gy)
          else attr_at s x y) ∧
  VBK_REG (draw_cursor gx gy show s) = 0 ∧
  logic (draw_cursor gx gy show s) = logic s.
Proof.
  intros Hx Hy.
  split; [| split; [| split; [apply draw_cursor_VBK_REG | apply logic_draw_cursor]]].
  - intros x y. by apply draw_cursor_tile_at.
  - intros x y. by apply draw_cursor_attr_at.
Qed.

(** ** draw_border *)

Lemma draw_border_writes s :
  bkg_writes (draw_border s) = border_writes ++ bkg_writes s.
Proof. destruct s. reflexivity. Qed.

Lemma border_writes_on_ring :
  forallb (λ w, on_ring (w_x w) (w_y w)) border_writes = true.
Proof. vm_compute. reflexivity. Qed.

Lemma border_writes_off_ring x y : on_ring x y = false → misses x y border_writes = true.
Proof.
  intros Hoff. unfold misses. apply forallb_forall. intros w Hw.
  pose proof border_writes_on_ring as Hon. rewrite forallb_forall in Hon.
  specialize (Hon w Hw). apply negb_true_iff, andb_false_iff.
  destruct (Z.eqb_spec (w_x w) x) as [Ex | Ex]; [| by left].
  destruct (Z.eqb_spec (w_y w) y) as [Ey | Ey]; [| by right].
  congruence.
Qed.

Lemma on_ring_box x y :
  on_ring x y = true →
  (x = 3 ∨ x = 4 ∨ x = 5 ∨ x = 6 ∨ x = 7 ∨ x = 8 ∨ x = 9 ∨ x = 10 ∨ x = 11 ∨
   x = 12 ∨ x = 13 ∨ x = 14 ∨ x = 15 ∨ x = 16) ∧
  (y = 2 ∨ y = 3 ∨ y = 4 ∨ y = 5 ∨ y = 6 ∨ y = 7 ∨ y = 8 ∨ y = 9 ∨ y = 10 ∨
   y = 11 ∨ y = 12 ∨ y = 13 ∨ y = 14 ∨ y = 15).
Proof.
  unfold on_ring, GRID_X, GRID_Y, GRID_SIZE, CELL_W, CELL_H.
  rewrite orb_true_iff, !andb_true_iff, !orb_true_iff, !Z.eqb_eq, !Z.leb_le. lia.
Qed.

Lemma border_writes_shown x y :
  on_ring x y = true →
  shown 0 x y border_writes = Some (border_tile x y) ∧
  shown 1 x y border_writes = Some 0.
Proof.
  intros Hon. destruct (on_ring_box x y Hon) as [Hx Hy]. revert Hon.
  repeat (destruct Hx as [-> | Hx]);
    repeat (destruct Hy as [-> | Hy]); subst;
    vm_compute; first [discriminate | intros _; split; reflexivity].
Qed.

Lemma draw_border_tile_at s x y :
  tile_at (draw_border s) x y =
  if on_ring x y then Some (border_tile x y) else tile_at s x y.
Proof.
  unfold tile_at. rewrite draw_border_writes, shown_app.
  destruct (on_ring x y) eqn:Hon.
  - by rewrite (proj1 (border_writes_shown x y Hon)).
  - by rewrite (shown_misses _ _ _ _ (border_writes_off_ring x y Hon)).
Qed.

Lemma draw_border_attr_at s x y :
  attr_at (draw_border s) x y = if on_ring x y then Some 0 else attr_at s x y.
Proof.
  unfold attr_at. rewrite draw_border_writes, shown_app.
  destruct (on_ring x y) eqn:Hon.
  - by rewrite (proj2 (border_writes_shown x y Hon)).
  - by rewrite (shown_misses _ _ _ _ (border_writes_off_ring x y Hon)).
Qed.

Lemma grid_area_off_ring x y : in_grid_area x y → on_ring x y = false.
Proof.
  unfold in_grid_area, on_ring, GRID_X, GRID_Y, GRID_SIZE, CELL_W, CELL_H.
  intros [Hx Hy]. apply orb_false_iff.
  rewrite !andb_false_iff, !orb_false_iff, !Z.eqb_neq, !Z.leb_gt. lia.
Qed.

(** X13. [draw_border] paints the one-tile ring around the 12x12 square of
    the blocks and nothing else: corner tiles in the corners, the matching edge
    tile along each side, palette 0 all around.  Every other position, in
    particular every cell block and the HUD row, shows on both layers what it
    showed before; the register is back on the tile map and no game variable
    changes. *)
Theorem draw_border_paints_the_ring (s : state) :
  (∀ x y, tile_at (draw_border s) x y =
          if on_ring x y then Some (border_tile x y) else tile_at s x y) ∧
  (∀ x y, attr_at (draw_border s) x y =
          if on_ring x y then Some 0 else attr_at s x y) ∧
  (∀ x y, in_grid_area x y → on_ring x y = false) ∧
  VBK_REG (draw_border s) = 0 ∧
  logic (draw_border s) = logic s.
Proof.
  split; [apply draw_border_tile_at |]. split; [apply draw_border_attr_at |].
  split; [apply grid_area_off_ring |].
  split; [by destruct s | apply logic_draw_border].
Qed.

(** ** The move counter beyond three digits *)

Lemma put_char_other x y h s :
  10 ≤ h ≤ 255 → put_char x y (u8 (48 + h)) s = set_bkg_tile_xy x y T_BLANK s.
Proof.
  intros Hh. unfold put_char.
  assert (Hc : u8 (48 + h) < 48 ∨ 57 < u8 (48 + h)).
  { unfold u8. destruct (Z.le_gt_cases h 207).
    - right. rewrite Z.mod_small by lia. lia.
    - left. assert ((48 + h) mod 256 = h - 208) as ->
        by (symmetry; apply (Z.mod_unique _ _ 1); lia).
      lia. }
  assert (((48 <=? u8 (48 + h)) && (u8 (48 + h) <=? 57)) = false) as ->; [| done].
  apply andb_false_iff. rewrite Z.leb_gt, Z.leb_gt. lia.
Qed.

(** [put_number] on any [uint16_t]; [hundreds] is cut to eight bits. *)
Lemma put_number_any x y num s :
  0 ≤ num < 65536 →
  put_number x y num s =
  set_bkg_tile_xy (x + 2) y (digit_tile (num mod 10))
    (set_bkg_tile_xy (x + 1) y
       (if (u8 (num / 100) =? 0) && (num / 10 mod 10 =? 0) then T_BLANK
        else digit_tile (num / 10 mod 10))
       (set_bkg_tile_xy x y
          (if (1 <=? u8 (num / 100)) && (u8 (num / 100) <=? 9)
           then digit_tile (u8 (num / 100)) else T_BLANK) s)).
Proof.
  intros Hnum. unfold put_number.
  pose proof (Z.mod_pos_bound (num / 10) 10 ltac:(lia)) as Ht.
  pose proof (Z.mod_pos_bound num 10 ltac:(lia)) as Ho.
  assert (Hh : 0 ≤ u8 (num / 100) < 256) by (unfold u8; apply Z.mod_pos_bound; lia).
  rewrite !(put_char_digit _ _ (num mod 10)), !(put_char_digit _ _ (num / 10 mod 10)) by lia.
  rewrite (u8_small (num / 10 mod 10)) by lia.
  generalize dependent (u8 (num / 100)). intros h Hh.
  generalize dependent (num / 10 mod 10). intros t Ht.
  generalize (digit_tile (num mod 10)). intros g0.
  rewrite !Z.gtb_ltb.
  destruct (Z.ltb_spec 0 h) as [Hpos | Hzero].
  - assert ((h =? 0) = false) as -> by (apply Z.eqb_neq; lia).
    assert ((1 <=? h) = true) as -> by (apply Z.leb_le; lia).
    cbn [andb].
    destruct (Z.leb_spec h 9) as [Hle | Hgt].
    + rewrite <- (u8_small h) at 1 by lia. by rewrite put_char_digit by lia.
    + by rewrite put_char_other by lia.
  - assert (h = 0) as -> by lia.
    change (0 =? 0) with true. change (1 <=? 0) with false. cbn [andb].
    destruct (Z.ltb_spec 0 t) as [Htpos | Htzero].
    + by assert ((t =? 0) = false) as -> by (apply Z.eqb_neq; lia).
    + by assert (t = 0) as -> by lia.
Qed.

Lemma tile_digit_range t d : tile_digit t = Some d → 0 ≤ d ≤ 9.
Proof.
  unfold tile_digit, T_NUM10_L, T_NUM_START.
  destruct (Z.eqb_spec t (19 + 1)); [intros [= <-]; lia |].
  destruct (Z.leb_spec 10 t), (Z.leb_spec t (10 + 8)); cbn [andb];
    intros [= <-]; lia.
Qed.

(** A three-tile field never reads as a number of four digits. *)
Lemma field_value_below field v : field_value field = Some v → 0 ≤ v < 1000.
Proof.
  unfold field_value.
  destruct field as [| [t2 |] [| [t1 |] [| [t0 |] [|]]]]; try discriminate.
  destruct (tile_digit t0) as [d0 |] eqn:E0; [| discriminate].
  apply tile_digit_range in E0.
  destruct (_ && _); [intros [= <-]; lia |].
  destruct (tile_digit t1) as [d1 |] eqn:E1; [| discriminate].
  apply tile_digit_range in E1.
  destruct (t2 =? T_BLANK).
  - destruct (d1 =? 0); [discriminate | intros [= <-]; lia].
  - destruct (tile_digit t2) as [d2 |] eqn:E2; [| discriminate].
    apply tile_digit_range in E2.
    destruct (d2 =? 0); [discriminate | intros [= <-]; lia].
Qed.

Lemma draw_hud_render s :
  0 ≤ move_count s < 65536 → hud_tiles (draw_hud s) = hud_render (move_count s).
Proof.
  intros Hmc. destruct (draw_hud_unfold s) as (t & _ & ->).
  rewrite put_number_any by done.
  pose proof (Z.mod_pos_bound (move_count s / 10) 10 ltac:(lia)) as H1.
  pose proof (Z.mod_pos_bound (move_count s) 10 ltac:(lia)) as H0.
  pose proof (digit_tile_range (move_count s / 10 mod 10)) as R1.
  pose proof (digit_tile_range (move_count s mod 10)) as R0.
  apply hud_tiles_sets.
  - apply u8_small; lia.
  - apply u8_blank_or; lia.
  - destruct (Z.leb_spec 1 (u8 (move_count s / 100))),
             (Z.leb_spec (u8 (move_count s / 100)) 9); cbn [andb]; try done.
    pose proof (digit_tile_range (u8 (move_count s / 100))).
    apply u8_small; lia.
Qed.

(** X14. The HUD for every value of the [uint16_t] counter.  The ones and
    the tens digit are always the counter's; the first position holds the
    digit of [hundreds], which is the counter divided by 100 and cut to eight
    bits, if that is 1..9 and a blank otherwise; the tens position is blank
    only if [hundreds] and the tens digit are both 0.  So from 1000 on the
    field no longer reads as the counter. *)
Theorem hud_for_every_counter (s : state) :
  0 ≤ move_count s < 65536 →
  hud_tiles (draw_hud s) =
    [Some (if (1 <=? u8 (move_count s / 100)) && (u8 (move_count s / 100) <=? 9)
           then digit_tile (u8 (move_count s / 100)) else T_BLANK);
     Some (if (u8 (move_count s / 100) =? 0) && (move_count s / 10 mod 10 =? 0)
           then T_BLANK else digit_tile (move_count s / 10 mod 10));
     Some (digit_tile (move_count s mod 10))] ∧
  (field_value (hud_tiles (draw_hud s)) = Some (move_count s) ↔ move_count s < 1000).
Proof.
  intros Hmc.
  pose proof (draw_hud_render s Hmc) as Htiles.
  split; [exact Htiles |]. split.
  - intros H. apply field_value_below in H. lia.
  - intros Hlt. rewrite (draw_hud_tiles s) by lia.
    apply field_value_digits. lia.
Qed.

(** ** The screen follows the game *)

Lemma frame_block area s t gx gy :
  same_outside area s t →
  (∀ x y, in_cell gx gy x y → ¬ area x y) →
  block_tiles t gx gy = block_tiles s gx gy ∧
  block_attrs t gx gy = block_attrs s gx gy.
Proof.
  intros H Hd.
  assert (Hout : ∀ dx dy, 0 ≤ dx < 3 → 0 ≤ dy < 3 →
            ¬ area (GRID_X + gx * CELL_W + dx) (GRID_Y + gy * CELL_H + dy)).
  { intros dx dy Hdx Hdy. apply Hd. unfold in_cell, CELL_W, CELL_H. lia. }
  unfold block_tiles, block_attrs, tile_at, attr_at. cbn [fmap list_fmap].
  rewrite !H by (apply Hout; lia). done.
Qed.

Lemma frame_hud area s t :
  same_outside area s t →
  (∀ x, ¬ area x (GRID_Y + GRID_SIZE * CELL_H + 2)) →
  hud_tiles t = hud_tiles s.
Proof.
  intros H Hd. unfold hud_tiles, tile_at. cbn [fmap list_fmap].
  rewrite !H by apply Hd. done.
Qed.

Lemma frame_border area s t :
  same_outside area s t →
  (∀ x y, on_ring x y = true → ¬ area x y) →
  border_shown s → border_shown t.
Proof.
  intros H Hd Hs x y Hon. unfold tile_at, attr_at.
  rewrite !H by (by apply Hd). by apply Hs.
Qed.

Lemma cells_apart gx gy gx' gy' x y :
  (gx, gy) ≠ (gx', gy') → in_cell gx' gy' x y → ¬ in_cell gx gy x y.
Proof.
  intros Hne. unfold in_cell, GRID_X, GRID_Y, CELL_W, CELL_H. intros H1 H2.
  apply Hne. f_equal; lia.
Qed.

Lemma cell_not_hud gx gy x :
  0 ≤ gy < GRID_SIZE → ¬ in_cell gx gy x (GRID_Y + GRID_SIZE * CELL_H + 2).
Proof. unfold in_cell, GRID_X, GRID_Y, CELL_W, CELL_H, GRID_SIZE. lia. Qed.

Lemma ring_not_cell gx gy x y :
  0 ≤ gx < GRID_SIZE → 0 ≤ gy < GRID_SIZE →
  on_ring x y = true → ¬ in_cell gx gy x y.
Proof.
  intros Hx Hy Hon [Hcx Hcy].
  unfold in_cell, on_ring, GRID_X, GRID_Y, CELL_W, CELL_H, GRID_SIZE in *.
  rewrite orb_true_iff, !andb_true_iff, !orb_true_iff, !Z.eqb_eq, !Z.leb_le in Hon.
  lia.
Qed.

Lemma cell_not_in_hud gx gy x y :
  0 ≤ gy < GRID_SIZE → in_cell gx gy x y → ¬ in_hud x y.
Proof. unfold in_cell, in_hud, GRID_X, GRID_Y, CELL_W, CELL_H, GRID_SIZE. lia. Qed.

Lemma ring_not_hud x y : on_ring x y = true → ¬ in_hud x y.
Proof.
  intros Hon. unfold in_hud, on_ring, GRID_X, GRID_Y, CELL_W, CELL_H, GRID_SIZE in *.
  rewrite orb_true_iff, !andb_true_iff, !orb_true_iff, !Z.eqb_eq, !Z.leb_le in Hon.
  lia.
Qed.

Lemma draw_hud_same_outside s : same_outside in_hud s (draw_hud s).
Proof.
  intros bank x y Hout. destruct (draw_hud_writes s) as (new & -> & Hrow).
  apply shown_app_misses. unfold misses. rewrite forallb_forall in *.
  intros w Hw. specialize (Hrow w Hw). unfold in_hud_row in Hrow.
  apply Z.eqb_eq in Hrow. apply negb_true_iff, andb_false_iff. right.
  apply Z.eqb_neq. unfold in_hud in Hout. congruence.
Qed.

Lemma draw_cursor_same_outside gx gy show s :
  0 ≤ gx < GRID_SIZE → 0 ≤ gy < GRID_SIZE →
  same_outside (in_cell gx gy) s (draw_cursor gx gy show s).
Proof.
  intros Hx Hy bank x y Hout. rewrite draw_cursor_writes by done.
  apply shown_app_misses. apply (in_block_misses gx gy); [| done].
  cbn [forallb]. rewrite !andb_true_iff.
  repeat split; try done; apply in_block_spec;
    unfold GRID_X, GRID_Y, CELL_W, CELL_H; cbn [w_x w_y]; lia.
Qed.


Lemma is_corner_offsets gx gy :
  is_corner gx gy (GRID_X + gx * CELL_W + 0) (GRID_Y + gy * CELL_H + 0) = true ∧
  is_corner gx gy (GRID_X + gx * CELL_W + 1) (GRID_Y + gy * CELL_H + 0) = false ∧
  is_corner gx gy (GRID_X + gx * CELL_W + 2) (GRID_Y + gy * CELL_H + 0) = true ∧
  is_corner gx gy (GRID_X + gx * CELL_W + 0) (GRID_Y + gy * CELL_H + 1) = false ∧
  is_corner gx gy (GRID_X + gx * CELL_W + 1) (GRID_Y + gy * CELL_H + 1) = false ∧
  is_corner gx gy (GRID_X + gx * CELL_W + 2) (GRID_Y + gy * CELL_H + 1) = false ∧
  is_corner gx gy (GRID_X + gx * CELL_W + 0) (GRID_Y + gy * CELL_H + 2) = true ∧
  is_corner gx gy (GRID_X + gx * CELL_W + 1) (GRID_Y + gy * CELL_H + 2) = false ∧
  is_corner gx gy (GRID_X + gx * CELL_W + 2) (GRID_Y + gy * CELL_H + 2) = true.
Proof.
  unfold is_corner.
  repeat split;
    rewrite ?andb_true_iff, ?andb_false_iff, ?orb_true_iff, ?orb_false_iff,
            ?Z.eqb_eq, ?Z.eqb_neq; lia.
Qed.

(** [draw_cursor] on the block of its own cell. *)
Lemma draw_cursor_block gx gy show s p :
  0 ≤ gx < GRID_SIZE → 0 ≤ gy < GRID_SIZE →
  block_attrs s gx gy = uniform_block p ∨ block_attrs s gx gy = gilded_block p →
  block_tiles (draw_cursor gx gy show s) gx gy = block_tiles s gx gy ∧
  block_attrs (draw_cursor gx gy show s) gx gy =
    [[Some (cursor_palette show s gx gy); Some p; Some (cursor_palette show s gx gy)];
     [Some p; Some p; Some p];
     [Some (cursor_palette show s gx gy); Some p; Some (cursor_palette show s gx gy)]].
Proof.
  intros Hx Hy Hb. split.
  - unfold block_tiles. cbn [fmap list_fmap].
    by rewrite !draw_cursor_tile_at by done.
  - destruct (is_corner_offsets gx gy)
      as (C00 & C10 & C20 & C01 & C11 & C21 & C02 & C12 & C22).
    unfold block_attrs in *. cbn [fmap list_fmap] in *.
    rewrite !draw_cursor_attr_at by done.
    rewrite C00, C10, C20, C01, C11, C21, C02, C12, C22.
    destruct Hb as [Hb | Hb];
      injection Hb as _ E10 _ E01 E11 E21 _ E12 _;
      by rewrite E10, E01, E11, E21, E12.
Qed.

Lemma cell_shown_attrs lit s gx gy :
  cell_shown lit s gx gy →
  block_attrs s gx gy = uniform_block (get_tile_palette (cell (board s) gy gx)) ∨
  block_attrs s gx gy = gilded_block (get_tile_palette (cell (board s) gy gx)).
Proof. intros [_ H]. destruct lit; [by right | by left]. Qed.

Lemma draw_cursor_own_cell gx gy show s lit :
  0 ≤ gx < GRID_SIZE → 0 ≤ gy < GRID_SIZE →
  cell_shown lit s gx gy →
  cell_shown (negb (show =? 0)) (draw_cursor gx gy show s) gx gy.
Proof.
  intros Hx Hy Hs.
  destruct (draw_cursor_block gx gy show s _ Hx Hy (cell_shown_attrs _ _ _ _ Hs))
    as [Et Ea].
  unfold cell_shown. rewrite Et, Ea, draw_cursor_board.
  split; [apply Hs |].
  unfold cursor_palette. by destruct (show =? 0).
Qed.

Lemma draw_cursor_other_cell gx gy show s lit gx' gy' :
  0 ≤ gx < GRID_SIZE → 0 ≤ gy < GRID_SIZE →
  (gx, gy) ≠ (gx', gy') →
  cell_shown lit s gx' gy' →
  cell_shown lit (draw_cursor gx gy show s) gx' gy'.
Proof.
  intros Hx Hy Hne Hs.
  destruct (frame_block (in_cell gx gy) s (draw_cursor gx gy show s) gx' gy')
    as [Et Ea]; [by apply draw_cursor_same_outside | |].
  { intros x y. by apply cells_apart. }
  unfold cell_shown. by rewrite Et, Ea, draw_cursor_board.
Qed.

(** Showing the cursor on a board that shows no cursor, or shows it there
    already. *)
Lemma draw_cursor_show cur gx gy s :
  0 ≤ gx < GRID_SIZE → 0 ≤ gy < GRID_SIZE →
  cur = None ∨ cur = Some (gy, gx) →
  board_shown cur s → board_shown (Some (gy, gx)) (draw_cursor gx gy 1 s).
Proof.
  intros Hx Hy Hcur Hs gx' gy' Hx' Hy'. specialize (Hs gx' gy' Hx' Hy').
  destruct (decide ((gx, gy) = (gx', gy'))) as [E | Hne].
  - injection E as <- <-. rewrite bool_decide_eq_true_2 by done.
    by apply (draw_cursor_own_cell gx gy 1 s _ Hx Hy) in Hs.
  - rewrite bool_decide_eq_false_2 by congruence.
    apply draw_cursor_other_cell; [done.. |].
    rewrite bool_decide_eq_false_2 in Hs; [done |].
    destruct Hcur as [-> | ->]; congruence.
Qed.

(** Hiding the cursor where it is shown. *)
Lemma draw_cursor_hide cur gx gy s :
  0 ≤ gx < GRID_SIZE → 0 ≤ gy < GRID_SIZE →
  cur = None ∨ cur = Some (gy, gx) →
  board_shown cur s → board_shown None (draw_cursor gx gy 0 s).
Proof.
  intros Hx Hy Hcur Hs gx' gy' Hx' Hy'. specialize (Hs gx' gy' Hx' Hy').
  rewrite bool_decide_eq_false_2 by done.
  destruct (decide ((gx, gy) = (gx', gy'))) as [E | Hne].
  - injection E as <- <-.
    by apply (draw_cursor_own_cell gx gy 0 s _ Hx Hy) in Hs.
  - apply draw_cursor_other_cell; [done.. |].
    rewrite bool_decide_eq_false_2 in Hs; [done |].
    destruct Hcur as [-> | ->]; congruence.
Qed.

Lemma draw_cursor_keeps_hud_and_border gx gy show s :
  0 ≤ gx < GRID_SIZE → 0 ≤ gy < GRID_SIZE →
  hud_tiles (draw_cursor gx gy show s) = hud_tiles s ∧
  (border_shown s → border_shown (draw_cursor gx gy show s)).
Proof.
  intros Hx Hy.
  pose proof (draw_cursor_same_outside gx gy show s Hx Hy) as H.
  split.
  - apply (frame_hud _ _ _ H). intros x. by apply cell_not_hud.
  - apply (frame_border _ _ _ H). intros x y. by apply ring_not_cell.
Qed.

Lemma same_outside_log area s t : bkg_writes t = bkg_writes s → same_outside area s t.
Proof. intros H bank x y _. by rewrite H. Qed.

Lemma block_log s t gx gy :
  bkg_writes t = bkg_writes s →
  block_tiles t gx gy = block_tiles s gx gy ∧ block_attrs t gx gy = block_attrs s gx gy.
Proof.
  intros H. apply (frame_block (λ _ _, False)); [by apply same_outside_log | tauto].
Qed.

Lemma hud_log s t : bkg_writes t = bkg_writes s → hud_tiles t = hud_tiles s.
Proof. intros H. apply (frame_hud (λ _ _, False)); [by apply same_outside_log | tauto]. Qed.

Lemma border_log s t : bkg_writes t = bkg_writes s → border_shown s → border_shown t.
Proof.
  intros H. apply (frame_border (λ _ _, False)); [by apply same_outside_log | tauto].
Qed.

Lemma board_shown_ext cur s t :
  bkg_writes t = bkg_writes s → board t = board s →
  board_shown cur s → board_shown cur t.
Proof.
  intros Hl Hb Hs gx gy Hx Hy. specialize (Hs gx gy Hx Hy).
  destruct (block_log s t gx gy Hl) as [Et Ea].
  unfold cell_shown. by rewrite Et, Ea, Hb.
Qed.

Lemma draw_cell_board gx gy s : board (draw_cell gx gy s) = board s.
Proof. by destruct (logic_fields _ _ (logic_draw_cell gx gy s)) as (-> & _). Qed.

Lemma draw_hud_fields s :
  board (draw_hud s) = board s ∧ move_count (draw_hud s) = move_count s.
Proof.
  by destruct (logic_fields _ _ (logic_draw_hud s)) as (-> & _ & _ & _ & _ & -> & _).
Qed.

(** What the screen shows after the drawing of a slide: [m] is the state
    with the tile moved, [s] the state whose board the screen showed. *)
Lemma slide_display s m er ec r c mc :
  inv m →
  0 ≤ er < GRID_SIZE → 0 ≤ ec < GRID_SIZE →
  0 ≤ r < GRID_SIZE → 0 ≤ c < GRID_SIZE →
  (r, c) ≠ (er, ec) →
  bkg_writes m = bkg_writes s →
  (∀ gx gy, 0 ≤ gx < GRID_SIZE → 0 ≤ gy < GRID_SIZE →
     (gy, gx) ≠ (er, ec) → (gy, gx) ≠ (r, c) →
     cell (board m) gy gx = cell (board s) gy gx) →
  board_shown (Some (r, c)) s → border_shown s →
  0 ≤ mc < 65536 →
  board_shown None (draw_hud (with_move_count mc (draw_cell c r (draw_cell ec er m)))) ∧
  hud_tiles (draw_hud (with_move_count mc (draw_cell c r (draw_cell ec er m)))) =
    hud_render mc ∧
  border_shown (draw_hud (with_move_count mc (draw_cell c r (draw_cell ec er m)))).
Proof.
  intros Hinv Her Hec Hr Hc Hne Hlog Hcells Hs Hbd Hmc.
  pose proof (draw_cell_same_outside ec er m Hec Her) as F1.
  pose proof (draw_cell_board ec er m) as B1.
  set (d1 := draw_cell ec er m) in *.
  pose proof (draw_cell_same_outside c r d1 Hc Hr) as F2.
  pose proof (draw_cell_board c r d1) as B2.
  assert (R2 : 0 ≤ cell (board d1) r c ≤ 15) by (rewrite B1; by apply inv_cell_range).
  pose proof (draw_cell_block c r d1 Hc Hr R2) as D2.
  assert (R1 : 0 ≤ cell (board m) er ec ≤ 15) by (by apply inv_cell_range).
  pose proof (draw_cell_block ec er m Hec Her R1) as D1. fold d1 in D1.
  clearbody d1.
  set (d2 := draw_cell c r d1) in *. clearbody d2.
  assert (Lw : bkg_writes (with_move_count mc d2) = bkg_writes d2) by reflexivity.
  assert (Bw : board (with_move_count mc d2) = board d2) by reflexivity.
  assert (Mw : move_count (with_move_count mc d2) = mc) by reflexivity.
  set (w := with_move_count mc d2) in *. clearbody w.
  pose proof (draw_hud_same_outside w) as F3.
  destruct (draw_hud_fields w) as [B3 M3].
  pose proof (draw_hud_render w) as H3. rewrite Mw in H3. specialize (H3 Hmc).
  set (t := draw_hud w) in *. clearbody t.
  assert (Bt : board t = board m) by congruence.
  split; [| split; [done |]].
  - intros gx gy Hx Hy. rewrite bool_decide_eq_false_2 by done.
    destruct (frame_block in_hud w t gx gy F3) as [T3 A3].
    { intros x y. by apply cell_not_in_hud. }
    destruct (block_log d2 w gx gy Lw) as [Tw Aw].
    unfold cell_shown. rewrite T3, A3, Tw, Aw, Bt. clear T3 A3 Tw Aw.
    destruct (decide ((gx, gy) = (c, r))) as [E | Hn2].
    { injection E as -> ->. rewrite <- B1. exact D2. }
    destruct (frame_block (in_cell c r) d1 d2 gx gy F2) as [T2 A2].
    { intros x y. apply cells_apart. congruence. }
    rewrite T2, A2. clear T2 A2.
    destruct (decide ((gx, gy) = (ec, er))) as [E | Hn1].
    { injection E as -> ->. exact D1. }
    destruct (frame_block (in_cell ec er) m d1 gx gy F1) as [T1 A1].
    { intros x y. apply cells_apart. congruence. }
    destruct (block_log s m gx gy Hlog) as [Tm Am].
    rewrite T1, A1, Tm, Am. clear T1 A1 Tm Am.
    rewrite Hcells by (done || congruence).
    specialize (Hs gx gy Hx Hy).
    rewrite bool_decide_eq_false_2 in Hs by congruence. exact Hs.
  - apply (frame_border in_hud w t F3); [intros x y; apply ring_not_hud |].
    apply (border_log d2 w Lw).
    apply (frame_border (in_cell c r) d1 d2 F2); [intros x y; by apply ring_not_cell |].
    apply (frame_border (in_cell ec er) m d1 F1); [intros x y; by apply ring_not_cell |].
    by apply (border_log s m).
Qed.

Lemma playing_ext s t : shown_vars t = shown_vars s → playing s → playing t.
Proof.
  unfold shown_vars. intros E (Hinv & Hr & Hc & Hmc & Hb & Hh & Hbd).
  injection E as El Eb Eer Eec Ecr Ecc Emc.
  split; [apply (inv_puzzle s); [unfold puzzle; congruence | done] |].
  unfold screen_synced. rewrite Ecr, Ecc, Emc.
  split; [done |]. split; [done |]. split; [done |].
  split; [| split].
  - by apply (board_shown_ext _ s).
  - by rewrite (hud_log s t El).
  - by apply (border_log s t El).
Qed.

(** The cursor drawn on a screen that shows the board without it. *)
Lemma show_cursor_playing t :
  inv t → 0 ≤ cursor_row t < GRID_SIZE → 0 ≤ cursor_col t < GRID_SIZE →
  0 ≤ move_count t < 65536 →
  board_shown None t → hud_tiles t = hud_render (move_count t) → border_shown t →
  playing (show_cursor t).
Proof.
  intros Hinv Hr Hc Hmc Hb Hh Hbd. unfold show_cursor.
  pose proof (logic_draw_cursor (cursor_col t) (cursor_row t) 1 t) as L.
  destruct (draw_cursor_keeps_hud_and_border (cursor_col t) (cursor_row t) 1 t Hc Hr)
    as [Eh Kb].
  pose proof (draw_cursor_show None (cursor_col t) (cursor_row t) t Hc Hr
                (or_introl eq_refl) Hb) as Hs.
  set (u := draw_cursor _ _ _ t) in *. clearbody u.
  pose proof (logic_puzzle _ _ L) as Lp.
  apply logic_fields in L.
  destruct L as (_ & _ & _ & Ecr & Ecc & Emc & _).
  split; [by apply (inv_puzzle t) |].
  unfold screen_synced. rewrite Ecr, Ecc, Emc, Eh.
  split; [done |]. split; [done |]. split; [done |].
  split; [done |]. split; [done | by apply Kb].
Qed.

Lemma board_moved r c s :
  board (moved r c s) = slide (board s) (empty_row s) (empty_col s) r c.
Proof. by destruct s. Qed.

(** The state after a successful [try_move] at the cursor, before the cursor
    is redrawn. *)
Lemma try_move_shown s :
  playing s →
  adjacency_test (empty_row s) (empty_col s) (cursor_row s) (cursor_col s) = true →
  inv (try_move (cursor_row s) (cursor_col s) s).2 ∧
  cursor_row (try_move (cursor_row s) (cursor_col s) s).2 = cursor_row s ∧
  cursor_col (try_move (cursor_row s) (cursor_col s) s).2 = cursor_col s ∧
  0 ≤ move_count (try_move (cursor_row s) (cursor_col s) s).2 < 65536 ∧
  board_shown None (try_move (cursor_row s) (cursor_col s) s).2 ∧
  hud_tiles (try_move (cursor_row s) (cursor_col s) s).2 =
    hud_render (move_count (try_move (cursor_row s) (cursor_col s) s).2) ∧
  border_shown (try_move (cursor_row s) (cursor_col s) s).2.
Proof.
  intros (Hinv & Hr & Hc & Hmc & Hb & Hh & Hbd) Hadj.
  pose proof (try_move_inv s _ _ Hinv Hr Hc) as Itm.
  pose proof (try_move_logic _ _ s Hadj) as L.
  destruct (moved_counted_fields (cursor_row s) (cursor_col s) s)
    as (_ & _ & _ & Fcr & Fcc & Fmc & _).
  assert (Hne : (cursor_row s, cursor_col s) ≠ (empty_row s, empty_col s)).
  { apply manhattan_1_ne.
    by apply (adjacency_test_manhattan _ _ _ _ (inv_row _ Hinv) (inv_col _ Hinv) Hr Hc). }
  assert (Hu : 0 ≤ u16 (move_count s + 1) < 65536)
    by (unfold u16; apply Z.mod_pos_bound; lia).
  destruct (slide_display s (moved (cursor_row s) (cursor_col s) s)
              (empty_row s) (empty_col s) (cursor_row s) (cursor_col s)
              (u16 (move_count s + 1)))
    as (Db & Dh & Dbd);
    [by apply moved_inv | apply Hinv | apply Hinv | done | done | done
    | apply bkg_writes_moved | | done | done | done |].
  { intros gx gy Hx Hy Hn1 Hn2. rewrite board_moved.
    apply slide_elsewhere; [apply Hinv | apply Hinv | apply Hinv | done..]. }
  assert (E : (try_move (cursor_row s) (cursor_col s) s).2 =
              draw_hud (with_move_count (u16 (move_count s + 1))
                (draw_cell (cursor_col s) (cursor_row s)
                   (draw_cell (empty_col s) (empty_row s)
                      (moved (cursor_row s) (cursor_col s) s)))))
    by (by rewrite try_move_unfold, Hadj).
  rewrite <- E in Db, Dh, Dbd. clear E.
  set (tm := (try_move (cursor_row s) (cursor_col s) s).2) in *. clearbody tm.
  set (m := with_move_count _ _) in *. clearbody m.
  apply logic_fields in L. destruct L as (_ & _ & _ & Ecr & Ecc & Emc & _).
  rewrite Ecr, Ecc, Emc, Fcr, Fcc, Fmc. done.
Qed.

Lemma armed_playing (won : bool) u :
  playing u →
  playing (with_input_cooldown INPUT_DELAY (if won then with_game_won 1 u else u)).
Proof. intros Hu. destruct won; by apply (playing_ext u). Qed.

Lemma slide_selected_playing s : playing s → playing (slide_selected s).1.
Proof.
  intros Hp.
  destruct (adjacency_test (empty_row s) (empty_col s) (cursor_row s) (cursor_col s))
    eqn:Hadj.
  - destruct (try_move_shown s Hp Hadj) as (Itm & Ecr & Ecc & Hmc & Hb & Hh & Hbd).
    destruct Hp as (Hinv & Hr & Hc & _).
    rewrite (proj2 (slide_selected_success s Hinv Hr Hc Hadj)).
    apply armed_playing.
    apply show_cursor_playing; [done | by rewrite Ecr | by rewrite Ecc | done..].
  - rewrite (slide_selected_failure s Hadj). by apply (armed_playing false).
Qed.

Lemma nudge_log keys t :
  bkg_writes (nudge_up keys t) = bkg_writes t ∧
  bkg_writes (nudge_down keys t) = bkg_writes t ∧
  bkg_writes (nudge_left keys t) = bkg_writes t ∧
  bkg_writes (nudge_right keys t) = bkg_writes t.
Proof.
  unfold nudge_up, nudge_down, nudge_left, nudge_right.
  repeat split; by destruct (_ && _).
Qed.

(** The four [if]s of the cursor movement change the cursor and nothing
    that is shown. *)
Lemma nudges_fields keys t :
  0 ≤ cursor_row t < GRID_SIZE → 0 ≤ cursor_col t < GRID_SIZE →
  bkg_writes (nudge_right keys (nudge_left keys (nudge_down keys (nudge_up keys t)))) =
    bkg_writes t ∧
  beside_cursor (nudge_right keys (nudge_left keys (nudge_down keys (nudge_up keys t)))) =
    beside_cursor t ∧
  0 ≤ cursor_row (nudge_right keys (nudge_left keys (nudge_down keys (nudge_up keys t))))
    < GRID_SIZE ∧
  0 ≤ cursor_col (nudge_right keys (nudge_left keys (nudge_down keys (nudge_up keys t))))
    < GRID_SIZE.
Proof.
  intros Hr Hc.
  destruct (nudge_up_fields keys t) as (R1 & C1 & B1).
  destruct (nudge_log keys t) as (L1 & _).
  set (t1 := nudge_up keys t) in *. clearbody t1.
  destruct (nudge_down_fields keys t1) as (R2 & C2 & B2).
  destruct (nudge_log keys t1) as (_ & L2 & _).
  set (t2 := nudge_down keys t1) in *. clearbody t2.
  destruct (nudge_left_fields keys t2) as (C3 & R3 & B3).
  destruct (nudge_log keys t2) as (_ & _ & L3 & _).
  set (t3 := nudge_left keys t2) in *. clearbody t3.
  destruct (nudge_right_fields keys t3) as (C4 & R4 & B4).
  destruct (nudge_log keys t3) as (_ & _ & _ & L4).
  set (t4 := nudge_right keys t3) in *. clearbody t4.
  split; [congruence |]. split; [congruence |].
  split.
  - rewrite R4, R3, R2, R1, nudge_arith by done. by apply cursor_target_range.
  - rewrite C4, C3, C2, C1, nudge_arith by done. by apply cursor_target_range.
Qed.

Lemma nudged_playing keys t :
  inv t → 0 ≤ cursor_row t < GRID_SIZE → 0 ≤ cursor_col t < GRID_SIZE →
  0 ≤ move_count t < 65536 →
  board_shown None t → hud_tiles t = hud_render (move_count t) → border_shown t →
  playing (show_cursor
             (nudge_right keys (nudge_left keys (nudge_down keys (nudge_up keys t))))).
Proof.
  intros Hinv Hr Hc Hmc Hb Hh Hbd.
  destruct (nudges_fields keys t Hr Hc) as (L & B & Hr' & Hc').
  set (u := nudge_right keys _) in *. clearbody u.
  unfold beside_cursor in B. injection B as Eb Eer Eec Emc _ _.
  apply show_cursor_playing; [| done | done | by rewrite Emc | | |].
  - apply (inv_puzzle t); [unfold puzzle; congruence | done].
  - by apply (board_shown_ext _ t).
  - by rewrite (hud_log t u L), Emc.
  - by apply (border_log t u L).
Qed.

Lemma move_cursor_playing keys s : playing s → playing (move_cursor keys s).
Proof.
  intros (Hinv & Hr & Hc & Hmc & Hb & Hh & Hbd).
  rewrite move_cursor_eq.
  apply (armed_playing false).
  pose proof (logic_draw_cursor (cursor_col s) (cursor_row s) 0 s) as L.
  destruct (draw_cursor_keeps_hud_and_border (cursor_col s) (cursor_row s) 0 s Hc Hr)
    as [Eh Kb].
  pose proof (draw_cursor_hide _ (cursor_col s) (cursor_row s) s Hc Hr
                (or_intror eq_refl) Hb) as Hhid.
  pose proof (logic_puzzle _ _ L) as Lp.
  apply logic_fields in L. destruct L as (_ & _ & _ & Ecr & Ecc & Emc & _).
  apply nudged_playing.
  - by apply (inv_puzzle s).
  - by rewrite Ecr.
  - by rewrite Ecc.
  - by rewrite Emc.
  - done.
  - by rewrite Eh, Emc.
  - by apply Kb.
Qed.

Lemma game_iteration_playing s : playing s → playing (game_iteration s).1.
Proof.
  intros Hp. apply (game_iteration_preserves playing); [done | | | | |].
  - intros u Hu. by apply (playing_ext u).
  - intros v u Hu. by apply (playing_ext u).
  - intros v u Hu. by apply (playing_ext u).
  - intros k u Hu. by apply move_cursor_playing.
  - intros u Hu. by apply slide_selected_playing.
Qed.

Lemma draw_border_shown s : border_shown (draw_border s).
Proof.
  intros x y Hon. by rewrite draw_border_tile_at, draw_border_attr_at, Hon.
Qed.

(** The four drawing calls of the session set-up, on any screen. *)
Lemma first_picture p :
  inv p → 0 ≤ cursor_row p < GRID_SIZE → 0 ≤ cursor_col p < GRID_SIZE →
  0 ≤ move_count p < 65536 →
  playing (show_cursor (draw_hud (draw_board (draw_border p)))).
Proof.
  intros Hinv Hr Hc Hmc.
  pose proof (logic_draw_border p) as Lb.
  pose proof (draw_border_shown p) as Sb.
  set (b := draw_border p) in *. clearbody b.
  assert (Ib : inv b)
    by (apply (inv_puzzle p); [symmetry; by apply logic_puzzle | done]).
  pose proof (draw_cells_logic board_order b) as Ld.
  pose proof (draw_cells_same_outside board_order b board_order_grid) as Fd.
  assert (Sd : board_shown None (draw_cells board_order b)).
  { intros gx gy Hx Hy. rewrite bool_decide_eq_false_2 by done.
    destruct (draw_cells_shown board_order b gx gy Ib board_order_grid
                (board_order_all gx gy Hx Hy)) as [Et Ea].
    unfold cell_shown.
    destruct (logic_fields _ _ Ld) as (-> & _). done. }
  rewrite <- draw_board_cells in Ld, Fd, Sd.
  set (d := draw_board b) in *. clearbody d.
  pose proof (logic_draw_hud d) as Lh.
  pose proof (draw_hud_same_outside d) as Fh.
  assert (Ed : logic d = logic p) by congruence.
  pose proof (logic_puzzle _ _ Ed) as Pd.
  apply logic_fields in Ed. destruct Ed as (_ & _ & _ & Dcr & Dcc & Dmc & _).
  pose proof (draw_hud_render d) as Hh. rewrite Dmc in Hh. specialize (Hh Hmc).
  destruct (draw_hud_fields d) as [Bh Mh].
  set (h := draw_hud d) in *. clearbody h.
  assert (Eh : logic h = logic p) by (etrans; [exact Lh |]; congruence).
  pose proof (logic_puzzle _ _ Eh) as Ph.
  apply logic_fields in Eh. destruct Eh as (_ & _ & _ & Hcr & Hcc & Hmc' & _).
  apply show_cursor_playing.
  - by apply (inv_puzzle p).
  - by rewrite Hcr.
  - by rewrite Hcc.
  - by rewrite Hmc'.
  - intros gx gy Hx Hy.
    destruct (frame_block in_hud d h gx gy Fh) as [Et Ea].
    { intros x y. by apply cell_not_in_hud. }
    unfold cell_shown. rewrite Et, Ea, Bh. by apply Sd.
  - by rewrite Hmc'.
  - apply (frame_border in_hud d h Fh); [intros x y; apply ring_not_hud |].
    apply (frame_border in_grid_area b d Fd); [| done].
    intros x y Hon Hin. apply grid_area_off_ring in Hin. congruence.
Qed.

Lemma outside_puzzle_cursor s t :
  outside_puzzle s = outside_puzzle t →
  cursor_row s = cursor_row t ∧ cursor_col s = cursor_col t ∧ move_count s = move_count t.
Proof. unfold outside_puzzle. intros H. by injection H. Qed.

Lemma new_session_playing s : board_shape (board s) → playing (new_session s).
Proof.
  intros Hb. rewrite new_session_eq.
  set (p := shuffle_board (init_board (reset_session s))).
  assert (Hp : inv p ∧ cursor_row p = 0 ∧ cursor_col p = 0 ∧ move_count p = 0).
  { unfold p. clear p.
    destruct (reset_session_fields s) as [Erb _].
    assert (Hrb : board_shape (board (reset_session s))) by congruence.
    destruct (init_board_solves (reset_session s) Hrb) as (_ & Er & Ec & _ & Ho).
    destruct (shuffle_touches_only_puzzle (init_board (reset_session s)) 0)
      as (_ & Hs & _); [by rewrite Er | by rewrite Ec |].
    split.
    - rewrite shuffle_board_steps. by apply shuffle_steps_inv, init_board_inv.
    - assert (Ho' : outside_puzzle (shuffle_board (init_board (reset_session s))) =
                    outside_puzzle (reset_session s)) by congruence.
      destruct (outside_puzzle_cursor _ _ Ho') as (-> & -> & ->).
      by destruct s. }
  clearbody p. destruct Hp as (Ip & Ecr & Ecc & Emc).
  pose proof (logic_clear_screen p) as Lc.
  set (c := clear_screen p) in *. clearbody c.
  pose proof (logic_puzzle _ _ Lc) as Pc.
  apply logic_fields in Lc. destruct Lc as (_ & _ & _ & Ccr & Ccc & Cmc & _).
  apply first_picture.
  - by apply (inv_puzzle p).
  - rewrite Ccr, Ecr. unfold GRID_SIZE. lia.
  - rewrite Ccc, Ecc. unfold GRID_SIZE. lia.
  - rewrite Cmc, Emc. lia.
Qed.

Lemma main_step_main_screen c : main_screen c → main_screen (main_step c).1.
Proof.
  destruct c as [p s]. unfold main_screen. cbn [fst snd]. intros [Hb Hp].
  unfold main_step, joypad. destruct p.
  - specialize (Hp eq_refl).
    destruct (game_won s =? 0).
    + pose proof (game_iteration_playing s Hp) as Hp'.
      destruct (game_iteration s) as [t evs]. cbn [fst snd] in *.
      split; [apply Hp' | done].
    + cbn [fst snd]. split; [| discriminate].
      by rewrite (game_vars_board _ _ (game_vars_win_animation s)).
  - cbv zeta. cbv iota. cbv beta.
    destruct (negb _); cbn [fst snd]; (split; [done | discriminate]).
  - cbv zeta. cbv iota. cbv beta.
    destruct (negb _); cbn [fst snd]; [split; [done | discriminate] |].
    assert (Hb' : board_shape (board (with_polls (S (polls s)) s))) by done.
    pose proof (new_session_playing _ Hb') as Hn.
    split; [apply Hn | done].
Qed.

Lemma main_run_main_screen fuel : ∀ c, main_screen c → main_screen (main_run fuel c).1.
Proof.
  induction fuel as [| fuel IH]; intros c Hm; [done |].
  cbn [main_run].
  pose proof (main_step_main_screen c Hm) as Hm'.
  destruct (main_step c) as [c' evs]. cbn [fst] in Hm'.
  specialize (IH c' Hm').
  by destruct (main_run fuel c') as [c'' evs'].
Qed.

(** X15. Whenever [main] is in the game loop, however long it has run and
    whatever the player has pressed, the screen is in step with the game: the
    block of every cell shows that cell of the board, the cell under the
    cursor and no other has gold corners, the HUD holds the move counter as
    [put_number] renders it, and the border ring is in place.  Every slide,
    cursor move and restart redraws just enough. *)
Theorem screen_follows_the_game (fuel : nat) (s : state) :
  board_shape (board s) →
  (main fuel s).1.1 = GameLoop →
  screen_synced (main fuel s).1.2.
Proof.
  intros Hb. unfold main.
  assert (Hm : main_screen (GameLoop, new_session s)).
  { split; cbn [fst snd]; [by apply new_session_spec | intros _; by apply new_session_playing]. }
  pose proof (main_run_main_screen fuel _ Hm) as [_ H].
  destruct (main_run fuel (GameLoop, new_session s)) as [c evs].
  cbn [fst] in *. intros Hpc. apply (H Hpc).
Qed.

(** ** title_screen *)

Lemma title_wait_counts (n : nat) : ∀ fuel s,
  (∀ k, (k < n)%nat → pressed (u8 (joypad_at (polls s + k))) J_START = false) →
  pressed (u8 (joypad_at (polls s + n))) J_START = true →
  (n < fuel)%nat →
  title_wait fuel s =
  Some (with_polls (polls s + n + 1)
          (with_frame (frame s + n + 1)
             (with_seed_counter
                (Nat.iter (S n) (λ v, u16 (v + 1)) (seed_counter s)) s))).
Proof.
  induction n as [| n IH]; intros fuel s Hup Hdown Hfuel.
  - destruct fuel as [| fuel]; [lia |].
    cbn [title_wait]. unfold joypad. cbv zeta. cbv iota. cbv beta.
    change (polls (with_seed_counter _ (wait_vbl_done s))) with (polls s).
    unfold pressed in Hdown. rewrite Nat.add_0_r in Hdown. rewrite Hdown.
    destruct s as [b er ec cr cc mc gw ic sc vbk log fr po].
    cbv [with_polls with_frame with_seed_counter wait_vbl_done polls frame seed_counter
         board empty_row empty_col cursor_row cursor_col move_count game_won
         input_cooldown VBK_REG bkg_writes Nat.iter nat_rect].
    do 2 f_equal; lia.
  - destruct fuel as [| fuel]; [lia |].
    cbn [title_wait]. unfold joypad. cbv zeta. cbv iota. cbv beta.
    change (polls (with_seed_counter _ (wait_vbl_done s))) with (polls s).
    pose proof (Hup O ltac:(lia)) as H0. unfold pressed in H0.
    rewrite Nat.add_0_r in H0. rewrite H0. cbn [negb].
    rewrite IH.
    + rewrite (Nat.iter_succ_r (S n)).
      destruct s as [b er ec cr cc mc gw ic sc vbk log fr po].
      cbv [with_polls with_frame with_seed_counter wait_vbl_done polls frame seed_counter
           board empty_row empty_col cursor_row cursor_col move_count game_won
           input_cooldown VBK_REG bkg_writes].
      do 2 f_equal; first [lia | reflexivity].
    + intros k Hk.
      change (polls (with_polls _ _)) with (S (polls s)).
      replace (S (polls s) + k)%nat with (polls s + S k)%nat by lia. apply Hup. lia.
    + change (polls (with_polls _ _)) with (S (polls s)).
      replace (S (polls s) + n)%nat with (polls s + S n)%nat by lia. exact Hdown.
    + lia.
Qed.

Lemma title_release_waits (m : nat) : ∀ fuel s,
  (∀ k, (k < m)%nat → pressed (u8 (joypad_at (polls s + k))) J_START = true) →
  pressed (u8 (joypad_at (polls s + m))) J_START = false →
  (m < fuel)%nat →
  title_release fuel s =
  Some (with_polls (polls s + m + 1) (with_frame (frame s + m) s)).
Proof.
  induction m as [| m IH]; intros fuel s Hdown Hup Hfuel.
  - destruct fuel as [| fuel]; [lia |].
    cbn [title_release]. unfold joypad.
    unfold pressed in Hup. rewrite Nat.add_0_r in Hup. rewrite Hup. cbn [negb].
    destruct s as [b er ec cr cc mc gw ic sc vbk log fr po].
    cbv [with_polls with_frame polls frame seed_counter
         board empty_row empty_col cursor_row cursor_col move_count game_won
         input_cooldown VBK_REG bkg_writes].
    do 2 f_equal; lia.
  - destruct fuel as [| fuel]; [lia |].
    cbn [title_release]. unfold joypad.
    pose proof (Hdown O ltac:(lia)) as H0. unfold pressed in H0.
    rewrite Nat.add_0_r in H0. rewrite H0. cbn [negb].
    rewrite IH.
    + destruct s as [b er ec cr cc mc gw ic sc vbk log fr po].
      cbv [with_polls with_frame wait_vbl_done polls frame seed_counter
           board empty_row empty_col cursor_row cursor_col move_count game_won
           input_cooldown VBK_REG bkg_writes].
      do 2 f_equal; lia.
    + intros k Hk.
      change (polls (wait_vbl_done (with_polls _ _))) with (S (polls s)).
      replace (S (polls s) + k)%nat with (polls s + S k)%nat by lia. apply Hdown. lia.
    + change (polls (wait_vbl_done (with_polls _ _))) with (S (polls s)).
      replace (S (polls s) + m)%nat with (polls s + S m)%nat by lia. exact Hup.
    + lia.
Qed.

Lemma iter_increment (n : nat) v :
  Nat.iter n (λ v, u16 (v + 1)) (u16 v) = u16 (v + Z.of_nat n).
Proof.
  induction n as [| n IH].
  - cbn [Nat.iter nat_rect]. f_equal. lia.
  - rewrite Nat.iter_succ, IH. unfold u16.
    rewrite Zplus_mod_idemp_l. f_equal. lia.
Qed.

Lemma logic_title_picture s : logic (title_picture s) = logic s.
Proof.
  assert (Hfill : ∀ v u, logic u = logic s →
            logic (for_loop 0 18 (λ y s,
                     for_loop 0 20 (λ x s, set_bkg_tile_xy x y v s) s) u) = logic s).
  { intros v u Hu.
    apply (for_loop_ind (λ w, logic w = logic s)); [done |].
    intros y w _ Hw.
    apply (for_loop_ind (λ w, logic w = logic s)); [done |].
    intros x w' _ Hw'. done. }
  unfold title_picture. cbv zeta.
  etrans; [apply logic_with_VBK_REG |].
  do 4 (etrans; [apply logic_set_bkg_tile_xy |]).
  etrans; [apply logic_with_VBK_REG |].
  do 18 (etrans; [apply logic_set_bkg_tile_xy |]).
  etrans; [apply logic_with_VBK_REG |].
  apply Hfill. etrans; [apply logic_with_VBK_REG |]. by apply Hfill.
Qed.

(** The two loops of [title_screen]. *)
Lemma title_loops (n m fuel : nat) p :
  (∀ k, (k < n)%nat → pressed (u8 (joypad_at (polls p + k))) J_START = false) →
  pressed (u8 (joypad_at (polls p + n))) J_START = true →
  (∀ k, (k < m)%nat → pressed (u8 (joypad_at (polls p + n + 1 + k))) J_START = true) →
  pressed (u8 (joypad_at (polls p + n + 1 + m))) J_START = false →
  (n < fuel)%nat → (m < fuel)%nat →
  match title_wait fuel (with_seed_counter 0 p) with
  | None => None
  | Some s => title_release fuel s
  end =
  Some (with_polls (polls p + n + m + 2)
          (with_frame (frame p + n + 1 + m)
             (with_seed_counter (u16 (Z.of_nat n + 1)) p))).
Proof.
  intros Hup Hdown Hheld Hrel Hn Hm.
  rewrite (title_wait_counts n fuel (with_seed_counter 0 p) Hup Hdown Hn).
  change (seed_counter (with_seed_counter 0 p)) with (u16 0).
  rewrite iter_increment.
  change (polls (with_seed_counter 0 p)) with (polls p).
  change (frame (with_seed_counter 0 p)) with (frame p).
  rewrite (title_release_waits m fuel); [| | | done].
  - destruct p as [b er ec cr cc mc gw ic sc vbk log fr po].
    cbv [with_polls with_frame with_seed_counter polls frame seed_counter
         board empty_row empty_col cursor_row cursor_col move_count game_won
         input_cooldown VBK_REG bkg_writes].
    do 2 f_equal; first [lia | f_equal; lia].
  - intros k Hk. change (polls (with_polls ?a _)) with a. by apply Hheld.
  - change (polls (with_polls ?a _)) with a. exact Hrel.
Qed.

Lemma title_result_fields p s v (a b : nat) :
  logic p = logic s →
  seed_counter (with_polls a (with_frame b (with_seed_counter v p))) = v ∧
  frame (with_polls a (with_frame b (with_seed_counter v p))) = b ∧
  polls (with_polls a (with_frame b (with_seed_counter v p))) = a ∧
  beside_title (with_polls a (with_frame b (with_seed_counter v p))) = beside_title s.
Proof.
  intros L. apply logic_fields in L.
  destruct L as (Eb & Eer & Eec & Ecr & Ecc & Emc & Eg & Eic & _).
  unfold beside_title. rewrite <- Eb, <- Eer, <- Eec, <- Ecr, <- Ecc, <- Emc, <- Eg, <- Eic.
  by destruct p.
Qed.

Lemma title_picture_clocks s :
  polls (title_picture s) = polls s ∧ frame (title_picture s) = frame s.
Proof.
  by destruct (logic_fields _ _ (logic_title_picture s))
    as (_ & _ & _ & _ & _ & _ & _ & _ & _ & -> & ->).
Qed.

(** X16. [title_screen] returns once START has been seen down and then up
    again, and the seed it leaves is the number of frames it waited for the
    press, counted in [uint16_t]: if START is first down at the [n]-th poll
    (counting from 0) the seed is [n + 1], cut to sixteen bits.  The frames
    spent waiting for the release do not count.  Nothing else of the game
    state is touched. *)
Theorem title_screen_seed (n m fuel : nat) (s : state) :
  (∀ k, (k < n)%nat → pressed (u8 (joypad_at (polls s + k))) J_START = false) →
  pressed (u8 (joypad_at (polls s + n))) J_START = true →
  (∀ k, (k < m)%nat → pressed (u8 (joypad_at (polls s + n + 1 + k))) J_START = true) →
  pressed (u8 (joypad_at (polls s + n + 1 + m))) J_START = false →
  (n < fuel)%nat → (m < fuel)%nat →
  ∃ t, title_screen fuel s = Some t ∧
       seed_counter t = u16 (Z.of_nat n + 1) ∧
       frame t = (frame s + n + 1 + m)%nat ∧
       polls t = (polls s + n + m + 2)%nat ∧
       beside_title t = beside_title s.
Proof.
  intros Hup Hdown Hheld Hrel Hn Hm.
  destruct (title_picture_clocks s) as [Ep Ef].
  rewrite <- Ep in Hup, Hdown, Hheld, Hrel.
  eexists. split.
  - unfold title_screen. cbv zeta.
    apply (title_loops n m fuel (title_picture s) Hup Hdown Hheld Hrel Hn Hm).
  - rewrite Ep, Ef. apply title_result_fields, logic_title_picture.
Qed.

End Hardware.

(** * Instances

    The theorems above at concrete inputs: the solved board, a generator
    that counts up from the seed, GBDK's button masks and a joypad on which
    every button is held all the time. *)

Lemma try_move_adjacent_iff_and_effect_witness :
  inv (init_board power_on) ∧ 0 ≤ 3 < GRID_SIZE ∧ 0 ≤ 2 < GRID_SIZE ∧
  ((try_move 3 2 (init_board power_on)).1 = 1 ↔
   manhattan (empty_row (init_board power_on)) (empty_col (init_board power_on)) 3 2 = 1) ∧
  move_count (try_move 3 2 (init_board power_on)).2 = 1.
Proof.
  assert (H : inv (init_board power_on)).
  { split.
    - split; [reflexivity | repeat constructor].
    - apply (bool_decide_unpack _). vm_compute. exact I.
    - vm_compute. split; [discriminate | reflexivity].
    - vm_compute. split; [discriminate | reflexivity].
    - reflexivity. }
  assert (H3 : 0 ≤ 3 < GRID_SIZE) by (unfold GRID_SIZE; lia).
  assert (H2 : 0 ≤ 2 < GRID_SIZE) by (unfold GRID_SIZE; lia).
  pose proof (try_move_adjacent_iff_and_effect (init_board power_on) 3 2 H H3 H2)
    as (Hiff & _ & _).
  split; [exact H |]. split; [exact H3 |]. split; [exact H2 |].
  split; [exact Hiff | reflexivity].
Defined.

Lemma invariant_after_every_mutation_witness :
  board_shape (board power_on) ∧ inv (init_board power_on) ∧
  0 ≤ 3 < GRID_SIZE ∧ 0 ≤ 2 < GRID_SIZE ∧
  inv (shuffle_board nat counting_initrand counting_rand (init_board power_on)) ∧
  inv (try_move 3 2 (init_board power_on)).2.
Proof.
  assert (Hb : board_shape (board power_on))
    by (split; [reflexivity | repeat constructor]).
  assert (H : inv (init_board power_on)).
  { split.
    - split; [reflexivity | repeat constructor].
    - apply (bool_decide_unpack _). vm_compute. exact I.
    - vm_compute. split; [discriminate | reflexivity].
    - vm_compute. split; [discriminate | reflexivity].
    - reflexivity. }
  assert (H3 : 0 ≤ 3 < GRID_SIZE) by (unfold GRID_SIZE; lia).
  assert (H2 : 0 ≤ 2 < GRID_SIZE) by (unfold GRID_SIZE; lia).
  pose proof (invariant_after_every_mutation nat counting_initrand counting_rand
                power_on (init_board power_on) 200 3 2 Hb H H3 H2)
    as (_ & _ & Hs & Ht).
  split; [exact Hb |]. split; [exact H |]. split; [exact H3 |]. split; [exact H2 |].
  split; [exact Hs | exact Ht].
Defined.

Lemma shuffled_board_is_solvable_witness :
  board_shape (board power_on) ∧
  ∃ (path : list (Z * Z)) (s' : state),
    replay path (shuffle_board nat counting_initrand counting_rand
                   (init_board power_on)) = Some s' ∧
    (∀ k p, path !! k = Some p → 0 ≤ p.1 < GRID_SIZE ∧ 0 ≤ p.2 < GRID_SIZE) ∧
    board s' = solved_board ∧ check_win s' = 1.
Proof.
  assert (Hb : board_shape (board power_on))
    by (split; [reflexivity | repeat constructor]).
  split; [exact Hb |].
  exact (shuffled_board_is_solvable nat counting_initrand counting_rand power_on Hb).
Defined.

Lemma accepted_moves_never_reverse_witness :
  0 ≤ empty_row (init_board power_on) < GRID_SIZE ∧
  0 ≤ empty_col (init_board power_on) < GRID_SIZE ∧
  (∀ k a b,
     accepted nat counting_initrand counting_rand 200 (init_board power_on) !! k = Some a →
     accepted nat counting_initrand counting_rand 200 (init_board power_on) !! S k = Some b →
     reverses a b = false).
Proof.
  assert (Hr : 0 ≤ empty_row (init_board power_on) < GRID_SIZE)
    by (vm_compute; split; [discriminate | reflexivity]).
  assert (Hc : 0 ≤ empty_col (init_board power_on) < GRID_SIZE)
    by (vm_compute; split; [discriminate | reflexivity]).
  split; [exact Hr |]. split; [exact Hc |].
  exact (proj1 (accepted_moves_never_reverse nat counting_initrand counting_rand
                  (init_board power_on) 200 Hr Hc)).
Defined.

Lemma check_win_exactly_solved_witness :
  board_shape (board (init_board power_on)) ∧
  (check_win (init_board power_on) = 1 ↔ board (init_board power_on) = solved_board).
Proof.
  assert (Hb : board_shape (board (init_board power_on)))
    by (split; [reflexivity | repeat constructor]).
  split; [exact Hb |].
  exact (proj1 (check_win_exactly_solved (init_board power_on) Hb)).
Defined.

Lemma try_move_repaints_only_two_cells_witness :
  0 ≤ empty_row (init_board power_on) < GRID_SIZE ∧
  0 ≤ empty_col (init_board power_on) < GRID_SIZE ∧
  0 ≤ 3 < GRID_SIZE ∧ 0 ≤ 2 < GRID_SIZE ∧
  ∃ new : list write,
    bkg_writes (try_move 3 2 (init_board power_on)).2 =
      new ++ bkg_writes (init_board power_on) ∧
    repainted 3 3 new = true ∧ repainted 2 3 new = true ∧ hud_repainted new = true.
Proof.
  assert (Hr : 0 ≤ empty_row (init_board power_on) < GRID_SIZE)
    by (vm_compute; split; [discriminate | reflexivity]).
  assert (Hc : 0 ≤ empty_col (init_board power_on) < GRID_SIZE)
    by (vm_compute; split; [discriminate | reflexivity]).
  assert (H3 : 0 ≤ 3 < GRID_SIZE) by (unfold GRID_SIZE; lia).
  assert (H2 : 0 ≤ 2 < GRID_SIZE) by (unfold GRID_SIZE; lia).
  split; [exact Hr |]. split; [exact Hc |]. split; [exact H3 |]. split; [exact H2 |].
  destruct (try_move_repaints_only_two_cells (init_board power_on) 3 2 Hr Hc H3 H2)
    as (new & Hlog & _ & Hmoved).
  exists new. split; [exact Hlog |].
  destruct (Hmoved eq_refl) as (R1 & R2 & R3 & _).
  split; [exact R1 |]. split; [exact R2 | exact R3].
Defined.

Lemma no_try_move_after_win_witness :
  board_shape (board power_on) ∧
  (main unit upward_initrand upward_rand 4 8 2 1 16 64 128 winning_pad
     40 power_on).2 = winning_trace ∧
  quiet_after_win false
    (main unit upward_initrand upward_rand 4 8 2 1 16 64 128 winning_pad
       40 power_on).2 = true.
Proof.
  assert (Hb : board_shape (board power_on))
    by (split; [reflexivity | repeat constructor]).
  split; [exact Hb |].
  split; [vm_compute; reflexivity |].
  exact (no_try_move_after_win unit upward_initrand upward_rand 4 8 2 1 16 64 128
           winning_pad 40 power_on Hb).
Defined.

Lemma hud_shows_counter_below_1000_witness :
  0 ≤ move_count (with_move_count 42 power_on) < 1000 ∧
  field_value (hud_tiles (draw_hud (with_move_count 42 power_on))) = Some 42.
Proof.
  assert (H : 0 ≤ move_count (with_move_count 42 power_on) < 1000)
    by (simpl; lia).
  split; [exact H |].
  exact (proj2 (hud_shows_counter_below_1000 (with_move_count 42 power_on) H)).
Defined.

Lemma draw_cell_number_layout_witness :
  0 ≤ 0 < GRID_SIZE ∧ 10 ≤ cell (board ten_in_corner) 0 0 ≤ 15 ∧
  block_tiles (draw_cell 0 0 ten_in_corner) 0 0 =
  frame_tiles [Some T_TILE_L; Some (pair_left 10); Some (pair_left 10 + 1)].
Proof.
  assert (H0 : 0 ≤ 0 < GRID_SIZE) by (unfold GRID_SIZE; lia).
  assert (Hv : 10 ≤ cell (board ten_in_corner) 0 0 ≤ 15)
    by (vm_compute; split; discriminate).
  split; [exact H0 |]. split; [exact Hv |].
  exact (proj1 (draw_cell_number_layout ten_in_corner 0 0 H0 H0) Hv).
Defined.

Lemma win_animation_six_beats_then_normal_witness :
  0 ≤ 3 < GRID_SIZE ∧ 0 ≤ 0 < GRID_SIZE ∧
  block_attrs (win_animation (init_board power_on)) 3 0 = uniform_block 1.
Proof.
  assert (H3 : 0 ≤ 3 < GRID_SIZE) by (unfold GRID_SIZE; lia).
  assert (H0 : 0 ≤ 0 < GRID_SIZE) by (unfold GRID_SIZE; lia).
  split; [exact H3 |]. split; [exact H0 |].
  destruct (win_animation_six_beats_then_normal (init_board power_on))
    as (_ & _ & Hfinal & _).
  exact (proj1 (Hfinal 3 0 H3 H0)).
Defined.

(** ** Instances of the further properties *)

Lemma init_board_solves_witness :
  board_shape (board power_on) ∧ board (init_board power_on) = solved_board.
Proof.
  assert (Hb : board_shape (board power_on))
    by (split; [reflexivity | repeat constructor]).
  split; [exact Hb |].
  exact (proj1 (init_board_solves power_on Hb)).
Defined.

Lemma try_move_undo_witness :
  inv (init_board power_on) ∧ 0 ≤ 3 < GRID_SIZE ∧ 0 ≤ 2 < GRID_SIZE ∧
  (try_move 3 2 (init_board power_on)).1 = 1 ∧
  board (try_move (empty_row (init_board power_on)) (empty_col (init_board power_on))
           (try_move 3 2 (init_board power_on)).2).2 = board (init_board power_on).
Proof.
  assert (H : inv (init_board power_on)).
  { split.
    - split; [reflexivity | repeat constructor].
    - apply (bool_decide_unpack _). vm_compute. exact I.
    - vm_compute. split; [discriminate | reflexivity].
    - vm_compute. split; [discriminate | reflexivity].
    - reflexivity. }
  assert (H3 : 0 ≤ 3 < GRID_SIZE) by (unfold GRID_SIZE; lia).
  assert (H2 : 0 ≤ 2 < GRID_SIZE) by (unfold GRID_SIZE; lia).
  assert (Hret : (try_move 3 2 (init_board power_on)).1 = 1) by reflexivity.
  split; [exact H |]. split; [exact H3 |]. split; [exact H2 |]. split; [exact Hret |].
  exact (proj1 (proj2 (try_move_undo (init_board power_on) 3 2 H H3 H2 Hret))).
Defined.

Lemma shuffle_touches_only_puzzle_witness :
  0 ≤ empty_row (init_board power_on) < GRID_SIZE ∧
  0 ≤ empty_col (init_board power_on) < GRID_SIZE ∧
  outside_puzzle (shuffle_board nat counting_initrand counting_rand (init_board power_on)) =
  outside_puzzle (init_board power_on).
Proof.
  assert (Hr : 0 ≤ empty_row (init_board power_on) < GRID_SIZE)
    by (vm_compute; split; [discriminate | reflexivity]).
  assert (Hc : 0 ≤ empty_col (init_board power_on) < GRID_SIZE)
    by (vm_compute; split; [discriminate | reflexivity]).
  split; [exact Hr |]. split; [exact Hc |].
  exact (proj1 (proj2 (shuffle_touches_only_puzzle nat counting_initrand counting_rand
                         (init_board power_on) 200 Hr Hc))).
Defined.

Lemma every_session_same_scramble_witness :
  board_shape (board power_on) ∧
  seed_counter
    (main nat counting_initrand counting_rand 4 8 2 1 16 64 128 all_buttons_held
       40 power_on).1.2 = seed_counter power_on.
Proof.
  assert (Hb : board_shape (board power_on))
    by (split; [reflexivity | repeat constructor]).
  split; [exact Hb |].
  exact (proj1 (every_session_same_scramble nat counting_initrand counting_rand
                  4 8 2 1 16 64 128 all_buttons_held 40 power_on Hb)).
Defined.

Lemma move_cursor_target_witness :
  0 ≤ cursor_row power_on < GRID_SIZE ∧ 0 ≤ cursor_col power_on < GRID_SIZE ∧
  cursor_row (move_cursor 4 8 2 1 255 power_on) =
  cursor_target (pressed 255 4) (pressed 255 8) (cursor_row power_on).
Proof.
  assert (Hr : 0 ≤ cursor_row power_on < GRID_SIZE)
    by (vm_compute; split; [discriminate | reflexivity]).
  assert (Hc : 0 ≤ cursor_col power_on < GRID_SIZE)
    by (vm_compute; split; [discriminate | reflexivity]).
  split; [exact Hr |]. split; [exact Hc |].
  exact (proj1 (move_cursor_target 4 8 2 1 255 power_on Hr Hc)).
Defined.

Lemma cooldown_ignores_input_witness :
  game_won (with_input_cooldown 2 power_on) = 0 ∧
  input_cooldown (with_input_cooldown 2 power_on) = Z.of_nat 2 ∧ (2 < 256)%nat ∧
  main_run nat counting_initrand counting_rand 4 8 2 1 16 64 128 all_buttons_held
    2 (GameLoop, with_input_cooldown 2 power_on) =
  (GameLoop,
   with_frame (2 + frame (with_input_cooldown 2 power_on))
     (with_input_cooldown 0 (with_input_cooldown 2 power_on)), []).
Proof.
  assert (Hg : game_won (with_input_cooldown 2 power_on) = 0) by reflexivity.
  assert (Hc : input_cooldown (with_input_cooldown 2 power_on) = Z.of_nat 2)
    by reflexivity.
  assert (Hk : (2 < 256)%nat) by lia.
  split; [exact Hg |]. split; [exact Hc |]. split; [exact Hk |].
  exact (cooldown_ignores_input nat counting_initrand counting_rand
           4 8 2 1 16 64 128 all_buttons_held 2 (with_input_cooldown 2 power_on)
           Hg Hc Hk).
Defined.

Lemma tick_slides_at_most_once_witness :
  inv (init_board power_on) ∧
  0 ≤ cursor_row (init_board power_on) < GRID_SIZE ∧
  0 ≤ cursor_col (init_board power_on) < GRID_SIZE ∧
  input_cooldown (init_board power_on) = 0 ∧
  inv (game_iteration 4 8 2 1 16 64 all_buttons_held (init_board power_on)).1.
Proof.
  assert (H : inv (init_board power_on)).
  { split.
    - split; [reflexivity | repeat constructor].
    - apply (bool_decide_unpack _). vm_compute. exact I.
    - vm_compute. split; [discriminate | reflexivity].
    - vm_compute. split; [discriminate | reflexivity].
    - reflexivity. }
  assert (Hr : 0 ≤ cursor_row (init_board power_on) < GRID_SIZE)
    by (vm_compute; split; [discriminate | reflexivity]).
  assert (Hc : 0 ≤ cursor_col (init_board power_on) < GRID_SIZE)
    by (vm_compute; split; [discriminate | reflexivity]).
  assert (Hd : input_cooldown (init_board power_on) = 0) by reflexivity.
  split; [exact H |]. split; [exact Hr |]. split; [exact Hc |]. split; [exact Hd |].
  exact (proj1 (proj1 (tick_slides_at_most_once 4 8 2 1 16 64 all_buttons_held
                         (init_board power_on) H Hr Hc Hd))).
Defined.

Lemma main_wins_only_when_solved_witness :
  board_shape (board power_on) ∧
  inv (main nat counting_initrand counting_rand 4 8 2 1 16 64 128 all_buttons_held
         40 power_on).1.2.
Proof.
  assert (Hb : board_shape (board power_on))
    by (split; [reflexivity | repeat constructor]).
  split; [exact Hb |].
  exact (proj1 (main_wins_only_when_solved nat counting_initrand counting_rand
                  4 8 2 1 16 64 128 all_buttons_held 40 power_on Hb)).
Defined.

Lemma held_button_acts_every_seventh_frame_witness :
  game_won (init_board power_on) = 0 ∧ input_cooldown (init_board power_on) = 0 ∧
  (pressed (u8 (all_buttons_held (polls (init_board power_on)))) (J_DIRECTIONS 4 8 2 1) ||
   pressed (u8 (all_buttons_held (polls (init_board power_on)))) 16 ||
   pressed (u8 (all_buttons_held (polls (init_board power_on)))) 64) = true ∧
  game_won (game_iteration 4 8 2 1 16 64 all_buttons_held (init_board power_on)).1 = 0 ∧
  input_cooldown (game_iteration 4 8 2 1 16 64 all_buttons_held (init_board power_on)).1 =
  INPUT_DELAY.
Proof.
  assert (Hg : game_won (init_board power_on) = 0) by reflexivity.
  assert (Hd : input_cooldown (init_board power_on) = 0) by reflexivity.
  assert (Hk : (pressed (u8 (all_buttons_held (polls (init_board power_on))))
                  (J_DIRECTIONS 4 8 2 1) ||
                pressed (u8 (all_buttons_held (polls (init_board power_on)))) 16 ||
                pressed (u8 (all_buttons_held (polls (init_board power_on)))) 64) = true)
    by reflexivity.
  assert (Hg' : game_won (game_iteration 4 8 2 1 16 64 all_buttons_held
                            (init_board power_on)).1 = 0)
    by (vm_compute; reflexivity).
  split; [exact Hg |]. split; [exact Hd |]. split; [exact Hk |]. split; [exact Hg' |].
  exact (proj1 (held_button_acts_every_seventh_frame nat counting_initrand counting_rand
                  4 8 2 1 16 64 128 all_buttons_held (init_board power_on)
                  Hg Hd Hk Hg')).
Defined.

Lemma draw_cell_shows_its_cell_only_witness :
  0 ≤ 3 < GRID_SIZE ∧ 0 ≤ cell (board (init_board power_on)) 3 3 ≤ 15 ∧
  block_tiles (draw_cell 3 3 (init_board power_on)) 3 3 =
  cell_picture (cell (board (init_board power_on)) 3 3).
Proof.
  assert (H3 : 0 ≤ 3 < GRID_SIZE) by (unfold GRID_SIZE; lia).
  assert (Hv : 0 ≤ cell (board (init_board power_on)) 3 3 ≤ 15)
    by (vm_compute; split; discriminate).
  split; [exact H3 |]. split; [exact Hv |].
  exact (proj1 (draw_cell_shows_its_cell_only (init_board power_on) 3 3 H3 H3 Hv)).
Defined.

Lemma draw_board_shows_board_witness :
  inv (init_board power_on) ∧
  logic (draw_board (init_board power_on)) = logic (init_board power_on).
Proof.
  assert (H : inv (init_board power_on)).
  { split.
    - split; [reflexivity | repeat constructor].
    - apply (bool_decide_unpack _). vm_compute. exact I.
    - vm_compute. split; [discriminate | reflexivity].
    - vm_compute. split; [discriminate | reflexivity].
    - reflexivity. }
  split; [exact H |].
  exact (proj2 (proj2 (draw_board_shows_board (init_board power_on) H))).
Defined.

Lemma draw_cursor_paints_four_corners_witness :
  0 ≤ 0 < GRID_SIZE ∧
  VBK_REG (draw_cursor 0 0 1 power_on) = 0.
Proof.
  assert (H0 : 0 ≤ 0 < GRID_SIZE) by (unfold GRID_SIZE; lia).
  split; [exact H0 |].
  exact (proj1 (proj2 (proj2 (draw_cursor_paints_four_corners power_on 0 0 1 H0 H0)))).
Defined.

Lemma hud_for_every_counter_witness :
  0 ≤ move_count hud_at_1000 < 65536 ∧
  (field_value (hud_tiles (draw_hud hud_at_1000)) = Some (move_count hud_at_1000) ↔
   move_count hud_at_1000 < 1000).
Proof.
  assert (H : 0 ≤ move_count hud_at_1000 < 65536)
    by (vm_compute; split; [discriminate | reflexivity]).
  split; [exact H |].
  exact (proj2 (hud_for_every_counter hud_at_1000 H)).
Defined.

Lemma screen_follows_the_game_witness :
  board_shape (board power_on) ∧
  (main unit upward_initrand upward_rand 4 8 2 1 16 64 128 winning_pad
     40 power_on).1.1 = GameLoop ∧
  screen_synced
    (main unit upward_initrand upward_rand 4 8 2 1 16 64 128 winning_pad
       40 power_on).1.2.
Proof.
  assert (Hb : board_shape (board power_on))
    by (split; [reflexivity | repeat constructor]).
  assert (Hpc : (main unit upward_initrand upward_rand 4 8 2 1 16 64 128 winning_pad
                   40 power_on).1.1 = GameLoop)
    by (vm_compute; reflexivity).
  split; [exact Hb |]. split; [exact Hpc |].
  exact (screen_follows_the_game unit upward_initrand upward_rand 4 8 2 1 16 64 128
           winning_pad 40 power_on Hb Hpc).
Defined.

Lemma title_screen_seed_witness :
  (∀ k, (k < 2)%nat → pressed (u8 (start_tapped (polls power_on + k))) 128 = false) ∧
  pressed (u8 (start_tapped (polls power_on + 2))) 128 = true ∧
  (∀ k, (k < 1)%nat → pressed (u8 (start_tapped (polls power_on + 2 + 1 + k))) 128 = true) ∧
  pressed (u8 (start_tapped (polls power_on + 2 + 1 + 1))) 128 = false ∧
  (2 < 5)%nat ∧ (1 < 5)%nat ∧
  ∃ t, title_screen 128 start_tapped 5 power_on = Some t ∧
       seed_counter t = u16 (Z.of_nat 2 + 1).
Proof.
  assert (Hup : ∀ k, (k < 2)%nat →
            pressed (u8 (start_tapped (polls power_on + k))) 128 = false).
  { intros k Hk. destruct k as [| [| k]]; [reflexivity | reflexivity | lia]. }
  assert (Hdown : pressed (u8 (start_tapped (polls power_on + 2))) 128 = true)
    by reflexivity.
  assert (Hheld : ∀ k, (k < 1)%nat →
            pressed (u8 (start_tapped (polls power_on + 2 + 1 + k))) 128 = true).
  { intros k Hk. destruct k as [| k]; [reflexivity | lia]. }
  assert (Hrel : pressed (u8 (start_tapped (polls power_on + 2 + 1 + 1))) 128 = false)
    by reflexivity.
  assert (Hn : (2 < 5)%nat) by lia.
  assert (Hm : (1 < 5)%nat) by lia.
  split; [exact Hup |]. split; [exact Hdown |]. split; [exact Hheld |].
  split; [exact Hrel |]. split; [exact Hn |]. split; [exact Hm |].
  destruct (title_screen_seed 128 start_tapped 2 1 5 power_on Hup Hdown Hheld Hrel Hn Hm)
    as (t & Ht & Hs & _).
  exists t. split; [exact Ht | exact Hs].
Defined.
